(** * YOLOv3-Keras: grid codec, label codec, config parser and weight loader

    A shallow embedding of [preprocess.py] and [yolo.py].

    Conventions of the embedding.
    - Python exceptions are values: a fallible function returns
      [result A], either [Ok a] or [Raise e].
    - Python [float] arithmetic is modelled in exact rational arithmetic
      ([Q]); [int(x)] and [round(x)] are the truncation and the
      round-half-to-even of the exact value.  The theorems on the grid
      and label codecs are therefore statements about the arithmetic the
      code writes down, not about binary64 rounding error.
    - Bytes of the weight file are integers in [0, 256); a float32 read
      from the file is kept as its 32-bit pattern, since the loader only
      moves weights and never computes with them. *)

From Stdlib Require Import Ascii String QArith Qround Qabs Lqa.
From stdpp Require Import base option list strings gmap pretty.

Local Open Scope Z_scope.

(** ** Exceptions *)

Inductive exn : Set :=
  | ZeroDivisionError
  | KeyError
  | IndexError
  | ValueError
  | AttributeError
  | UnboundLocalError.

Inductive result (A : Type) : Type :=
  | Ok (a : A)
  | Raise (e : exn).
Arguments Ok {A} a.
Arguments Raise {A} e.

#[global] Instance result_ret : MRet result := fun A a => Ok a.
#[global] Instance result_bind : MBind result := fun A B f m =>
  match m with
  | Ok a => f a
  | Raise e => Raise e
  end.

#[global] Instance result_fmap : FMap result := fun A B f m =>
  match m with
  | Ok a => Ok (f a)
  | Raise e => Raise e
  end.

Definition is_Ok {A} (r : result A) : Prop := exists a, r = Ok a.
Definition raises {A} (r : result A) : Prop := exists e, r = Raise e.

(** ** Python numbers *)

Module Py.

(** [a / b] on floats (true division). *)
Definition truediv (a b : Q) : result Q :=
  if Qeq_bool b 0 then Raise ZeroDivisionError else Ok (a / b)%Q.

(** [int(x)]: truncation toward zero. *)
Definition int (x : Q) : Z := Z.quot (Qnum x) (Zpos (Qden x)).

(** [round(x)]: nearest integer, ties to the even neighbour. *)
Definition round (x : Q) : Z :=
  let f := Qfloor x in
  match (x - inject_Z f ?= 1 # 2)%Q with
  | Lt => f
  | Gt => f + 1
  | Eq => if Z.even f then f else f + 1
  end.

End Py.

(** ** preprocess.py: the grid codec *)

Definition bndbox : Type := Q * Q * Q * Q.
Definition coords : Type := Q * Q * Q * Q * Z * Z.

Definition bndbox_to_coords (box : bndbox) (img_width img_height s : Z)
  : result coords :=
  let '(xmin, xmax, ymin, ymax) := box in
  (* absolute position in grid units *)
  hx ← Py.truediv (xmin + xmax) 2;
  ux ← Py.truediv hx (inject_Z img_width);
  let x := (ux * inject_Z s)%Q in
  hy ← Py.truediv (ymin + ymax) 2;
  uy ← Py.truediv hy (inject_Z img_height);
  let y := (uy * inject_Z s)%Q in
  (* size in grid units *)
  uw ← Py.truediv (xmax - xmin) (inject_Z img_width);
  let w := (uw * inject_Z s)%Q in
  uh ← Py.truediv (ymax - ymin) (inject_Z img_height);
  let h := (uh * inject_Z s)%Q in
  (* position relative to cell *)
  let cell_x := Py.int x in
  let cell_y := Py.int y in
  Ok ((x - inject_Z cell_x)%Q, (y - inject_Z cell_y)%Q, w, h, cell_x, cell_y).

Definition coords_to_bndbox (x y w h : Q) (cell_x cell_y : Z)
    (img_width img_height s : Z) : result (Z * Z * Z * Z) :=
  x ← Py.truediv ((x + inject_Z cell_x) * inject_Z img_width) (inject_Z s);
  y ← Py.truediv ((y + inject_Z cell_y) * inject_Z img_height) (inject_Z s);
  w ← Py.truediv (w * inject_Z img_width) (inject_Z s);
  h ← Py.truediv (h * inject_Z img_height) (inject_Z s);
  hw ← Py.truediv w 2;
  let xmin := Py.round (x - hw) in
  hw' ← Py.truediv w 2;
  let xmax := Py.round (x + hw') in
  hh ← Py.truediv h 2;
  let ymin := Py.round (y - hh) in
  hh' ← Py.truediv h 2;
  let ymax := Py.round (y + hh') in
  Ok (xmin, xmax, ymin, ymax).

(** ** numpy arrays

    An array is its shape and its elements in C (row-major) order.  The
    code always indexes an array with as many indices as it has axes, so
    an index tuple of another length is an [IndexError] here. *)

Module np.

Record ndarray (A : Type) : Type := mk { shape : list nat; data : list A }.
Arguments mk {A} shape data.
Arguments shape {A} _.
Arguments data {A} _.

(** Number of elements of an array of shape [sh]. *)
Definition size (sh : list nat) : nat := foldr Nat.mul 1%nat sh.

(** [np.zeros(sh)] *)
Definition zeros (sh : list Z) : result (ndarray Q) :=
  if forallb (Z.leb 0) sh
  then Ok (mk (Z.to_nat <$> sh) (replicate (size (Z.to_nat <$> sh)) 0%Q))
  else Raise ValueError.

(** One integer index on an axis of length [n]: negative indices count
    from the end, anything outside [-n, n) is an [IndexError]. *)
Definition index (n : nat) (i : Z) : result nat :=
  if (0 <=? i) && (i <? Z.of_nat n) then Ok (Z.to_nat i)
  else if (- Z.of_nat n <=? i) && (i <? 0) then Ok (Z.to_nat (Z.of_nat n + i))
  else Raise IndexError.

(** Offset of the element at [idx] in the row-major data. *)
Fixpoint ravel (sh : list nat) (idx : list Z) : result nat :=
  match sh, idx with
  | [], [] => Ok 0%nat
  | n :: sh', i :: idx' =>
      i' ← index n i;
      r ← ravel sh' idx';
      Ok (i' * size sh' + r)%nat
  | _, _ => Raise IndexError
  end.

(** [a[idx]] *)
Definition item {A} (a : ndarray A) (idx : list Z) : result A :=
  o ← ravel (shape a) idx;
  match data a !! o with
  | Some v => Ok v
  | None => Raise IndexError
  end.

(** [a[idx] = v] *)
Definition setitem {A} (a : ndarray A) (idx : list Z) (v : A)
  : result (ndarray A) :=
  o ← ravel (shape a) idx;
  Ok (mk (shape a) (<[o := v]> (data a))).

(** Bounds of the slice [lo:hi] on an axis of length [n]
    ([hi = None] is an open upper bound). *)
Definition slice_bounds (n lo : nat) (hi : option nat) : nat * nat :=
  let lo' := Nat.min lo n in
  let hi' := Nat.min (default n hi) n in
  (lo', (hi' - lo')%nat).

Definition last_axis (sh : list nat) : result nat :=
  match last sh with
  | Some n => Ok n
  | None => Raise IndexError
  end.

Fixpoint items {A} (a : ndarray A) (idx : list Z) (ks : list nat)
  : result (list A) :=
  match ks with
  | [] => Ok []
  | k :: ks' =>
      v ← item a (idx ++ [Z.of_nat k]);
      vs ← items a idx ks';
      Ok (v :: vs)
  end.

(** [a[idx, lo:hi]], a slice of the last axis. *)
Definition getslice {A} (a : ndarray A) (idx : list Z)
    (lo : nat) (hi : option nat) : result (list A) :=
  n ← last_axis (shape a);
  _ ← ravel (removelast (shape a)) idx;
  let '(start, len) := slice_bounds n lo hi in
  items a idx (seq start len).

Fixpoint setitems {A} (a : ndarray A) (idx : list Z) (kvs : list (nat * A))
  : result (ndarray A) :=
  match kvs with
  | [] => Ok a
  | (k, v) :: kvs' =>
      a' ← setitem a (idx ++ [Z.of_nat k]) v;
      setitems a' idx kvs'
  end.

(** [a[idx, lo:hi] = vs]: the values must fill the slice exactly. *)
Definition setslice {A} (a : ndarray A) (idx : list Z)
    (lo : nat) (hi : option nat) (vs : list A) : result (ndarray A) :=
  n ← last_axis (shape a);
  _ ← ravel (removelast (shape a)) idx;
  let '(start, len) := slice_bounds n lo hi in
  if decide (length vs = len)
  then setitems a idx (zip (seq start len) vs)
  else Raise ValueError.

(** [np.argmax(l)] on a 1-D array: the first position of the maximum. *)
Fixpoint argmax_from (best : nat) (bv : Q) (i : nat) (l : list Q) : nat :=
  match l with
  | [] => best
  | v :: l' =>
      if Qlt_le_dec bv v then argmax_from i v (S i) l'
      else argmax_from best bv (S i) l'
  end.

Definition argmax (l : list Q) : result nat :=
  match l with
  | [] => Raise ValueError
  | v :: l' => Ok (argmax_from 0 v 1 l')
  end.

(** [a.reshape(sh)] *)
Definition reshape {A} (a : ndarray A) (sh : list nat) : result (ndarray A) :=
  if decide (size sh = length (data a)) then Ok (mk sh (data a))
  else Raise ValueError.

(** All index tuples of an array of shape [sh], in row-major order. *)
Fixpoint ndindex (sh : list nat) : list (list nat) :=
  match sh with
  | [] => [[]]
  | n :: sh' => i ← seq 0 n; cons i <$> ndindex sh'
  end.

(** Position of axis [m] in [axes]. *)
Definition axis_position (axes : list nat) (m : nat) : nat :=
  default 0%nat (fst <$> list_find (eq m) axes).

(** [np.transpose(a, axes)]: axis [n] of the result is axis [axes[n]]
    of [a], so the element of the result at [j] is the element of [a]
    at the [i] with [i[axes[n]] = j[n]]. *)
Definition transpose {A} (a : ndarray A) (axes : list nat) : result (ndarray A) :=
  let ndim := length (shape a) in
  if bool_decide (axes ≡ₚ seq 0 ndim) then
    let sh := (fun ax => default 0%nat (shape a !! ax)) <$> axes in
    let source (j : list nat) : list Z :=
      (fun m => Z.of_nat (default 0%nat (j !! axis_position axes m))) <$> seq 0 ndim in
    d ← mapM (fun j => item a (source j)) (ndindex sh);
    Ok (mk sh d)
  else Raise ValueError.

(** *** Binary files *)

Record file : Type := { content : list Z; pos : nat }.

Inductive dtype : Set := int32 | int64 | float32.

Definition itemsize (dt : dtype) : nat :=
  match dt with
  | int64 => 8
  | int32 | float32 => 4
  end.

Fixpoint le_unsigned (bytes : list Z) : Z :=
  match bytes with
  | [] => 0
  | b :: bs => b + 256 * le_unsigned bs
  end.

(** The two's-complement reading of a [bits]-bit pattern. *)
Definition wrap (bits : Z) (u : Z) : Z :=
  (u + 2 ^ (bits - 1)) mod 2 ^ bits - 2 ^ (bits - 1).

(** One little-endian item; a float32 is kept as its bit pattern. *)
Definition decode (dt : dtype) (bytes : list Z) : Z :=
  match dt with
  | int32 => wrap 32 (le_unsigned bytes)
  | int64 => wrap 64 (le_unsigned bytes)
  | float32 => le_unsigned bytes
  end.

Fixpoint chunks (sz n : nat) (bytes : list Z) : list (list Z) :=
  match n with
  | O => []
  | S n' => take sz bytes :: chunks sz n' (drop sz bytes)
  end.

(** [np.fromfile(wf, dtype=dt, count=count)]: the items that are
    completely there, at most [count] of them; the cursor moves over
    everything that was read. *)
Definition fromfile (wf : file) (dt : dtype) (count : nat) : ndarray Z * file :=
  let avail := drop (pos wf) (content wf) in
  let n := Nat.min count (length avail / itemsize dt) in
  (mk [n] (decode dt <$> chunks (itemsize dt) n avail),
   {| content := content wf;
      pos := Nat.min (pos wf + count * itemsize dt) (length (content wf)) |}).

(** [np.formfile]: numpy has no attribute of that name. *)
Definition formfile : result (ndarray Z) := Raise AttributeError.

End np.

(** ** preprocess.py: the label codec *)

(** The dict literal, in insertion order. *)
Definition CLASS_NAME_TO_INDEX : list (string * Z) :=
  [ ("aeroplane", 0); ("bicycle", 1); ("bird", 2); ("boat", 3);
    ("bottle", 4); ("bus", 5); ("car", 6); ("cat", 7); ("chair", 8);
    ("cow", 9); ("diningtable", 10); ("dog", 11); ("horse", 12);
    ("motorbike", 13); ("person", 14); ("pottedplant", 15); ("sheep", 16);
    ("sofa", 17); ("train", 18); ("tvmonitor", 19) ]%string.

Definition INDEX_TO_CLASS_NAME : list string := fst <$> CLASS_NAME_TO_INDEX.

(** [d[key]] on a dict given by its items. *)
Fixpoint dict_get {V} (d : list (string * V)) (key : string) : result V :=
  match d with
  | [] => Raise KeyError
  | (k, v) :: d' => if String.eqb k key then Ok v else dict_get d' key
  end.

Record image_size : Type :=
  { width : Z; height : Z; depth : Z }.

Record object : Type :=
  { name : string; bndbox_of : bndbox }.

Record label : Type :=
  { image_size_of : image_size; objects : list object }.

(** One iteration of the loop over [label['objects']]. *)
Definition preprocess_object (img_width img_height s : Z)
    (label_tensor : np.ndarray Q) (o : object) : result (np.ndarray Q) :=
  (* get object data *)
  class_index ← dict_get CLASS_NAME_TO_INDEX (name o);
  '(x, y, w, h, cell_x, cell_y) ← bndbox_to_coords (bndbox_of o) img_width img_height s;
  (* add the data to the tensor *)
  conf ← np.item label_tensor [cell_y; cell_x; 0];
  if Qeq_bool conf 0 then
    t ← np.setitem label_tensor [cell_y; cell_x; 0] 1%Q;
    t ← np.setslice t [cell_y; cell_x] 1 (Some 5%nat) [x; y; w; h];
    np.setitem t [cell_y; cell_x; 10 + class_index] 1%Q
  else Ok label_tensor.

Fixpoint preprocess_objects (img_width img_height s : Z)
    (label_tensor : np.ndarray Q) (objs : list object)
  : result (np.ndarray Q) :=
  match objs with
  | [] => Ok label_tensor
  | o :: objs' =>
      t ← preprocess_object img_width img_height s label_tensor o;
      preprocess_objects img_width img_height s t objs'
  end.

Definition preprocess_label (lbl : label) (s b c : Z) : result (np.ndarray Q) :=
  let img_width := width (image_size_of lbl) in
  let img_height := height (image_size_of lbl) in
  label_tensor ← np.zeros [s; s; b * 5 + c];
  preprocess_objects img_width img_height s label_tensor (objects lbl).

(** The body of the two nested loops of [tensor_to_label], for one cell. *)
Definition tensor_to_label_cell (label_tensor : np.ndarray Q)
    (img_width img_height : Z) (s : nat) (cell_y cell_x : nat)
    (objs : list object) : result (list object) :=
  let cy := Z.of_nat cell_y in
  let cx := Z.of_nat cell_x in
  conf ← np.item label_tensor [cy; cx; 0];
  if Qeq_bool conf 1 then
    (* get bounding box *)
    xywh ← np.getslice label_tensor [cy; cx] 1 (Some 5%nat);
    match xywh with
    | [x; y; w; h] =>
        '(xmin, xmax, ymin, ymax) ←
          coords_to_bndbox x y w h cx cy img_width img_height (Z.of_nat s);
        (* get class name *)
        onehot ← np.getslice label_tensor [cy; cx] 10 None;
        class_index ← np.argmax onehot;
        match INDEX_TO_CLASS_NAME !! class_index with
        | Some class_name =>
            (* add the object the objects list *)
            let obj := {| name := class_name;
                          bndbox_of := (inject_Z xmin, inject_Z xmax,
                                        inject_Z ymin, inject_Z ymax) |} in
            Ok (objs ++ [obj])
        | None => Raise IndexError
        end
    | _ => Raise ValueError
    end
  else Ok objs.

Fixpoint tensor_to_label_row (label_tensor : np.ndarray Q)
    (img_width img_height : Z) (s : nat) (cell_y : nat) (cell_xs : list nat)
    (objs : list object) : result (list object) :=
  match cell_xs with
  | [] => Ok objs
  | cell_x :: rest =>
      objs' ← tensor_to_label_cell label_tensor img_width img_height s cell_y cell_x objs;
      tensor_to_label_row label_tensor img_width img_height s cell_y rest objs'
  end.

Fixpoint tensor_to_label_rows (label_tensor : np.ndarray Q)
    (img_width img_height : Z) (s : nat) (cell_ys : list nat)
    (objs : list object) : result (list object) :=
  match cell_ys with
  | [] => Ok objs
  | cell_y :: rest =>
      objs' ← tensor_to_label_row label_tensor img_width img_height s cell_y (seq 0 s) objs;
      tensor_to_label_rows label_tensor img_width img_height s rest objs'
  end.

Definition tensor_to_label (label_tensor : np.ndarray Q)
    (img_width img_height img_depth : Z) : result label :=
  (* get grid size *)
  match np.shape label_tensor with
  | [] => Raise IndexError
  | s :: _ =>
      objs ← tensor_to_label_rows label_tensor img_width img_height s (seq 0 s) [];
      Ok {| image_size_of := {| depth := img_depth; width := img_width; height := img_height |};
            objects := objs |}
  end.

(** ** Python strings and literals

    Strings are sequences of ASCII characters. *)

Module PyStr.

Local Open Scope char_scope.

(** [c.isspace()] *)
Definition is_space (c : ascii) : bool :=
  let n := N_of_ascii c in
  ((9 <=? n) && (n <=? 13) || (28 <=? n) && (n <=? 32))%N.

Definition is_digit (c : ascii) : bool :=
  let n := N_of_ascii c in ((48 <=? n) && (n <=? 57))%N.

Definition digit_value (c : ascii) : Z := Z.of_N (N_of_ascii c) - 48.

Definition lower (c : ascii) : ascii :=
  let n := N_of_ascii c in
  if ((65 <=? n) && (n <=? 90))%N then ascii_of_N (n + 32) else c.

Fixpoint lstrip (cs : list ascii) : list ascii :=
  match cs with
  | c :: cs' => if is_space c then lstrip cs' else cs
  | [] => []
  end.

(** [s.strip()] *)
Definition strip_chars (cs : list ascii) : list ascii :=
  rev (lstrip (rev (lstrip cs))).

Definition strip (s : string) : string :=
  string_of_list_ascii (strip_chars (list_ascii_of_string s)).

(** [s.startswith(c)] for a one-character prefix. *)
Definition startswith (s : string) (c : ascii) : bool :=
  match s with
  | String c' _ => Ascii.eqb c' c
  | EmptyString => false
  end.

(** [s[1:-1]] *)
Definition slice_1_m1 (s : string) : string :=
  string_of_list_ascii (removelast (drop 1 (list_ascii_of_string s))).

Fixpoint split_chars (sep : ascii) (cur : list ascii) (cs : list ascii)
  : list (list ascii) :=
  match cs with
  | [] => [rev cur]
  | c :: cs' =>
      if Ascii.eqb c sep then rev cur :: split_chars sep [] cs'
      else split_chars sep (c :: cur) cs'
  end.

(** [s.split(sep)] for a one-character separator. *)
Definition split (s : string) (sep : ascii) : list string :=
  string_of_list_ascii <$> split_chars sep [] (list_ascii_of_string s).

(** The rest of a [digitpart ::= digit (["_"] digit)*] whose first
    digits have value [acc]; returns the value, the number of digits
    read and the unread input. *)
Fixpoint digits_from (acc : Z) (n : nat) (cs : list ascii)
  : Z * nat * list ascii :=
  match cs with
  | c :: cs' =>
      if is_digit c then digits_from (10 * acc + digit_value c) (S n) cs'
      else if Ascii.eqb c "_" then
        match cs' with
        | c2 :: cs'' =>
            if is_digit c2
            then digits_from (10 * acc + digit_value c2) (S n) cs''
            else (acc, n, cs)
        | [] => (acc, n, cs)
        end
      else (acc, n, cs)
  | [] => (acc, n, [])
  end.

Definition digitpart (cs : list ascii) : option (Z * nat * list ascii) :=
  match cs with
  | c :: cs' => if is_digit c then Some (digits_from (digit_value c) 1 cs') else None
  | [] => None
  end.

(** An optional sign: [true] for "-". *)
Definition sign (cs : list ascii) : bool * list ascii :=
  match cs with
  | c :: cs' =>
      if Ascii.eqb c "-" then (true, cs')
      else if Ascii.eqb c "+" then (false, cs')
      else (false, cs)
  | [] => (false, [])
  end.

Definition signed (neg : bool) (z : Z) : Z := if neg then - z else z.

(** [int(s)] in base 10; [None] stands for [ValueError]. *)
Definition int (s : string) : option Z :=
  let '(neg, cs) := sign (strip_chars (list_ascii_of_string s)) in
  match digitpart cs with
  | Some (v, _, []) => Some (signed neg v)
  | _ => None
  end.

(** Python floats as parsed from text: the finite ones by their exact
    decimal value. *)
Inductive float : Type :=
  | finite (q : Q)
  | inf (negative : bool)
  | nan.

(** [exponent ::= ("e" | "E") [sign] digitpart], absent when the input
    is exhausted. *)
Definition exponent (cs : list ascii) : option Z :=
  match cs with
  | [] => Some 0
  | c :: cs' =>
      if Ascii.eqb (lower c) "e" then
        let '(neg, cs'') := sign cs' in
        match digitpart cs'' with
        | Some (v, _, []) => Some (signed neg v)
        | _ => None
        end
      else None
  end.

Definition decimal (neg : bool) (ip fp : Z) (fn : nat) (e : Z) : float :=
  finite (Qred (inject_Z (signed neg (ip * 10 ^ Z.of_nat fn + fp))
                * 10 ^ (e - Z.of_nat fn))%Q).

(** [number ::= [digitpart] "." digitpart | digitpart ["."]], followed
    by an optional exponent. *)
Definition floatnumber (neg : bool) (cs : list ascii) : option float :=
  match digitpart cs with
  | Some (ip, _, rest) =>
      match rest with
      | "." :: rest' =>
          match digitpart rest' with
          | Some (fp, fn, rest'') => decimal neg ip fp fn <$> exponent rest''
          | None => decimal neg ip 0 0 <$> exponent rest'
          end
      | _ => decimal neg ip 0 0 <$> exponent rest
      end
  | None =>
      match cs with
      | "." :: rest' =>
          match digitpart rest' with
          | Some (fp, fn, rest'') => decimal neg 0 fp fn <$> exponent rest''
          | None => None
          end
      | _ => None
      end
  end.

(** [float(s)]; [None] stands for [ValueError]. *)
Definition float_of_str (s : string) : option float :=
  let '(neg, cs) := sign (strip_chars (list_ascii_of_string s)) in
  let word := string_of_list_ascii (lower <$> cs) in
  if String.eqb word "inf" || String.eqb word "infinity" then Some (inf neg)
  else if String.eqb word "nan" then Some nan
  else floatnumber neg cs.

End PyStr.

(** ** yolo.py: the config parser *)

Inductive scalar : Type :=
  | Int (z : Z)
  | Float (f : PyStr.float)
  | Str (s : string).

(** What a key of a section holds: one coerced token, or the list of
    them. *)
Inductive value : Type :=
  | Scalar (v : scalar)
  | List (vs : list scalar).

(** A dict by its items, in insertion order. *)
Definition dict (V : Type) : Type := list (string * V).

(** [d[key] = v] *)
Fixpoint dict_set {V} (d : dict V) (key : string) (v : V) : dict V :=
  match d with
  | [] => [(key, v)]
  | (k, v') :: d' =>
      if String.eqb k key then (k, v) :: d' else (k, v') :: dict_set d' key v
  end.

(** The [try: int ... except ValueError: try: float ... except: pass]
    chain applied to one token. *)
Definition parse_value (tok : string) : scalar :=
  match PyStr.int tok with
  | Some z => Int z
  | None =>
      match PyStr.float_of_str tok with
      | Some f => Float f
      | None => Str tok   (* string value *)
      end
  end.

(** The state of the scan.  Every section dict lives in [heap]; [cfg]
    holds, per block, its name and the address of its dict, and
    [current_section] is the address the variable of that name is bound
    to, if it is bound at all.  The dict appended to [cfg] and the one
    bound to [current_section] are the same object. *)
Record parser_state : Type :=
  { cfg : list (string * nat);
    heap : list (dict value);
    current_section : option nat }.

Definition parse_line (st : parser_state) (line : string) : result parser_state :=
  let line := PyStr.strip line in
  (* skip empty lines and comments *)
  if String.eqb line "" || PyStr.startswith line "#" then Ok st
  (* the start of a new section *)
  else if PyStr.startswith line "[" then
    let section_name := PyStr.slice_1_m1 line in
    let addr := length (heap st) in
    Ok {| cfg := cfg st ++ [(section_name, addr)];
          heap := heap st ++ [[]];
          current_section := Some addr |}
  else
    match PyStr.strip <$> PyStr.split line "=" with
    | [key; values] =>
        let values := PyStr.strip <$> PyStr.split values "," in
        (* parse the value *)
        let values := parse_value <$> values in
        let values :=
          match values with
          | [v] => Scalar v
          | _ => List values
          end in
        match current_section st with
        | Some addr =>
            Ok {| cfg := cfg st;
                  heap := alter (fun d => dict_set d key values) addr (heap st);
                  current_section := current_section st |}
        | None => Raise UnboundLocalError
        end
    | _ => Raise ValueError
    end.

Fixpoint parse_lines (st : parser_state) (lines : list string)
  : result parser_state :=
  match lines with
  | [] => Ok st
  | line :: rest => st' ← parse_line st line; parse_lines st' rest
  end.

(** [parse_cfg], on the lines of the file at [filepath]. *)
Definition parse_cfg (lines : list string) : result (list (string * dict value)) :=
  st ← parse_lines {| cfg := []; heap := []; current_section := None |} lines;
  Ok ((fun '(section_name, addr) => (section_name, default [] (heap st !! addr)))
        <$> cfg st).

(** ** yolo.py: the layers the weight loader touches

    The layer graph is built and owned by Keras.  Of a layer the model
    keeps what the loader reads and writes: the hyperparameters that fix
    the shapes of its weights, and the weights once they have been set
    ([None] until then: the initial values are Keras's business). *)

Module keras.

Record Conv2D : Type :=
  { filters : nat;
    kernel_size : nat * nat;
    input_channels : nat;          (* input_shape[3] *)
    use_bias : bool;
    conv_weights : option (list (np.ndarray Z)) }.

Record BatchNormalization : Type :=
  { features : nat;
    bn_weights : option (list (np.ndarray Z)) }.

Inductive layer : Type :=
  | conv2d (l : Conv2D)
  | batchnorm (l : BatchNormalization).

(** Shapes of the weights of a layer, in the order [set_weights]
    expects them. *)
Definition weight_shapes (l : layer) : list (list nat) :=
  match l with
  | conv2d c =>
      [fst (kernel_size c); snd (kernel_size c); input_channels c; filters c]
      :: (if use_bias c then [[filters c]] else [])
  | batchnorm b => [[features b]; [features b]; [features b]; [features b]]
  end.

(** [layer.set_weights(ws)] *)
Definition set_weights (l : layer) (ws : list (np.ndarray Z)) : result layer :=
  if decide (np.shape <$> ws = weight_shapes l) then
    Ok match l with
       | conv2d c =>
           conv2d {| filters := filters c; kernel_size := kernel_size c;
                     input_channels := input_channels c; use_bias := use_bias c;
                     conv_weights := Some ws |}
       | batchnorm b =>
           batchnorm {| features := features b; bn_weights := Some ws |}
       end
  else Raise ValueError.

(** [model.get_layer(name)] *)
Definition get_layer (model : gmap string layer) (layer_name : string)
  : result layer :=
  match model !! layer_name with
  | Some l => Ok l
  | None => Raise ValueError
  end.

End keras.

(** [section[key] == n] for an integer [n]. *)
Definition value_eq_int (v : value) (n : Z) : bool :=
  match v with
  | Scalar (Int z) => z =? n
  | Scalar (Float (PyStr.finite q)) => Qeq_bool q (inject_Z n)
  | _ => false
  end.

(** [try: section['batch_normalize'] == 1 except: False] *)
Definition batch_normalize_of (section : dict value) : bool :=
  match dict_get section "batch_normalize" with
  | Ok v => value_eq_int v 1
  | Raise _ => false
  end.

(** [add_conv_or_local] of [create_model_from_cfg], as far as the layers
    with weights go.  [input_channels] is what Keras infers for the input
    of the new layer. *)
Definition add_conv_or_local (model : gmap string keras.layer)
    (block_index : nat) (input_channels : nat) (is_conv : bool)
    (section : dict value) : result (gmap string keras.layer) :=
  filters ← dict_get section "filters";
  kernel_size ← dict_get section "size";
  _ ← dict_get section "stride";
  (* add padding *)
  _ ← dict_get section "pad";
  (* check batch norm *)
  let batch_normalize := batch_normalize_of section in
  let use_bias := negb batch_normalize in
  match filters, kernel_size with
  | Scalar (Int filters), Scalar (Int kernel_size) =>
      if (0 <? filters) && (0 <? kernel_size) then
        (* add the 2d convolution or locally connected layer *)
        let model :=
          if is_conv then
            <[ "conv_" +:+ pretty block_index :=
               keras.conv2d
                 {| keras.filters := Z.to_nat filters;
                    keras.kernel_size := (Z.to_nat kernel_size, Z.to_nat kernel_size);
                    keras.input_channels := input_channels;
                    keras.use_bias := use_bias;
                    keras.conv_weights := None |} ]> model
          else model in
        (* add batch norm layer *)
        let model :=
          if batch_normalize then
            <[ "batchnorm_" +:+ pretty block_index :=
               keras.batchnorm
                 {| keras.features := Z.to_nat filters;
                    keras.bn_weights := None |} ]> model
          else model in
        (* add the activation *)
        _ ← dict_get section "activation";
        Ok model
      else Raise ValueError
  | _, _ => Raise ValueError
  end.

(** ** yolo.py: the weight loader *)

(** parse the header *)
Definition parse_header (wf : np.file) : result np.file :=
  let '(header, wf) := np.fromfile wf np.int32 3 in
  match np.data header with
  | [major; minor; revision] =>
      let seen_dtype :=
        if (2 <=? np.wrap 64 (np.wrap 64 (major * 1) + minor))
           && (major <? 1000) && (minor <? 1000)
        then np.int64 else np.int32 in
      let '(seen, wf) := np.fromfile wf seen_dtype 1 in
      Ok wf
  | _ => Raise ValueError
  end.

(** The four batch-norm vectors of a block, read and written. *)
Definition load_batchnorm (model : gmap string keras.layer) (wf : np.file)
    (block_index filters : nat) : result (gmap string keras.layer * np.file) :=
  (* darknet batch norm weights are stored as [beta, gamma, running_mean, running_variance] *)
  let '(bn_beta, wf) := np.fromfile wf np.float32 filters in
  let '(bn_gamma, wf) := np.fromfile wf np.float32 filters in
  let '(bn_running_mean, wf) := np.fromfile wf np.float32 filters in
  let '(bn_running_variance, wf) := np.fromfile wf np.float32 filters in
  (* Keras BatchNormalization weights should be set as [gamma, beta, running_mean, running_variance] *)
  let layer_name := "batchnorm_" +:+ pretty block_index in
  bn_layer ← keras.get_layer model layer_name;
  bn_layer ← keras.set_weights bn_layer
               [bn_gamma; bn_beta; bn_running_mean; bn_running_variance];
  Ok (<[layer_name := bn_layer]> model, wf).

Definition load_convolutional (model : gmap string keras.layer) (wf : np.file)
    (block_index : nat) (section : dict value)
  : result (gmap string keras.layer * np.file) :=
  let layer_name := "conv_" +:+ pretty block_index in
  conv2d_layer ← keras.get_layer model layer_name;
  match conv2d_layer with
  | keras.conv2d c =>
      (* layer hyperparameters *)
      let filters := keras.filters c in
      let kernel_size := keras.kernel_size c in
      let input_channels := keras.input_channels c in
      let use_bias := keras.use_bias c in
      let batch_normalize := batch_normalize_of section in
      (* load batch norm parameters *)
      '(model, wf) ←
        (if batch_normalize then load_batchnorm model wf block_index filters
         else Ok (model, wf));
      (* load conv2d biases *)
      conv2d_bias ← (if use_bias then Some <$> np.formfile else Ok None);
      (* load conv2d kernel weights *)
      let darnet_kernel_shape :=
        [filters; input_channels; fst kernel_size; snd kernel_size] in
      let '(flat, wf) := np.fromfile wf np.float32 (np.size darnet_kernel_shape) in
      darnet_kernel_weights ← np.reshape flat darnet_kernel_shape;
      (* Keras Conv2D kernel weights have the shape
         (kernel_size[0], kernel_size[1], input_channels, filters) *)
      conv2d_kernel_weights ← np.transpose darnet_kernel_weights [2; 3; 1; 0]%nat;
      (* set the layer weights *)
      let conv2d_weights :=
        [conv2d_kernel_weights] ++ (if use_bias then option_list conv2d_bias else []) in
      conv2d_layer ← keras.set_weights conv2d_layer conv2d_weights;
      Ok (<[layer_name := conv2d_layer]> model, wf)
  | _ => Raise AttributeError
  end.

Definition load_block (model : gmap string keras.layer) (wf : np.file)
    (block_index : nat) (block : string * dict value)
  : result (gmap string keras.layer * np.file) :=
  let '(block_name, section) := block in
  if String.eqb block_name "convolutional"
  then load_convolutional model wf block_index section
  else (* 'local', 'connected': TODO in the source; everything else: nothing *)
    Ok (model, wf).

Fixpoint load_blocks (model : gmap string keras.layer) (wf : np.file)
    (block_index : nat) (blocks : list (string * dict value))
  : result (gmap string keras.layer * np.file) :=
  match blocks with
  | [] => Ok (model, wf)
  | block :: rest =>
      '(model, wf) ← load_block model wf block_index block;
      load_blocks model wf (S block_index) rest
  end.

(** The [with open(weights_file, 'rb') as wf] block of
    [load_pretrained_darknet]. *)
Definition load_weights (cfg : list (string * dict value))
    (model : gmap string keras.layer) (weights : list Z)
  : result (gmap string keras.layer * np.file) :=
  wf ← parse_header {| np.content := weights; np.pos := 0 |};
  (* load the weights *)
  load_blocks model wf 1 (drop 1 cfg).

Section LoadPretrainedDarknet.

(** The layer graph Keras builds from the parsed config. *)
Variable create_model_from_cfg :
  list (string * dict value) → result (gmap string keras.layer).

Definition load_pretrained_darknet (cfg_file : list string)
    (weights_file : list Z) : result (gmap string keras.layer) :=
  (* create the model *)
  cfg ← parse_cfg cfg_file;
  model ← create_model_from_cfg cfg;
  (* load the model weights *)
  fst <$> load_weights cfg model weights_file.

End LoadPretrainedDarknet.

(** ** Vocabulary of the statements *)

(** The centre of [lo, hi] in grid units: [(lo + hi) / 2 / dim * s]. *)
Definition grid_center (lo hi : Q) (dim s : Z) : Q :=
  ((lo + hi) / 2 / inject_Z dim * inject_Z s)%Q.

(** The extent of [lo, hi] in grid units: [(hi - lo) / dim * s]. *)
Definition grid_extent (lo hi : Q) (dim s : Z) : Q :=
  ((hi - lo) / inject_Z dim * inject_Z s)%Q.

(** A decoded pixel coordinate [z] is within one pixel of [q]. *)
Definition within_1 (z : Z) (q : Q) : Prop :=
  (q - 1 <= inject_Z z <= q + 1)%Q.

(** The box lies inside an image of the given size. *)
Definition box_in_image (box : bndbox) (img_width img_height : Z) : Prop :=
  let '(xmin, xmax, ymin, ymax) := box in
  (0 <= xmin /\ xmin <= xmax /\ xmax <= inject_Z img_width /\
   0 <= ymin /\ ymin <= ymax /\ ymax <= inject_Z img_height)%Q.

(** Offset of the element [i, j, k] in an array of shape [n; n; d]. *)
Definition off3 (n d i j k : nat) : nat := (i * n + j) * d + k.

(** The data of an [n] x [n] x [d] tensor after an object with
    coordinates [x, y, w, h] and class channel [kc] has claimed cell
    [(i, j)]. *)
Definition claim_cell (n d : nat) (data : list Q) (i j kc : nat)
    (x y w h : Q) : list Q :=
  <[off3 n d i j kc := 1%Q]>
    (<[off3 n d i j 4%nat := h]> (<[off3 n d i j 3%nat := w]>
       (<[off3 n d i j 2%nat := y]> (<[off3 n d i j 1%nat := x]>
          (<[off3 n d i j 0%nat := 1%Q]> data))))).

(** The grid cell, as (row, column), whose confidence channel
    [preprocess_object] tests for [o]. *)
Definition cell_of (img_width img_height s : Z) (o : object) : result (nat * nat) :=
  '(_, _, _, _, cell_x, cell_y) ← bndbox_to_coords (bndbox_of o) img_width img_height s;
  i ← np.index (Z.to_nat s) cell_y;
  j ← np.index (Z.to_nat s) cell_x;
  Ok (i, j).

Definition in_cell (img_width img_height s : Z) (c : nat * nat) (o : object) : bool :=
  match cell_of img_width img_height s o with
  | Ok c' => bool_decide (c' = c)
  | Raise _ => false
  end.

(** What [preprocess_object] writes for [o] into channel [k] of a cell
    it claims. *)
Definition channel_of (img_width img_height s : Z) (o : object) (k : nat) : Q :=
  match dict_get CLASS_NAME_TO_INDEX (name o),
        bndbox_to_coords (bndbox_of o) img_width img_height s with
  | Ok class_index, Ok (x, y, w, h, _, _) =>
      if decide (Z.of_nat k = 10 + class_index) then 1%Q
      else match k with
           | 0%nat => 1%Q
           | 1%nat => x
           | 2%nat => y
           | 3%nat => w
           | 4%nat => h
           | _ => 0%Q
           end
  | _, _ => 0%Q
  end.

(** The content of channel [k] of cell [c] once [objs] have been
    processed: that of the first object of [objs] that lies in [c]. *)
Definition expected (img_width img_height s : Z) (objs : list object)
    (c : nat * nat) (k : nat) : Q :=
  match find (in_cell img_width img_height s c) objs with
  | Some o => channel_of img_width img_height s o k
  | None => 0%Q
  end.

(** [t] is the [n] x [n] x [d] tensor that holds [objs]. *)
Definition encodes (img_width img_height s : Z) (n d : nat)
    (objs : list object) (t : np.ndarray Q) : Prop :=
  np.shape t = [n; n; d] /\
  length (np.data t) = (n * n * d)%nat /\
  (forall c o, find (in_cell img_width img_height s c) objs = Some o ->
     exists class_index,
       dict_get CLASS_NAME_TO_INDEX (name o) = Ok class_index /\
       (10 + class_index < Z.of_nat d)%Z) /\
  forall i j k, (i < n)%nat -> (j < n)%nat -> (k < d)%nat ->
    np.data t !! off3 n d i j k = Some (expected img_width img_height s objs (i, j) k).

(** What [tensor_to_label] makes of an encoded object: its name, and its
    box with every coordinate rounded. *)
Definition decode_object (o : object) : object :=
  let '(xmin, xmax, ymin, ymax) := bndbox_of o in
  {| name := name o;
     bndbox_of := (inject_Z (Py.round xmin), inject_Z (Py.round xmax),
                   inject_Z (Py.round ymin), inject_Z (Py.round ymax)) |}.

(** [o'] has the name of [o] and, within one pixel per coordinate, its
    box. *)
Definition same_object (o o' : object) : Prop :=
  name o' = name o /\
  let '(xmin, xmax, ymin, ymax) := bndbox_of o in
  exists xmin' xmax' ymin' ymax' : Z,
    bndbox_of o' = (inject_Z xmin', inject_Z xmax', inject_Z ymin', inject_Z ymax') /\
    within_1 xmin' xmin /\ within_1 xmax' xmax /\
    within_1 ymin' ymin /\ within_1 ymax' ymax.

(** The objects [tensor_to_label] reads off the cells of a tensor that
    holds [objs], cell by cell in row-major order. *)
Definition found_objects (img_width img_height s : Z) (objs : list object)
  : list object :=
  i ← seq 0 (Z.to_nat s); j ← seq 0 (Z.to_nat s);
  option_list (find (in_cell img_width img_height s (i, j)) objs).

(** How [parse_line] reads a line: skipped (blank or comment), block
    header, or key/value line. *)
Definition is_skipped (line : string) : bool :=
  let line := PyStr.strip line in
  String.eqb line "" || PyStr.startswith line "#".

Definition is_header (line : string) : bool :=
  negb (is_skipped line) && PyStr.startswith (PyStr.strip line) "[".

Definition is_key_value (line : string) : bool :=
  negb (is_skipped line) && negb (PyStr.startswith (PyStr.strip line) "[").

(** Number of occurrences of [c] in [s]. *)
Definition count_char (c : ascii) (s : string) : nat :=
  count_occ ascii_dec (list_ascii_of_string s) c.

(** The value stored for the coerced tokens of a line. *)
Definition pack_values (values : list scalar) : value :=
  match values with
  | [v] => Scalar v
  | _ => List values
  end.

(** In a state of the scan, [current_section] is bound to the dict of
    the block appended last, and every block has its dict. *)
Definition parser_state_ok (st : parser_state) : Prop :=
  current_section st = snd <$> last (cfg st) /\
  Forall (fun block => (snd block < length (heap st))%nat) (cfg st).

(** The [count] items of type [dt] that start at byte [pos] of a file. *)
Definition items_at (content : list Z) (dt : np.dtype) (pos count : nat) : list Z :=
  np.decode dt <$> np.chunks (np.itemsize dt) count (drop pos content).

(** The width in bytes of the seen counter after a header with the
    given version numbers. *)
Definition seen_width (major minor : Z) : nat :=
  if (2 <=? major * 1 + minor) && (major <? 1000) && (minor <? 1000)
  then 8%nat else 4%nat.

(** The number a finite float32 bit pattern stands for. *)
Definition float32_value (bits : Z) : option Q :=
  let sign := if bits / 2 ^ 31 =? 0 then 1%Q else (-1)%Q in
  let e := (bits / 2 ^ 23) mod 256 in
  let m := bits mod 2 ^ 23 in
  if e =? 255 then None
  else if e =? 0 then Some (Qred (sign * inject_Z m * 2 ^ (-149)))%Q
  else Some (Qred (sign * inject_Z (2 ^ 23 + m) * 2 ^ (e - 150)))%Q.

(** The little-endian bytes of a 32-bit pattern. *)
Definition le_bytes32 (bits : Z) : list Z :=
  [bits mod 256; (bits / 2 ^ 8) mod 256; (bits / 2 ^ 16) mod 256; (bits / 2 ^ 24) mod 256].

(** Row-major offset of the index tuple [idx] in an array of shape [sh]. *)
Fixpoint offset (sh idx : list nat) : nat :=
  match sh, idx with
  | _ :: sh', i :: idx' => (i * np.size sh' + offset sh' idx')%nat
  | _, _ => 0%nat
  end.

(** The [k]-th of the consecutive float32 vectors of length [filters]
    that start at byte [pos]. *)
Definition vector_at (content : list Z) (pos filters k : nat) : np.ndarray Z :=
  np.mk [filters] (items_at content np.float32 (pos + 4 * filters * k) filters).

(** The kernel as it lies in the file at byte [pos]: shape
    [(filters, input_channels, kernel_h, kernel_w)]. *)
Definition darknet_kernel_at (content : list Z) (pos : nat) (c : keras.Conv2D)
  : np.ndarray Z :=
  let sh := [keras.filters c; keras.input_channels c;
             fst (keras.kernel_size c); snd (keras.kernel_size c)] in
  np.mk sh (items_at content np.float32 pos (np.size sh)).

(** The bytes of a convolutional block with batch normalisation. *)
Definition bn_block_bytes (c : keras.Conv2D) : nat :=
  16 * keras.filters c
  + 4 * np.size [keras.filters c; keras.input_channels c;
                 fst (keras.kernel_size c); snd (keras.kernel_size c)].

(** The centre of the box lies strictly left of the right edge and
    strictly above the bottom edge of the image. *)
Definition center_inside (box : bndbox) (img_width img_height : Z) : Prop :=
  let '(xmin, xmax, ymin, ymax) := box in
  (xmin + xmax < 2 * inject_Z img_width /\ ymin + ymax < 2 * inject_Z img_height)%Q.

(** The cells of an [s] x [s] grid, as (row, column), in the order
    [tensor_to_label] visits them. *)
Definition cells (s : nat) : list (nat * nat) :=
  cell_y ← seq 0 s; cell_x ← seq 0 s; [(cell_y, cell_x)].

(** The confidence channel of the cell holds exactly 1. *)
Definition confident (label_tensor : np.ndarray Q) (cell : nat * nat) : bool :=
  match np.item label_tensor [Z.of_nat cell.1; Z.of_nat cell.2; 0] with
  | Ok conf => Qeq_bool conf 1
  | Raise _ => false
  end.

(** [o] is what [tensor_to_label] reads off the cell: the box that
    [coords_to_bndbox] makes of channels 1 to 4, and the class name at
    the first maximum of the channels from 10 on. *)
Definition decoded_from (label_tensor : np.ndarray Q) (img_width img_height : Z)
    (s : nat) (cell : nat * nat) (o : object) : Prop :=
  let cell_y := Z.of_nat cell.1 in
  let cell_x := Z.of_nat cell.2 in
  exists (x y w h : Q) (xmin xmax ymin ymax : Z) (onehot : list Q) (class_index : nat),
    np.getslice label_tensor [cell_y; cell_x] 1 (Some 5%nat) = Ok [x; y; w; h] /\
    coords_to_bndbox x y w h cell_x cell_y img_width img_height (Z.of_nat s)
    = Ok (xmin, xmax, ymin, ymax) /\
    np.getslice label_tensor [cell_y; cell_x] 10 None = Ok onehot /\
    np.argmax onehot = Ok class_index /\
    INDEX_TO_CLASS_NAME !! class_index = Some (name o) /\
    bndbox_of o = (inject_Z xmin, inject_Z xmax, inject_Z ymin, inject_Z ymax).

(** The lines [parse_cfg] accepts: every key/value line holds exactly
    one '=' and comes after a block header ([opened] tells whether a
    header has been seen). *)
Fixpoint well_formed (opened : bool) (lines : list string) : bool :=
  match lines with
  | [] => true
  | line :: rest =>
      if is_skipped line then well_formed opened rest
      else if is_header line then well_formed true rest
      else opened && (count_char "=" (PyStr.strip line) =? 1)%nat
           && well_formed opened rest
  end.

(** The names of the blocks of a config, one per header line. *)
Definition block_names (lines : list string) : list string :=
  (fun line => PyStr.slice_1_m1 (PyStr.strip line)) <$> List.filter is_header lines.

(** In a state of the scan the blocks have the addresses 0, 1, ... in
    the order of their headers: no two blocks share a dict. *)
Definition parser_state_fresh (st : parser_state) : Prop :=
  snd <$> cfg st = seq 0 (length (heap st)).

(** A layer without its weights: what Keras was told when the layer was
    made. *)
Definition layer_config (l : keras.layer) : keras.layer :=
  match l with
  | keras.conv2d c =>
      keras.conv2d {| keras.filters := keras.filters c;
                      keras.kernel_size := keras.kernel_size c;
                      keras.input_channels := keras.input_channels c;
                      keras.use_bias := keras.use_bias c;
                      keras.conv_weights := None |}
  | keras.batchnorm b =>
      keras.batchnorm {| keras.features := keras.features b; keras.bn_weights := None |}
  end.

(** The bytes the blocks from [block_index] on take in the weight file
    when every convolutional block has batch normalisation. *)
Fixpoint weights_bytes (model : gmap string keras.layer) (block_index : nat)
    (blocks : list (string * dict value)) : nat :=
  match blocks with
  | [] => 0
  | (block_name, _) :: rest =>
      (if String.eqb block_name "convolutional" then
         match model !! ("conv_" +:+ pretty block_index) with
         | Some (keras.conv2d c) => bn_block_bytes c
         | _ => 0
         end
       else 0)
      + weights_bytes model (S block_index) rest
  end%nat.

(** The layers of block [block_index] are as [create_model_from_cfg]
    makes them for a convolutional block with [batch_normalize=1]: a
    convolution without bias and a batch normalisation of as many
    features as the convolution has filters. *)
Definition batchnorm_block (model : gmap string keras.layer) (block_index : nat)
    (section : dict value) : Prop :=
  batch_normalize_of section = true /\
  exists (c : keras.Conv2D) (bn : keras.BatchNormalization),
    model !! ("conv_" +:+ pretty block_index) = Some (keras.conv2d c) /\
    keras.use_bias c = false /\
    model !! ("batchnorm_" +:+ pretty block_index) = Some (keras.batchnorm bn) /\
    keras.features bn = keras.filters c.

(** The layers the loader writes into for the blocks from [block_index]
    on: those of the convolutional blocks. *)
Fixpoint loaded_layers (block_index : nat) (blocks : list (string * dict value))
  : list string :=
  match blocks with
  | [] => []
  | (block_name, _) :: rest =>
      (if String.eqb block_name "convolutional"
       then [("batchnorm_" +:+ pretty block_index)%string;
             ("conv_" +:+ pretty block_index)%string]
       else [])
      ++ loaded_layers (S block_index) rest
  end.

(** What one step of the loader leaves as it is. *)
Definition step_preserves (names : list string)
    (model : gmap string keras.layer) (wf : np.file)
    (model' : gmap string keras.layer) (wf' : np.file) : Prop :=
  np.content wf' = np.content wf /\
  ((np.pos wf <= length (np.content wf))%nat ->
   (np.pos wf <= np.pos wf' <= length (np.content wf))%nat) /\
  (forall layer_name,
     layer_config <$> model' !! layer_name = layer_config <$> model !! layer_name) /\
  (forall layer_name, layer_name ∉ names -> model' !! layer_name = model !! layer_name).

(** * Properties *)

(** ** The exception monad *)

Lemma bind_Ok {A B} (a : A) (f : A -> result B) : (Ok a ≫= f) = f a.
Proof. reflexivity. Qed.

Lemma bind_Raise {A B} (e : exn) (f : A -> result B) : (Raise e ≫= f) = Raise e.
Proof. reflexivity. Qed.

Lemma bind_Ok_inv {A B} (m : result A) (f : A -> result B) (b : B) :
  (m ≫= f) = Ok b -> exists a, m = Ok a /\ f a = Ok b.
Proof. destruct m as [a|e]; [eauto | discriminate]. Qed.

Ltac bind_ok := rewrite bind_Ok; cbv beta.

(** ** Python numbers *)

Section PyNumbers.

Local Open Scope Q_scope.

Lemma truediv_Ok (a b : Q) : ~ b == 0 -> Py.truediv a b = Ok (a / b).
Proof.
  intros Hb. unfold Py.truediv.
  destruct (Qeq_bool b 0) eqn:E; [|reflexivity].
  apply Qeq_bool_iff in E. contradiction.
Qed.

Lemma truediv_2 (a : Q) : Py.truediv a 2 = Ok (a / 2).
Proof. reflexivity. Qed.

Lemma truediv_Z (a : Q) (n : Z) : n <> 0%Z -> Py.truediv a (inject_Z n) = Ok (a / inject_Z n).
Proof.
  intros Hn. apply truediv_Ok. intros E.
  apply Hn. unfold Qeq in E. simpl in E. lia.
Qed.

Lemma int_floor (x : Q) : 0 <= x -> Py.int x = Qfloor x.
Proof.
  destruct x as [n d]. unfold Qle, Py.int, Qfloor. simpl. intros Hn.
  apply Z.quot_div_nonneg; lia.
Qed.

Lemma round_near (x : Q) :
  x - (1 # 2) <= inject_Z (Py.round x) <= x + (1 # 2).
Proof.
  pose proof (Qfloor_le x) as Hlo. pose proof (Qlt_floor x) as Hhi.
  rewrite inject_Z_plus in Hhi. change (inject_Z 1) with 1 in Hhi.
  unfold Py.round.
  destruct (x - inject_Z (Qfloor x) ?= 1 # 2) eqn:E.
  - apply Qeq_alt in E.
    destruct (Z.even (Qfloor x)); rewrite ?inject_Z_plus;
      change (inject_Z 1) with 1; lra.
  - apply Qlt_alt in E. lra.
  - apply Qgt_alt in E. rewrite inject_Z_plus.
    change (inject_Z 1) with 1. lra.
Qed.

Lemma round_comp (x y : Q) : x == y -> Py.round x = Py.round y.
Proof.
  intros E. unfold Py.round.
  rewrite (Qfloor_comp _ _ E).
  assert (E' : (x - inject_Z (Qfloor y) ?= 1 # 2) = (y - inject_Z (Qfloor y) ?= 1 # 2))
    by (rewrite E; reflexivity).
  rewrite E'. reflexivity.
Qed.

Lemma round_inject_Z (z : Z) : Py.round (inject_Z z) = z.
Proof.
  unfold Py.round. rewrite Qfloor_Z.
  assert (E : (inject_Z z - inject_Z z ?= 1 # 2) = Lt).
  { apply (proj1 (Qlt_alt _ _)). generalize (inject_Z z). intros q. lra. }
  rewrite E. reflexivity.
Qed.

End PyNumbers.

(** ** The grid codec *)

Section GridCodec.

Local Open Scope Q_scope.

Variables (img_width img_height s : Z).
Hypothesis width_pos : (0 < img_width)%Z.
Hypothesis height_pos : (0 < img_height)%Z.

Lemma bndbox_to_coords_Ok (xmin xmax ymin ymax : Q) :
  let cx := grid_center xmin xmax img_width s in
  let cy := grid_center ymin ymax img_height s in
  bndbox_to_coords (xmin, xmax, ymin, ymax) img_width img_height s
  = Ok (cx - inject_Z (Py.int cx), cy - inject_Z (Py.int cy),
        grid_extent xmin xmax img_width s, grid_extent ymin ymax img_height s,
        Py.int cx, Py.int cy).
Proof.
  unfold bndbox_to_coords, grid_center, grid_extent.
  repeat (rewrite ?truediv_2, ?truediv_Z by lia; bind_ok). reflexivity.
Qed.

(** The centre of an interval inside [0, dim], in grid units, lies in
    [0, s], and left of [s] exactly when it is left of [dim] in pixels. *)
Lemma grid_center_range (lo hi : Q) (dim : Z) :
  (0 < dim)%Z -> (1 <= s)%Z -> 0 <= lo -> lo <= hi -> hi <= inject_Z dim ->
  0 <= grid_center lo hi dim s <= inject_Z s /\
  (grid_center lo hi dim s < inject_Z s <-> lo + hi < 2 * inject_Z dim).
Proof.
  intros Hdim Hs Hlo Hlh Hhi. unfold grid_center.
  assert (Hd : 0 < inject_Z dim) by (change 0 with (inject_Z 0); rewrite <- Zlt_Qlt; exact Hdim).
  assert (Hs' : 1 <= inject_Z s) by (change 1 with (inject_Z 1); rewrite <- Zle_Qle; exact Hs).
  set (u := (lo + hi) / 2 / inject_Z dim).
  assert (Hu : 2 * (u * inject_Z dim) == lo + hi).
  { unfold u. field. lra. }
  clearbody u. revert Hd Hs' Hhi Hu. generalize (inject_Z dim) (inject_Z s).
  intros D S Hd Hs' Hhi Hu.
  assert (Hu0 : 0 <= u).
  { destruct (Qlt_le_dec u 0) as [Hn|]; [|assumption].
    assert (u * D < 0) by nra. lra. }
  assert (Hu1 : u <= 1).
  { destruct (Qlt_le_dec 1 u) as [Hn|]; [|assumption].
    assert (D < u * D) by nra. lra. }
  assert (Hu2 : u < 1 <-> lo + hi < 2 * D).
  { split; intros.
    - assert (u * D < D) by nra. lra.
    - destruct (Qlt_le_dec u 1) as [|Hn]; [assumption|].
      assert (D <= u * D) by nra. lra. }
  rewrite <- Hu2. repeat split; nra.
Qed.

Lemma floor_grid_center (lo hi : Q) (dim : Z) :
  (0 < dim)%Z -> (1 <= s)%Z -> 0 <= lo -> lo <= hi -> hi <= inject_Z dim ->
  let c := grid_center lo hi dim s in
  Py.int c = Qfloor c /\
  0 <= c - inject_Z (Py.int c) /\ c - inject_Z (Py.int c) < 1 /\
  (0 <= Py.int c <= s)%Z /\
  ((Py.int c < s)%Z <-> lo + hi < 2 * inject_Z dim).
Proof.
  intros Hdim Hs Hlo Hlh Hhi c.
  destruct (grid_center_range lo hi dim Hdim Hs Hlo Hlh Hhi) as [[Hc0 Hc1] Hc2].
  fold c in Hc0, Hc1, Hc2.
  rewrite (int_floor c Hc0).
  pose proof (Qfloor_le c) as Hf1. pose proof (Qlt_floor c) as Hf2.
  rewrite inject_Z_plus in Hf2. change (inject_Z 1) with 1 in Hf2.
  assert (Hf0 : (0 <= Qfloor c)%Z).
  { change 0%Z with (Qfloor 0). apply Qfloor_resp_le. exact Hc0. }
  assert (Hfs : (Qfloor c <= s)%Z).
  { rewrite <- (Qfloor_Z s). apply Qfloor_resp_le. exact Hc1. }
  split; [reflexivity|]. split; [lra|]. split; [lra|]. split; [lia|].
  rewrite <- Hc2. split.
  - intros Hlt.
    assert (Hle : (Qfloor c + 1 <= s)%Z) by lia.
    rewrite Zle_Qle, inject_Z_plus in Hle. change (inject_Z 1) with 1 in Hle.
    lra.
  - intros Hlt. rewrite Zlt_Qlt. lra.
Qed.


Lemma coords_to_bndbox_Ok (x y w h : Q) (cell_x cell_y : Z) :
  s <> 0%Z ->
  let px := (x + inject_Z cell_x) * inject_Z img_width / inject_Z s in
  let py := (y + inject_Z cell_y) * inject_Z img_height / inject_Z s in
  let pw := w * inject_Z img_width / inject_Z s in
  let ph := h * inject_Z img_height / inject_Z s in
  coords_to_bndbox x y w h cell_x cell_y img_width img_height s
  = Ok (Py.round (px - pw / 2), Py.round (px + pw / 2),
        Py.round (py - ph / 2), Py.round (py + ph / 2)).
Proof.
  intros Hs. unfold coords_to_bndbox.
  repeat (rewrite ?truediv_2, ?truediv_Z by lia; bind_ok). reflexivity.
Qed.

(** Decoding what [bndbox_to_coords] produced rounds the original
    coordinates. *)
Lemma coords_roundtrip_round (xmin xmax ymin ymax : Q) :
  s <> 0%Z ->
  exists x y w h cell_x cell_y,
    bndbox_to_coords (xmin, xmax, ymin, ymax) img_width img_height s
    = Ok (x, y, w, h, cell_x, cell_y) /\
    coords_to_bndbox x y w h cell_x cell_y img_width img_height s
    = Ok (Py.round xmin, Py.round xmax, Py.round ymin, Py.round ymax).
Proof.
  intros Hs. do 6 eexists. split; [apply bndbox_to_coords_Ok|].
  rewrite coords_to_bndbox_Ok by exact Hs. cbv zeta.
  unfold grid_center, grid_extent.
  assert (HW : ~ inject_Z img_width == 0).
  { intros E. unfold Qeq in E. simpl in E. lia. }
  assert (HH : ~ inject_Z img_height == 0).
  { intros E. unfold Qeq in E. simpl in E. lia. }
  assert (HS : ~ inject_Z s == 0).
  { intros E. unfold Qeq in E. simpl in E. lia. }
  repeat match goal with
         | |- Ok _ = Ok _ => f_equal
         | |- (_, _) = (_, _) => f_equal
         | |- Py.round _ = Py.round _ => apply round_comp; field; auto
         end.
Qed.

Lemma round_within_1 (q : Q) : within_1 (Py.round q) q.
Proof. unfold within_1. pose proof (round_near q). lra. Qed.

End GridCodec.





(** ** numpy arrays of rank 3 *)

Section Rank3.

Local Open Scope nat_scope.

Lemma mix_lt (a b m n : nat) : a < m -> b < n -> a * n + b < m * n.
Proof.
  intros Ha Hb.
  assert (H : S a * n <= m * n) by (apply Nat.mul_le_mono_r; lia).
  simpl in H. lia.
Qed.

Lemma mix_inj (a b a' b' n : nat) :
  b < n -> b' < n -> a * n + b = a' * n + b' -> a = a' /\ b = b'.
Proof.
  intros Hb Hb' E.
  destruct (Nat.lt_trichotomy a a') as [Hlt|[->|Hlt]].
  - assert (H : S a * n <= a' * n) by (apply Nat.mul_le_mono_r; lia).
    simpl in H. lia.
  - lia.
  - assert (H : S a' * n <= a * n) by (apply Nat.mul_le_mono_r; lia).
    simpl in H. lia.
Qed.

Lemma off3_lt n d i j k : i < n -> j < n -> k < d -> off3 n d i j k < n * n * d.
Proof. unfold off3. intros. apply mix_lt; [apply mix_lt|]; assumption. Qed.

Lemma off3_inj n d i j k i' j' k' :
  j < n -> k < d -> j' < n -> k' < d ->
  off3 n d i j k = off3 n d i' j' k' -> i = i' /\ j = j' /\ k = k'.
Proof.
  unfold off3. intros Hj Hk Hj' Hk' E.
  apply mix_inj in E as [E ->]; [|assumption..].
  apply mix_inj in E as [-> ->]; auto.
Qed.

Lemma index_Ok_inv (n : nat) (z : Z) (i : nat) :
  np.index n z = Ok i ->
  i < n /\ (z = Z.of_nat i \/ (z < 0)%Z /\ z = (Z.of_nat i - Z.of_nat n)%Z).
Proof.
  unfold np.index. intros H.
  destruct ((0 <=? z)%Z && (z <? Z.of_nat n)%Z) eqn:E1.
  - injection H as <-. lia.
  - destruct ((- Z.of_nat n <=? z)%Z && (z <? 0)%Z) eqn:E2; [|discriminate].
    injection H as <-. lia.
Qed.

Lemma index_Ok_nonneg (n : nat) (z : Z) (i : nat) :
  (0 <= z)%Z -> np.index n z = Ok i -> z = Z.of_nat i /\ i < n.
Proof. intros Hz H. apply index_Ok_inv in H. lia. Qed.

Lemma index_of_nat (n i : nat) : i < n -> np.index n (Z.of_nat i) = Ok i.
Proof.
  intros Hi. unfold np.index.
  destruct ((0 <=? Z.of_nat i)%Z && (Z.of_nat i <? Z.of_nat n)%Z) eqn:E; [|lia].
  f_equal. lia.
Qed.

Lemma index_Raise_nonneg (n : nat) (z : Z) :
  (Z.of_nat n <= z)%Z -> np.index n z = Raise IndexError.
Proof.
  intros Hz. unfold np.index.
  destruct ((0 <=? z)%Z && (z <? Z.of_nat n)%Z) eqn:E1; [lia|].
  destruct ((- Z.of_nat n <=? z)%Z && (z <? 0)%Z) eqn:E2; [lia|]. reflexivity.
Qed.

Lemma ravel3_Ok (n d : nat) (zi zj zk : Z) (i j k : nat) :
  np.index n zi = Ok i -> np.index n zj = Ok j -> np.index d zk = Ok k ->
  np.ravel [n; n; d] [zi; zj; zk] = Ok (off3 n d i j k).
Proof.
  intros Hi Hj Hk. simpl. rewrite Hi, Hj, Hk. simpl.
  f_equal. unfold off3. lia.
Qed.

Lemma ravel3_inv (n d : nat) (zi zj zk : Z) (o : nat) :
  np.ravel [n; n; d] [zi; zj; zk] = Ok o ->
  exists i j k, np.index n zi = Ok i /\ np.index n zj = Ok j /\
                np.index d zk = Ok k /\ o = off3 n d i j k.
Proof.
  simpl. intros H.
  destruct (np.index n zi) as [i|] eqn:Hi; [|discriminate].
  destruct (np.index n zj) as [j|] eqn:Hj; [|discriminate].
  destruct (np.index d zk) as [k|] eqn:Hk; [|discriminate].
  simpl in H. injection H as <-.
  exists i, j, k. repeat split. unfold off3. lia.
Qed.

Lemma ravel2_Ok (n : nat) (zi zj : Z) (i j : nat) :
  np.index n zi = Ok i -> np.index n zj = Ok j ->
  exists o, np.ravel [n; n] [zi; zj] = Ok o.
Proof. intros Hi Hj. simpl. rewrite Hi, Hj. simpl. eauto. Qed.

End Rank3.

Section Rank3Arrays.

Local Open Scope nat_scope.

Context {A : Type}.
Variables (n d : nat).

Lemma item3_inv (t : np.ndarray A) (shape_t : np.shape t = [n; n; d])
    (zi zj zk : Z) (v : A) :
  np.item t [zi; zj; zk] = Ok v ->
  exists i j k, np.index n zi = Ok i /\ np.index n zj = Ok j /\
                np.index d zk = Ok k /\
                np.data t !! off3 n d i j k = Some v.
Proof.
  unfold np.item. rewrite shape_t. intros H.
  apply bind_Ok_inv in H as (o & Ho & H).
  apply ravel3_inv in Ho as (i & j & k & Hi & Hj & Hk & ->).
  exists i, j, k. repeat split; try assumption.
  destruct (np.data t !! off3 n d i j k); [congruence | discriminate].
Qed.

Lemma item3_Ok (t : np.ndarray A) (shape_t : np.shape t = [n; n; d])
    (zi zj zk : Z) (i j k : nat) (v : A) :
  np.index n zi = Ok i -> np.index n zj = Ok j -> np.index d zk = Ok k ->
  np.data t !! off3 n d i j k = Some v ->
  np.item t [zi; zj; zk] = Ok v.
Proof.
  intros Hi Hj Hk Hv. unfold np.item. rewrite shape_t.
  rewrite (ravel3_Ok n d zi zj zk i j k Hi Hj Hk). bind_ok.
  rewrite Hv. reflexivity.
Qed.

Lemma setitem3_Ok (t : np.ndarray A) (shape_t : np.shape t = [n; n; d])
    (zi zj zk : Z) (i j k : nat) (v : A) :
  np.index n zi = Ok i -> np.index n zj = Ok j -> np.index d zk = Ok k ->
  np.setitem t [zi; zj; zk] v
  = Ok (np.mk [n; n; d] (<[off3 n d i j k := v]> (np.data t))).
Proof.
  intros Hi Hj Hk. unfold np.setitem. rewrite shape_t.
  rewrite (ravel3_Ok n d zi zj zk i j k Hi Hj Hk). reflexivity.
Qed.

Lemma items3_Ok (t : np.ndarray A) (shape_t : np.shape t = [n; n; d])
    (zi zj : Z) (i j : nat) (f : nat -> A) (ks : list nat) :
  np.index n zi = Ok i -> np.index n zj = Ok j ->
  (forall k, k < d -> np.data t !! off3 n d i j k = Some (f k)) ->
  Forall (fun k => k < d) ks ->
  np.items t [zi; zj] ks = Ok (f <$> ks).
Proof.
  intros Hi Hj Hf. induction 1 as [|k ks Hk _ IH]; [reflexivity|].
  simpl.
  rewrite (item3_Ok t shape_t zi zj (Z.of_nat k) i j k (f k) Hi Hj (index_of_nat d k Hk) (Hf k Hk)).
  bind_ok. rewrite IH. reflexivity.
Qed.

Lemma getslice3_Ok (t : np.ndarray A) (shape_t : np.shape t = [n; n; d])
    (zi zj : Z) (i j : nat) (f : nat -> A) (lo : nat) (hi : option nat) :
  np.index n zi = Ok i -> np.index n zj = Ok j ->
  (forall k, k < d -> np.data t !! off3 n d i j k = Some (f k)) ->
  np.getslice t [zi; zj] lo hi
  = Ok (f <$> seq (Nat.min lo d) (Nat.min (default d hi) d - Nat.min lo d)).
Proof.
  intros Hi Hj Hf. unfold np.getslice. rewrite shape_t.
  change (np.last_axis [n; n; d]) with (Ok (A:=nat) d). bind_ok.
  change (removelast [n; n; d]) with [n; n].
  destruct (ravel2_Ok n zi zj i j Hi Hj) as [o ->]. bind_ok.
  unfold np.slice_bounds.
  apply (items3_Ok t shape_t zi zj i j f _ Hi Hj Hf).
  apply Forall_forall. intros k Hk. apply list_elem_of_In, in_seq in Hk. lia.
Qed.

Lemma setslice3_1_5 (t : np.ndarray A) (shape_t : np.shape t = [n; n; d])
    (zi zj : Z) (i j : nat) (x y w h : A) :
  np.index n zi = Ok i -> np.index n zj = Ok j ->
  np.setslice t [zi; zj] 1 (Some 5) [x; y; w; h]
  = if decide (5 <= d)
    then Ok (np.mk [n; n; d]
               (<[off3 n d i j 4 := h]> (<[off3 n d i j 3 := w]>
                  (<[off3 n d i j 2 := y]> (<[off3 n d i j 1 := x]> (np.data t))))))
    else Raise ValueError.
Proof.
  intros Hi Hj. unfold np.setslice. rewrite shape_t.
  change (np.last_axis [n; n; d]) with (Ok (A:=nat) d). bind_ok.
  change (removelast [n; n; d]) with [n; n].
  destruct (ravel2_Ok n zi zj i j Hi Hj) as [o ->]. bind_ok.
  unfold np.slice_bounds. simpl default. simpl length.
  destruct (decide (5 <= d)) as [Hd|Hd].
  - rewrite (Nat.min_l 1 d), (Nat.min_l 5 d) by lia.
    change (5 - 1) with 4.
    destruct (decide (4 = 4)) as [_|]; [|congruence].
    simpl.
    rewrite (setitem3_Ok t shape_t zi zj (Z.of_nat 1) i j 1 x Hi Hj (index_of_nat d 1 ltac:(lia))).
    bind_ok.
    rewrite (setitem3_Ok (np.mk [n; n; d] _) eq_refl zi zj (Z.of_nat 2) i j 2 y Hi Hj (index_of_nat d 2 ltac:(lia))).
    bind_ok.
    rewrite (setitem3_Ok (np.mk [n; n; d] _) eq_refl zi zj (Z.of_nat 3) i j 3 w Hi Hj (index_of_nat d 3 ltac:(lia))).
    bind_ok.
    rewrite (setitem3_Ok (np.mk [n; n; d] _) eq_refl zi zj (Z.of_nat 4) i j 4 h Hi Hj (index_of_nat d 4 ltac:(lia))).
    reflexivity.
  - destruct (decide (4 = Nat.min 5 d - Nat.min 1 d)) as [E|]; [lia|reflexivity].
Qed.

End Rank3Arrays.

(** ** The label codec *)

Lemma dict_get_cons {V} (k key : string) (v : V) (dct : list (string * V)) :
  dict_get ((k, v) :: dct) key = if String.eqb k key then Ok v else dict_get dct key.
Proof. reflexivity. Qed.

Lemma class_index_spec (class_name : string) (class_index : Z) :
  dict_get CLASS_NAME_TO_INDEX class_name = Ok class_index ->
  (0 <= class_index < 20)%Z /\
  INDEX_TO_CLASS_NAME !! Z.to_nat class_index = Some class_name.
Proof.
  unfold CLASS_NAME_TO_INDEX.
  repeat (rewrite dict_get_cons;
          destruct (String.eqb _ class_name) eqn:E;
          [apply String.eqb_eq in E; subst class_name; injection 1 as <-;
           split; [lia | reflexivity] | clear E]).
  discriminate.
Qed.

Lemma find_app {A} (f : A -> bool) (l1 l2 : list A) :
  find f (l1 ++ l2) = match find f l1 with
                      | Some a => Some a
                      | None => find f l2
                      end.
Proof.
  induction l1 as [|a l1 IH]; [reflexivity|].
  simpl. destruct (f a); [reflexivity | exact IH].
Qed.

Section LabelCodec.

Variables (img_width img_height s : Z) (d : nat).

Local Abbreviation n := (Z.to_nat s).
Local Abbreviation off := (off3 (Z.to_nat s) d).
Local Abbreviation claim := (claim_cell (Z.to_nat s) d).

(** [preprocess_object], evaluated. *)
Lemma preprocess_object_eval (t : np.ndarray Q) (o : object)
    (class_index : Z) (x y w h : Q) (cell_x cell_y : Z) (i j : nat) (conf : Q) :
  np.shape t = [n; n; d] ->
  dict_get CLASS_NAME_TO_INDEX (name o) = Ok class_index ->
  bndbox_to_coords (bndbox_of o) img_width img_height s
  = Ok (x, y, w, h, cell_x, cell_y) ->
  np.index n cell_y = Ok i -> np.index n cell_x = Ok j ->
  (0 < d)%nat ->
  np.data t !! off i j 0%nat = Some conf ->
  preprocess_object img_width img_height s t o
  = if Qeq_bool conf 0 then
      if decide (5 <= d)%nat then
        kc ← np.index d (10 + class_index);
        Ok (np.mk [n; n; d] (claim (np.data t) i j kc x y w h))
      else Raise ValueError
    else Ok t.
Proof.
  intros Hsh Hci Hco Hi Hj Hd Hconf. unfold preprocess_object.
  rewrite Hci. bind_ok. rewrite Hco. bind_ok.
  rewrite (item3_Ok n d t Hsh cell_y cell_x 0%Z i j 0%nat conf Hi Hj
             (index_of_nat d 0 Hd) Hconf).
  bind_ok. destruct (Qeq_bool conf 0); [|reflexivity].
  rewrite (setitem3_Ok n d t Hsh cell_y cell_x 0%Z i j 0%nat 1%Q Hi Hj
             (index_of_nat d 0 Hd)).
  bind_ok.
  rewrite (setslice3_1_5 n d (np.mk [n; n; d] _) eq_refl cell_y cell_x i j x y w h Hi Hj).
  destruct (decide (5 <= d)%nat) as [Hd5|]; [|reflexivity].
  bind_ok. unfold np.setitem. cbn [np.shape np.data].
  simpl np.ravel. rewrite Hi, Hj. bind_ok. bind_ok.
  destruct (np.index d (10 + class_index)) as [kc|e]; [|reflexivity].
  repeat bind_ok. unfold claim_cell. do 3 f_equal.
  unfold off3, np.size. simpl. lia.
Qed.

Lemma claim_cell_same (data : list Q) (i j kc k : nat) (x y w h : Q) :
  (i < n)%nat -> (j < n)%nat -> (kc < d)%nat -> (k < d)%nat -> (5 <= d)%nat ->
  length data = (n * n * d)%nat ->
  claim data i j kc x y w h !! off i j k
  = if decide (k = kc) then Some 1%Q
    else match k with
         | 0%nat => Some 1%Q
         | 1%nat => Some x
         | 2%nat => Some y
         | 3%nat => Some w
         | 4%nat => Some h
         | _ => data !! off i j k
         end.
Proof.
  intros Hi Hj Hkc Hk Hd Hlen. unfold claim_cell.
  assert (Hlt : forall k', (k' < d)%nat -> (off i j k' < length data)%nat).
  { intros k' Hk'. rewrite Hlen. apply off3_lt; assumption. }
  destruct (decide (k = kc)) as [->|Hne].
  { apply list_lookup_insert_eq. rewrite !length_insert. apply Hlt, Hkc. }
  rewrite list_lookup_insert_ne by (unfold off3; lia).
  destruct k as [|[|[|[|[|k]]]]];
    repeat first
      [ rewrite list_lookup_insert_ne by (unfold off3; lia)
      | rewrite list_lookup_insert_eq by (rewrite ?length_insert; apply Hlt; lia) ];
    reflexivity.
Qed.

Lemma claim_cell_other (data : list Q) (i j kc i' j' k' : nat) (x y w h : Q) :
  (j < n)%nat -> (kc < d)%nat -> (5 <= d)%nat ->
  (j' < n)%nat -> (k' < d)%nat -> (i, j) <> (i', j') ->
  claim data i j kc x y w h !! off i' j' k' = data !! off i' j' k'.
Proof.
  intros Hj Hkc Hd Hj' Hk' Hne. unfold claim_cell.
  assert (Hoff : forall k, (k < d)%nat -> off i j k <> off i' j' k').
  { intros k Hk E. apply off3_inj in E as (-> & -> & _); try assumption.
    apply Hne. reflexivity. }
  rewrite !list_lookup_insert_ne by (apply Hoff; lia). reflexivity.
Qed.

Lemma cell_of_Ok (o : object) (x y w h : Q) (cell_x cell_y : Z) (i j : nat) :
  bndbox_to_coords (bndbox_of o) img_width img_height s
  = Ok (x, y, w, h, cell_x, cell_y) ->
  np.index n cell_y = Ok i -> np.index n cell_x = Ok j ->
  cell_of img_width img_height s o = Ok (i, j).
Proof.
  intros Hco Hi Hj. unfold cell_of. rewrite Hco. bind_ok.
  rewrite Hi. bind_ok. rewrite Hj. reflexivity.
Qed.

Lemma cell_of_inv (o : object) (i j : nat) :
  cell_of img_width img_height s o = Ok (i, j) ->
  exists x y w h cell_x cell_y,
    bndbox_to_coords (bndbox_of o) img_width img_height s
    = Ok (x, y, w, h, cell_x, cell_y) /\
    np.index n cell_y = Ok i /\ np.index n cell_x = Ok j.
Proof.
  unfold cell_of. intros H.
  destruct (bndbox_to_coords _ _ _ _) as [[[[[[x y] w] h] cx] cy]|]; [|discriminate].
  rewrite bind_Ok in H. cbv beta iota in H.
  destruct (np.index n cy) as [i'|] eqn:Hi; [|discriminate]. rewrite bind_Ok in H.
  destruct (np.index n cx) as [j'|] eqn:Hj; [|discriminate]. rewrite bind_Ok in H.
  injection H as -> ->. exists x, y, w, h, cx, cy. auto.
Qed.

Lemma in_cell_true (c : nat * nat) (o : object) :
  in_cell img_width img_height s c o = true <-> cell_of img_width img_height s o = Ok c.
Proof.
  unfold in_cell. destruct (cell_of _ _ _ o) as [c'|e].
  - rewrite bool_decide_eq_true. split; congruence.
  - split; discriminate.
Qed.

Lemma channel_of_0 (o : object) (c : nat * nat) :
  is_Ok (dict_get CLASS_NAME_TO_INDEX (name o)) ->
  cell_of img_width img_height s o = Ok c ->
  channel_of img_width img_height s o 0 = 1%Q.
Proof.
  intros [ci Hci] Hc. destruct c as [i j].
  apply cell_of_inv in Hc as (x & y & w & h & cx & cy & Hco & _).
  unfold channel_of. rewrite Hci, Hco. destruct (decide _); reflexivity.
Qed.

Lemma find_in_cell_Some (objs : list object) (c : nat * nat) (o : object) :
  find (in_cell img_width img_height s c) objs = Some o ->
  o ∈ objs /\ cell_of img_width img_height s o = Ok c.
Proof.
  intros H. apply find_some in H as [Hin Hc].
  split; [apply list_elem_of_In, Hin | apply in_cell_true, Hc].
Qed.

Lemma expected_snoc (pre : list object) (o : object) (c : nat * nat) (k : nat) :
  expected img_width img_height s (pre ++ [o]) c k
  = match find (in_cell img_width img_height s c) pre with
    | Some o' => channel_of img_width img_height s o' k
    | None => if in_cell img_width img_height s c o
              then channel_of img_width img_height s o k else 0%Q
    end.
Proof.
  unfold expected. rewrite find_app.
  destruct (find _ pre); [reflexivity|].
  simpl. destruct (in_cell _ _ _ c o); reflexivity.
Qed.

(** What a successful [preprocess_object] has read on its way. *)
Lemma preprocess_object_Ok_inv (t t' : np.ndarray Q) (o : object) :
  np.shape t = [n; n; d] ->
  preprocess_object img_width img_height s t o = Ok t' ->
  exists class_index x y w h cell_x cell_y i j conf,
    dict_get CLASS_NAME_TO_INDEX (name o) = Ok class_index /\
    bndbox_to_coords (bndbox_of o) img_width img_height s
    = Ok (x, y, w, h, cell_x, cell_y) /\
    np.index n cell_y = Ok i /\ np.index n cell_x = Ok j /\
    (0 < d)%nat /\
    np.data t !! off i j 0%nat = Some conf.
Proof.
  intros Hsh H. unfold preprocess_object in H.
  destruct (dict_get _ _) as [ci|] eqn:Hci; [|discriminate].
  rewrite bind_Ok in H.
  destruct (bndbox_to_coords _ _ _ _) as [[[[[[x y] w] h] cx] cy]|] eqn:Hco;
    [|discriminate].
  rewrite bind_Ok in H. cbv beta iota in H.
  destruct (np.item t _) as [conf|] eqn:Hitem; [|discriminate].
  apply (item3_inv n d t Hsh) in Hitem as (i & j & k & Hi & Hj & Hk & Hconf).
  apply index_Ok_nonneg in Hk as [Hk0 Hkd]; [|lia].
  assert (k = 0%nat) as -> by lia.
  exists ci, x, y, w, h, cx, cy, i, j, conf. auto 10.
Qed.

(** One iteration of the loop keeps the tensor in step with the objects
    seen so far. *)
Lemma encodes_step (pre : list object) (t t' : np.ndarray Q) (o : object) :
  encodes img_width img_height s n d pre t ->
  preprocess_object img_width img_height s t o = Ok t' ->
  encodes img_width img_height s n d (pre ++ [o]) t'.
Proof.
  intros (Hsh & Hlen & Hfound & Hdata) H.
  destruct (preprocess_object_Ok_inv t t' o Hsh H)
    as (ci & x & y & w & h & cx & cy & i & j & conf
        & Hci & Hco & Hi & Hj & Hd & Hconf).
  rewrite (preprocess_object_eval t o ci x y w h cx cy i j conf
             Hsh Hci Hco Hi Hj Hd Hconf) in H.
  pose proof (cell_of_Ok o x y w h cx cy i j Hco Hi Hj) as Hcell.
  destruct (index_Ok_inv _ _ _ Hi) as [Hin _].
  destruct (index_Ok_inv _ _ _ Hj) as [Hjn _].
  rewrite (Hdata i j 0%nat Hin Hjn Hd) in Hconf. injection Hconf as Hconf.
  assert (Htaken : forall o', find (in_cell img_width img_height s (i, j)) pre = Some o' ->
                              Qeq_bool conf 0 = false).
  { intros o' Hf. unfold expected in Hconf. rewrite Hf in Hconf.
    destruct (Hfound _ _ Hf) as (ci' & Hci' & _).
    apply find_in_cell_Some in Hf as [_ Hc'].
    rewrite (channel_of_0 o' (i, j) (ex_intro _ ci' Hci') Hc') in Hconf.
    subst conf. reflexivity. }
  assert (Hfree : find (in_cell img_width img_height s (i, j)) pre = None ->
                  Qeq_bool conf 0 = true).
  { intros Hf. unfold expected in Hconf. rewrite Hf in Hconf.
    subst conf. reflexivity. }
  destruct (Qeq_bool conf 0) eqn:Hq.
  - (* the cell is free: the object claims it *)
    destruct (decide (5 <= d)%nat) as [Hd5|]; [|discriminate].
    destruct (np.index d (10 + ci)) as [kc|] eqn:Hkc; [|discriminate].
    rewrite bind_Ok in H. injection H as <-.
    destruct (class_index_spec _ _ Hci) as [Hrange _].
    apply index_Ok_nonneg in Hkc as [Hkc Hkcd]; [|lia].
    assert (Hnone : find (in_cell img_width img_height s (i, j)) pre = None).
    { destruct (find _ pre) as [o'|] eqn:Hf; [|reflexivity].
      discriminate (Htaken o' eq_refl). }
    split; [reflexivity|].
    split; [cbn [np.data]; unfold claim_cell; rewrite !length_insert; exact Hlen|].
    split.
    { intros c' o' Hf. rewrite find_app in Hf.
      destruct (find (in_cell img_width img_height s c') pre) as [o''|] eqn:Hf'.
      - injection Hf as <-. exact (Hfound _ _ Hf').
      - simpl in Hf. destruct (in_cell _ _ _ c' o); [|discriminate].
        injection Hf as <-. exists ci. split; [exact Hci | lia]. }
    intros i' j' k' Hi' Hj' Hk'. cbn [np.data].
    rewrite expected_snoc.
    destruct (decide ((i, j) = (i', j'))) as [E|Hne].
    + injection E as <- <-. rewrite Hnone.
      rewrite (proj2 (in_cell_true (i, j) o) Hcell).
      rewrite claim_cell_same by assumption.
      unfold channel_of. rewrite Hci, Hco.
      destruct (decide (k' = kc)) as [->|Hk'kc].
      * destruct (decide (Z.of_nat kc = 10 + ci)); [reflexivity|lia].
      * destruct (decide (Z.of_nat k' = 10 + ci)); [lia|].
        destruct k' as [|[|[|[|[|k']]]]]; try reflexivity.
        rewrite (Hdata i j _ Hin Hjn Hk'). unfold expected. rewrite Hnone.
        reflexivity.
    + rewrite claim_cell_other by assumption.
      rewrite (Hdata i' j' k' Hi' Hj' Hk'). unfold expected.
      destruct (find (in_cell img_width img_height s (i', j')) pre); [reflexivity|].
      destruct (in_cell _ _ _ (i', j') o) eqn:Hin'; [|reflexivity].
      apply in_cell_true in Hin'. congruence.
  - (* the cell is taken: the object is skipped *)
    injection H as <-.
    assert (Hskip : forall c', find (in_cell img_width img_height s c') pre = None ->
                               in_cell img_width img_height s c' o = false).
    { intros c' Hf. destruct (in_cell _ _ _ c' o) eqn:Hin'; [|reflexivity].
      apply in_cell_true in Hin'.
      assert (c' = (i, j)) as -> by congruence.
      discriminate (Hfree Hf). }
    split; [exact Hsh|]. split; [exact Hlen|].
    split.
    { intros c' o' Hf. rewrite find_app in Hf.
      destruct (find (in_cell img_width img_height s c') pre) as [o''|] eqn:Hf'.
      - injection Hf as <-. exact (Hfound _ _ Hf').
      - simpl in Hf. rewrite (Hskip c' Hf') in Hf. discriminate. }
    intros i' j' k' Hi' Hj' Hk'.
    rewrite (Hdata i' j' k' Hi' Hj' Hk'). f_equal.
    rewrite expected_snoc. unfold expected.
    destruct (find (in_cell img_width img_height s (i', j')) pre) as [o'|] eqn:Hf;
      [reflexivity|].
    rewrite (Hskip _ Hf). reflexivity.
Qed.

Lemma encodes_loop (objs pre : list object) (t t' : np.ndarray Q) :
  encodes img_width img_height s n d pre t ->
  preprocess_objects img_width img_height s t objs = Ok t' ->
  encodes img_width img_height s n d (pre ++ objs) t'.
Proof.
  revert pre t. induction objs as [|o objs IH]; intros pre t Henc H.
  - injection H as <-. rewrite app_nil_r. exact Henc.
  - simpl in H. apply bind_Ok_inv in H as (t1 & H1 & H).
    replace (pre ++ o :: objs) with ((pre ++ [o]) ++ objs)
      by (rewrite <- app_assoc; reflexivity).
    apply (IH _ t1); [|exact H].
    apply (encodes_step pre t); assumption.
Qed.

Lemma encodes_item (objs : list object) (t : np.ndarray Q) (i j k : nat) :
  encodes img_width img_height s n d objs t ->
  (i < n)%nat -> (j < n)%nat -> (k < d)%nat ->
  np.item t [Z.of_nat i; Z.of_nat j; Z.of_nat k]
  = Ok (expected img_width img_height s objs (i, j) k).
Proof.
  intros (Hsh & _ & _ & Hdata) Hi Hj Hk.
  apply (item3_Ok n d t Hsh _ _ _ i j k); auto using index_of_nat.
Qed.

(** The first object of [objs] in a cell is the one [find] returns. *)
Lemma find_first (pre post : list object) (o : object) (c : nat * nat) :
  cell_of img_width img_height s o = Ok c ->
  Forall (fun o' => cell_of img_width img_height s o' <> Ok c) pre ->
  find (in_cell img_width img_height s c) (pre ++ o :: post) = Some o.
Proof.
  intros Hc Hpre. rewrite find_app.
  destruct (find _ pre) as [o'|] eqn:Hf.
  - apply find_in_cell_Some in Hf as [Hin Hc'].
    rewrite Forall_forall in Hpre. destruct (Hpre o' Hin Hc').
  - simpl. rewrite (proj2 (in_cell_true c o) Hc). reflexivity.
Qed.

Lemma find_nobody (objs : list object) (c : nat * nat) :
  Forall (fun o' => cell_of img_width img_height s o' <> Ok c) objs ->
  find (in_cell img_width img_height s c) objs = None.
Proof.
  intros Hall. destruct (find _ objs) as [o'|] eqn:Hf; [|reflexivity].
  apply find_in_cell_Some in Hf as [Hin Hc'].
  rewrite Forall_forall in Hall. destruct (Hall o' Hin Hc').
Qed.

End LabelCodec.

Lemma zeros3_Ok (s dz : Z) :
  (0 <= s)%Z -> (0 <= dz)%Z ->
  np.zeros [s; s; dz]
  = Ok (np.mk [Z.to_nat s; Z.to_nat s; Z.to_nat dz]
          (replicate (Z.to_nat s * Z.to_nat s * Z.to_nat dz) 0%Q)).
Proof.
  intros Hs Hd. unfold np.zeros. simpl forallb.
  rewrite (proj2 (Z.leb_le 0 s) Hs), (proj2 (Z.leb_le 0 dz) Hd). simpl.
  do 3 f_equal. lia.
Qed.

Lemma zeros3_inv (s dz : Z) (t : np.ndarray Q) :
  np.zeros [s; s; dz] = Ok t -> (0 <= s)%Z /\ (0 <= dz)%Z.
Proof.
  unfold np.zeros. simpl forallb.
  destruct (Z.leb_spec 0 s); [|discriminate].
  destruct (Z.leb_spec 0 dz); [|discriminate]. auto.
Qed.

Lemma encodes_zeros (img_width img_height s : Z) (n d : nat) :
  encodes img_width img_height s n d [] (np.mk [n; n; d] (replicate (n * n * d) 0%Q)).
Proof.
  split; [reflexivity|]. split; [apply length_replicate|].
  split; [intros c o Hf; discriminate|].
  intros i j k Hi Hj Hk. cbn [np.data].
  apply lookup_replicate_2. apply off3_lt; assumption.
Qed.

Lemma preprocess_label_encodes (lbl : label) (s b c : Z) (t : np.ndarray Q) :
  preprocess_label lbl s b c = Ok t ->
  encodes (width (image_size_of lbl)) (height (image_size_of lbl)) s
    (Z.to_nat s) (Z.to_nat (b * 5 + c)) (objects lbl) t.
Proof.
  unfold preprocess_label. intros H.
  apply bind_Ok_inv in H as (t0 & H0 & H).
  destruct (zeros3_inv _ _ _ H0) as [Hs Hd].
  rewrite (zeros3_Ok _ _ Hs Hd) in H0. injection H0 as <-.
  apply (encodes_loop _ _ _ _ (objects lbl) [] _ t (encodes_zeros _ _ _ _ _) H).
Qed.

Lemma channel_of_second_slot (img_width img_height s : Z) (o : object) (k : nat) :
  (5 <= k < 10)%nat -> channel_of img_width img_height s o k = 0%Q.
Proof.
  intros Hk. unfold channel_of.
  destruct (dict_get _ _) as [ci|] eqn:Hci; [|reflexivity].
  destruct (bndbox_to_coords _ _ _ _) as [[[[[[x y] w] h] cx] cy]|]; [|reflexivity].
  destruct (class_index_spec _ _ Hci) as [Hrange _].
  destruct (decide _); [lia|].
  destruct k as [|[|[|[|[|k]]]]]; reflexivity || lia.
Qed.

(** C7: in the tensor [preprocess_label] returns, the confidence of a
    cell is exactly 0 or exactly 1; a cell holds the first object, in
    input order, that lies in it and nothing of a later one, which is
    skipped without an error; a cell no object lies in is zero; and
    channels 5 to 9 of every cell are zero. *)
Theorem preprocess_label_cells (lbl : label) (s b c : Z) (t : np.ndarray Q) :
  preprocess_label lbl s b c = Ok t ->
  let img_width := width (image_size_of lbl) in
  let img_height := height (image_size_of lbl) in
  let n := Z.to_nat s in
  let d := Z.to_nat (b * 5 + c) in
  np.shape t = [n; n; d] /\
  (forall i j : nat, (i < n)%nat -> (j < n)%nat -> (0 < d)%nat ->
     np.item t [Z.of_nat i; Z.of_nat j; 0] = Ok 0%Q \/
     np.item t [Z.of_nat i; Z.of_nat j; 0] = Ok 1%Q) /\
  (forall pre o post i j class_index x y w h cell_x cell_y,
     objects lbl = pre ++ o :: post ->
     cell_of img_width img_height s o = Ok (i, j) ->
     Forall (fun o' => cell_of img_width img_height s o' <> Ok (i, j)) pre ->
     dict_get CLASS_NAME_TO_INDEX (name o) = Ok class_index ->
     bndbox_to_coords (bndbox_of o) img_width img_height s
     = Ok (x, y, w, h, cell_x, cell_y) ->
     np.item t [Z.of_nat i; Z.of_nat j; 0] = Ok 1%Q /\
     np.getslice t [Z.of_nat i; Z.of_nat j] 1 (Some 5%nat) = Ok [x; y; w; h] /\
     np.item t [Z.of_nat i; Z.of_nat j; 10 + class_index] = Ok 1%Q /\
     forall k : nat, (5 <= k < d)%nat -> Z.of_nat k <> 10 + class_index ->
       np.item t [Z.of_nat i; Z.of_nat j; Z.of_nat k] = Ok 0%Q) /\
  (forall i j k : nat, (i < n)%nat -> (j < n)%nat -> (k < d)%nat ->
     Forall (fun o => cell_of img_width img_height s o <> Ok (i, j)) (objects lbl) ->
     np.item t [Z.of_nat i; Z.of_nat j; Z.of_nat k] = Ok 0%Q) /\
  (forall i j k : nat, (i < n)%nat -> (j < n)%nat -> (5 <= k < 10)%nat -> (k < d)%nat ->
     np.item t [Z.of_nat i; Z.of_nat j; Z.of_nat k] = Ok 0%Q) /\
  (forall (t1 : np.ndarray Q) (o : object) (i j : nat) (conf : Q),
     np.shape t1 = [n; n; d] ->
     is_Ok (dict_get CLASS_NAME_TO_INDEX (name o)) ->
     cell_of img_width img_height s o = Ok (i, j) ->
     np.item t1 [Z.of_nat i; Z.of_nat j; 0] = Ok conf ->
     ~ (conf == 0)%Q ->
     preprocess_object img_width img_height s t1 o = Ok t1).
Proof.
  intros Hok img_width img_height n d.
  pose proof (preprocess_label_encodes lbl s b c t Hok) as Henc.
  fold img_width img_height n d in Henc.
  pose proof Henc as (Hsh & Hlen & Hfound & Hdata).
  split; [exact Hsh|].
  split.
  { intros i j Hi Hj Hd.
    change 0%Z with (Z.of_nat 0).
    rewrite (encodes_item _ _ _ _ _ _ i j 0%nat Henc Hi Hj Hd). unfold expected.
    destruct (find _ (objects lbl)) as [o|] eqn:Hf; [right | left; reflexivity].
    destruct (Hfound _ _ Hf) as (ci & Hci & _).
    apply find_in_cell_Some in Hf as [_ Hc].
    rewrite (channel_of_0 _ _ _ o (i, j) (ex_intro _ ci Hci) Hc). reflexivity. }
  split.
  { intros pre o post i j ci x y w h cx cy Hobjs Hc Hpre Hci Hco.
    pose proof (find_first img_width img_height s pre post o (i, j) Hc Hpre) as Hf.
    rewrite <- Hobjs in Hf.
    destruct (Hfound _ _ Hf) as (ci' & Hci' & Hlt).
    assert (ci' = ci) as -> by congruence.
    destruct (class_index_spec _ _ Hci) as [Hrange _].
    destruct (cell_of_inv _ _ _ _ _ _ Hc)
      as (x' & y' & w' & h' & cx' & cy' & Hco' & Hi & Hj).
    destruct (index_Ok_inv _ _ _ Hi) as [Hin _].
    destruct (index_Ok_inv _ _ _ Hj) as [Hjn _].
    assert (Hch : forall k, (k < d)%nat ->
              np.data t !! off3 n d i j k
              = Some (if decide (Z.of_nat k = 10 + ci) then 1%Q
                      else match k with
                           | 0%nat => 1%Q
                           | 1%nat => x
                           | 2%nat => y
                           | 3%nat => w
                           | 4%nat => h
                           | _ => 0%Q
                           end)).
    { intros k Hk. rewrite (Hdata i j k Hin Hjn Hk). unfold expected.
      rewrite Hf. unfold channel_of. rewrite Hci, Hco. reflexivity. }
    assert (Hitem : forall k, (k < d)%nat ->
              np.item t [Z.of_nat i; Z.of_nat j; Z.of_nat k]
              = Ok (if decide (Z.of_nat k = 10 + ci) then 1%Q
                    else match k with
                         | 0%nat => 1%Q
                         | 1%nat => x
                         | 2%nat => y
                         | 3%nat => w
                         | 4%nat => h
                         | _ => 0%Q
                         end)).
    { intros k Hk.
      apply (item3_Ok n d t Hsh _ _ _ i j k); auto using index_of_nat. }
    split.
    { change 0%Z with (Z.of_nat 0).
      rewrite (Hitem 0%nat) by lia. destruct (decide _); [lia | reflexivity]. }
    split.
    { rewrite (getslice3_Ok n d t Hsh _ _ i j _ 1 (Some 5%nat)
                 (index_of_nat n i Hin) (index_of_nat n j Hjn) Hch).
      simpl default. rewrite (Nat.min_l 1 d), (Nat.min_l 5 d) by lia.
      simpl. repeat (destruct (decide _); [lia|]). reflexivity. }
    split.
    { replace (10 + ci) with (Z.of_nat (Z.to_nat (10 + ci))) at 1 by lia.
      rewrite Hitem by lia. destruct (decide _); [reflexivity | lia]. }
    intros k Hk Hne. rewrite Hitem by lia.
    destruct (decide _); [contradiction|].
    destruct k as [|[|[|[|[|k]]]]]; reflexivity || lia. }
  split.
  { intros i j k Hi Hj Hk Hnone.
    rewrite (encodes_item _ _ _ _ _ _ i j k Henc Hi Hj Hk). unfold expected.
    rewrite (find_nobody _ _ _ _ _ Hnone). reflexivity. }
  split.
  { intros i j k Hi Hj Hk Hkd.
    rewrite (encodes_item _ _ _ _ _ _ i j k Henc Hi Hj Hkd). unfold expected.
    destruct (find _ (objects lbl)); [|reflexivity].
    rewrite channel_of_second_slot by exact Hk. reflexivity. }
  intros t1 o i j conf Hsh1 [ci Hci] Hc Hitem Hconf.
  destruct (cell_of_inv _ _ _ _ _ _ Hc)
    as (x & y & w & h & cx & cy & Hco & Hi & Hj).
  apply (item3_inv n d t1 Hsh1) in Hitem as (i' & j' & k' & Hi' & Hj' & Hk' & Hv).
  change n with (Z.to_nat s) in Hi', Hj'.
  rewrite index_of_nat in Hi' by (apply index_Ok_inv in Hi; lia).
  rewrite index_of_nat in Hj' by (apply index_Ok_inv in Hj; lia).
  injection Hi' as <-. injection Hj' as <-.
  apply index_Ok_nonneg in Hk' as [Hk0 Hkd]; [|lia].
  assert (k' = 0%nat) as -> by lia.
  rewrite (preprocess_object_eval img_width img_height s d t1 o ci x y w h cx cy
             i j conf Hsh1 Hci Hco Hi Hj Hkd Hv).
  destruct (Qeq_bool conf 0) eqn:Hq; [|reflexivity].
  apply Qeq_bool_iff in Hq. contradiction.
Qed.

Lemma preprocess_label_cells_witness :
  let cat := {| name := "cat"; bndbox_of := (100, 200, 50, 150)%Q |} in
  let dog := {| name := "dog"; bndbox_of := (110, 200, 50, 150)%Q |} in
  let lbl := {| image_size_of := {| width := 400; height := 400; depth := 3 |};
                objects := [cat; dog] |} in
  exists t,
    preprocess_label lbl 7 2 20 = Ok t /\
    np.item t [1; 2; 0] = Ok 1%Q /\
    np.getslice t [1; 2] 1 (Some 5%nat)
    = Ok [500 # 800; 600 # 800; 700 # 400; 700 # 400]%Q /\
    np.item t [1; 2; 17] = Ok 1%Q /\
    np.item t [1; 2; 21] = Ok 0%Q.
Proof.
  intros cat dog lbl.
  destruct (preprocess_label lbl 7 2 20) as [t|e] eqn:E;
    [|vm_compute in E; discriminate].
  exists t. split; [reflexivity|].
  destruct (preprocess_label_cells lbl 7 2 20 t E) as (_ & _ & Hfirst & _).
  destruct (Hfirst [] cat [dog] 1%nat 2%nat 7
              (500 # 800)%Q (600 # 800)%Q (700 # 400)%Q (700 # 400)%Q 2 1
              eq_refl eq_refl (List.Forall_nil _) eq_refl eq_refl)
    as (H0 & H1 & H2 & H3).
  repeat split; try assumption.
  apply (H3 21%nat); simpl; lia.
Defined.

(** ** argmax of a one-hot vector *)

Lemma argmax_from_zeros (best i m : nat) (bv : Q) (l : list Q) :
  (0 <= bv)%Q ->
  np.argmax_from best bv i (replicate m 0%Q ++ l)
  = np.argmax_from best bv (i + m) l.
Proof.
  intros Hbv. revert i. induction m as [|m IH]; intros i.
  - simpl. f_equal. lia.
  - simpl. destruct (Qlt_le_dec bv 0) as [Hlt|_].
    + exfalso. apply (Qlt_not_le _ _ Hlt Hbv).
    + rewrite IH. f_equal. lia.
Qed.

Lemma argmax_onehot (a b : nat) :
  np.argmax (replicate a 0%Q ++ 1%Q :: replicate b 0%Q) = Ok a.
Proof.
  destruct a as [|a]; simpl.
  - f_equal. rewrite <- (app_nil_r (replicate b 0%Q)).
    rewrite argmax_from_zeros by discriminate. reflexivity.
  - f_equal. rewrite argmax_from_zeros by discriminate. simpl.
    rewrite <- (app_nil_r (replicate b 0%Q)).
    rewrite argmax_from_zeros by discriminate. reflexivity.
Qed.

Lemma fmap_const_replicate {A B} (f : A -> B) (v : B) (l : list A) :
  Forall (fun a => f a = v) l -> f <$> l = replicate (length l) v.
Proof.
  induction 1 as [|a l Ha _ IH]; [reflexivity|].
  simpl. rewrite Ha. f_equal. exact IH.
Qed.

Lemma onehot_slice (f : nat -> Q) (d kc : nat) :
  (10 <= kc < d)%nat ->
  f kc = 1%Q -> (forall k, (10 <= k)%nat -> k <> kc -> f k = 0%Q) ->
  f <$> seq 10 (d - 10)
  = replicate (kc - 10) 0%Q ++ 1%Q :: replicate (d - kc - 1) 0%Q.
Proof.
  intros Hkc H1 H0.
  replace (d - 10)%nat with ((kc - 10) + S (d - kc - 1))%nat by lia.
  rewrite seq_app, fmap_app.
  replace (10 + (kc - 10))%nat with kc by lia.
  rewrite <- cons_seq, fmap_cons, H1. f_equal; [|f_equal].
  - rewrite (fmap_const_replicate f 0%Q), length_seq; [reflexivity|].
    apply Forall_forall. intros k Hk.
    apply list_elem_of_In, in_seq in Hk. apply H0; lia.
  - rewrite (fmap_const_replicate f 0%Q), length_seq; [reflexivity|].
    apply Forall_forall. intros k Hk.
    apply list_elem_of_In, in_seq in Hk. apply H0; lia.
Qed.

(** ** Decoding an encoded tensor *)

Lemma truediv_zero (a : Q) : Py.truediv a (inject_Z 0) = Raise ZeroDivisionError.
Proof. reflexivity. Qed.

Lemma bndbox_to_coords_nonzero (box : bndbox) (img_width img_height s : Z) (r : coords) :
  bndbox_to_coords box img_width img_height s = Ok r ->
  img_width <> 0 /\ img_height <> 0.
Proof.
  destruct box as [[[xmin xmax] ymin] ymax]. intros H.
  split; intros ->; unfold bndbox_to_coords in H; rewrite !truediv_2 in H.
  - rewrite bind_Ok, !truediv_zero, bind_Raise in H. discriminate H.
  - rewrite bind_Ok in H.
    destruct (Py.truediv ((xmin + xmax) / 2) (inject_Z img_width));
      [|rewrite bind_Raise in H; discriminate H].
    rewrite !bind_Ok, !truediv_zero, bind_Raise in H. discriminate H.
Qed.

Lemma coords_to_bndbox_of_coords (img_width img_height s : Z)
    (xmin xmax ymin ymax x y w h : Q) (cell_x cell_y : Z) :
  (0 < img_width)%Z -> (0 < img_height)%Z -> s <> 0 ->
  bndbox_to_coords (xmin, xmax, ymin, ymax) img_width img_height s
  = Ok (x, y, w, h, cell_x, cell_y) ->
  coords_to_bndbox x y w h cell_x cell_y img_width img_height s
  = Ok (Py.round xmin, Py.round xmax, Py.round ymin, Py.round ymax).
Proof.
  intros HW HH Hs Hco.
  destruct (coords_roundtrip_round img_width img_height s HW HH xmin xmax ymin ymax Hs)
    as (x' & y' & w' & h' & cx' & cy' & E1 & E2).
  rewrite Hco in E1. injection E1 as <- <- <- <- <- <-. exact E2.
Qed.

Lemma fmap_bind_list {A B C} (f : B -> C) (g : A -> list B) (l : list A) :
  f <$> (l ≫= g) = l ≫= (fun a => f <$> g a).
Proof.
  induction l as [|a l IH]; [reflexivity|].
  csimpl. rewrite fmap_app, IH. reflexivity.
Qed.

Section Decode.

Variables (img_width img_height s : Z) (d : nat).
Variables (objs : list object) (t : np.ndarray Q).

Local Abbreviation n := (Z.to_nat s).

Hypothesis Henc : encodes img_width img_height s n d objs t.
Hypothesis Hd : (30 <= d)%nat.
Hypothesis Hs : (0 < s)%Z.
Hypothesis Hboxes : Forall (fun o => box_in_image (bndbox_of o) img_width img_height) objs.

Lemma tensor_to_label_cell_spec (i j : nat) (acc : list object) :
  (i < n)%nat -> (j < n)%nat ->
  tensor_to_label_cell t img_width img_height n i j acc
  = Ok (acc ++ option_list
                 (decode_object <$> find (in_cell img_width img_height s (i, j)) objs)).
Proof.
  intros Hi Hj. destruct Henc as (Hsh & Hlen & Hfound & Hdata).
  unfold tensor_to_label_cell.
  change (np.item t [Z.of_nat i; Z.of_nat j; 0])
    with (np.item t [Z.of_nat i; Z.of_nat j; Z.of_nat 0]).
  rewrite (encodes_item _ _ _ _ _ _ i j 0%nat Henc Hi Hj) by lia.
  bind_ok. unfold expected at 1.
  destruct (find (in_cell img_width img_height s (i, j)) objs) as [o|] eqn:Hf.
  - destruct (Hfound _ _ Hf) as (ci & Hci & Hlt).
    pose proof Hf as Hf'. apply find_in_cell_Some in Hf' as [Hin Hc].
    destruct (cell_of_inv _ _ _ _ _ _ Hc)
      as (x & y & w & h & cx & cy & Hco & Hcy & Hcx).
    destruct (class_index_spec _ _ Hci) as [Hrange Hname].
    rewrite Forall_forall in Hboxes. pose proof (Hboxes o Hin) as Hbox.
    destruct (bndbox_of o) as [[[xmin xmax] ymin] ymax] eqn:Ebox.
    destruct Hbox as (Hx0 & Hx1 & Hx2 & Hy0 & Hy1 & Hy2).
    destruct (bndbox_to_coords_nonzero _ _ _ _ _ Hco) as [HW0 HH0].
    assert (HW : (0 < img_width)%Z).
    { assert (H : (inject_Z 0 <= inject_Z img_width)%Q)
        by (change (inject_Z 0) with 0%Q; lra).
      rewrite <- (Zle_Qle 0 img_width) in H. lia. }
    assert (HH : (0 < img_height)%Z).
    { assert (H : (inject_Z 0 <= inject_Z img_height)%Q)
        by (change (inject_Z 0) with 0%Q; lra).
      rewrite <- (Zle_Qle 0 img_height) in H. lia. }
    (* the cell indices are those of the loop *)
    pose proof (bndbox_to_coords_Ok img_width img_height s HW HH xmin xmax ymin ymax) as Hco'.
    cbv zeta in Hco'. rewrite Hco in Hco'. injection Hco' as Ex Ey Ew Eh Ecx Ecy.
    destruct (floor_grid_center s xmin xmax img_width HW ltac:(lia) Hx0 Hx1 Hx2)
      as (_ & _ & _ & [Hcx0 _] & _).
    destruct (floor_grid_center s ymin ymax img_height HH ltac:(lia) Hy0 Hy1 Hy2)
      as (_ & _ & _ & [Hcy0 _] & _).
    rewrite <- Ecx in Hcx0. rewrite <- Ecy in Hcy0.
    apply index_Ok_nonneg in Hcx as [Hcx _]; [|exact Hcx0].
    apply index_Ok_nonneg in Hcy as [Hcy _]; [|exact Hcy0].
    (* confidence *)
    rewrite (channel_of_0 _ _ _ o (i, j) (ex_intro _ ci Hci) Hc).
    change (Qeq_bool 1 1) with true. cbv iota.
    (* the box *)
    assert (Hch : forall k, (k < d)%nat ->
              np.data t !! off3 n d i j k
              = Some (expected img_width img_height s objs (i, j) k)).
    { intros k Hk. apply Hdata; assumption. }
    assert (Hval : forall k,
              expected img_width img_height s objs (i, j) k
              = if decide (Z.of_nat k = 10 + ci) then 1%Q
                else match k with
                     | 0%nat => 1%Q
                     | 1%nat => x
                     | 2%nat => y
                     | 3%nat => w
                     | 4%nat => h
                     | _ => 0%Q
                     end).
    { intros k. unfold expected. rewrite Hf. unfold channel_of.
      rewrite Hci, Ebox, Hco. reflexivity. }
    rewrite (getslice3_Ok n d t Hsh _ _ i j _ 1 (Some 5%nat)
               (index_of_nat n i Hi) (index_of_nat n j Hj) Hch).
    simpl default. rewrite (Nat.min_l 1 d), (Nat.min_l 5 d) by lia.
    bind_ok. simpl fmap. rewrite !Hval.
    repeat (destruct (decide _) as [Hyes|Hno]; [lia | clear Hno]).
    rewrite <- Hcx, <- Hcy. replace (Z.of_nat n) with s by lia.
    rewrite (coords_to_bndbox_of_coords img_width img_height s
               xmin xmax ymin ymax x y w h cx cy HW HH ltac:(lia) Hco).
    bind_ok. rewrite Hcx, Hcy.
    (* the class *)
    rewrite (getslice3_Ok n d t Hsh _ _ i j _ 10 None
               (index_of_nat n i Hi) (index_of_nat n j Hj) Hch).
    simpl default. rewrite (Nat.min_l 10 d), Nat.min_id by lia.
    bind_ok.
    rewrite (onehot_slice _ d (Z.to_nat (10 + ci))); cycle 1.
    { lia. }
    { rewrite Hval. destruct (decide _); [reflexivity | lia]. }
    { intros k Hk Hne. rewrite Hval. destruct (decide _); [lia|].
      destruct k as [|[|[|[|[|k]]]]]; reflexivity || lia. }
    rewrite argmax_onehot. bind_ok.
    replace (Z.to_nat (10 + ci) - 10)%nat with (Z.to_nat ci) by lia.
    rewrite Hname. unfold decode_object. rewrite Ebox. reflexivity.
  - change (Qeq_bool 0 1) with false. cbv iota. rewrite app_nil_r. reflexivity.
Qed.

Lemma tensor_to_label_row_spec (i : nat) (js : list nat) (acc : list object) :
  (i < n)%nat -> Forall (fun j => (j < n)%nat) js ->
  tensor_to_label_row t img_width img_height n i js acc
  = Ok (acc ++ (j ← js;
                option_list (decode_object <$>
                               find (in_cell img_width img_height s (i, j)) objs))).
Proof.
  intros Hi Hjs. revert acc. induction Hjs as [|j js Hj _ IH]; intros acc.
  - simpl. rewrite app_nil_r. reflexivity.
  - simpl tensor_to_label_row.
    rewrite (tensor_to_label_cell_spec i j acc Hi Hj). bind_ok.
    rewrite IH, <- app_assoc. reflexivity.
Qed.

Lemma tensor_to_label_rows_spec (rows : list nat) (acc : list object) :
  Forall (fun i => (i < n)%nat) rows ->
  tensor_to_label_rows t img_width img_height n rows acc
  = Ok (acc ++ (i ← rows; j ← seq 0 n;
                option_list (decode_object <$>
                               find (in_cell img_width img_height s (i, j)) objs))).
Proof.
  intros Hrows. revert acc. induction Hrows as [|i rows Hi _ IH]; intros acc.
  - simpl. rewrite app_nil_r. reflexivity.
  - simpl tensor_to_label_rows.
    rewrite (tensor_to_label_row_spec i (seq 0 n) acc Hi).
    + bind_ok. rewrite IH, <- app_assoc. reflexivity.
    + apply Forall_forall. intros j Hj. apply elem_of_seq in Hj. lia.
Qed.

Lemma tensor_to_label_spec (img_depth : Z) :
  tensor_to_label t img_width img_height img_depth
  = Ok {| image_size_of := {| width := img_width; height := img_height;
                              depth := img_depth |};
          objects := decode_object <$> found_objects img_width img_height s objs |}.
Proof.
  unfold tensor_to_label. destruct Henc as (Hsh & _). rewrite Hsh.
  rewrite tensor_to_label_rows_spec.
  - bind_ok. do 2 f_equal. simpl app. unfold found_objects.
    rewrite fmap_bind_list. apply list_bind_ext; [|reflexivity]. intros i.
    rewrite fmap_bind_list. apply list_bind_ext; [|reflexivity]. intros j.
    destruct (find _ objs); reflexivity.
  - apply Forall_forall. intros i Hi. apply elem_of_seq in Hi. lia.
Qed.

End Decode.

(** ** Annotations with one object per cell *)

Lemma NoDup_fmap_inj {A B} (f : A -> B) (l : list A) (x y : A) :
  NoDup (f <$> l) -> x ∈ l -> y ∈ l -> f x = f y -> x = y.
Proof.
  induction l as [|a l IH]; intros Hnd Hx Hy Hxy.
  - inversion Hx.
  - rewrite fmap_cons in Hnd. apply NoDup_cons in Hnd as [Ha Hnd].
    apply elem_of_cons in Hx as [->|Hx];
      apply elem_of_cons in Hy as [->|Hy].
    + reflexivity.
    + exfalso. apply Ha. rewrite Hxy. apply list_elem_of_fmap. exists y. auto.
    + exfalso. apply Ha. rewrite <- Hxy. apply list_elem_of_fmap. exists x. auto.
    + apply IH; assumption.
Qed.

Section OnePerCell.

Variables (img_width img_height s : Z) (d : nat) (objs : list object).

Local Abbreviation n := (Z.to_nat s).
Local Abbreviation cell := (cell_of img_width img_height s).

Hypothesis Hcells : Forall (fun o => is_Ok (cell o)) objs.
Hypothesis Hdistinct : NoDup (cell <$> objs).

Lemma find_own_cell (o : object) (c : nat * nat) :
  o ∈ objs -> cell o = Ok c ->
  find (in_cell img_width img_height s c) objs = Some o.
Proof.
  intros Hin Hc.
  destruct (find (in_cell img_width img_height s c) objs) as [o'|] eqn:Hf.
  - apply find_in_cell_Some in Hf as [Hin' Hc']. f_equal.
    apply (NoDup_fmap_inj cell objs); congruence.
  - apply list_elem_of_In in Hin.
    pose proof (find_none _ _ Hf o Hin) as Hno.
    apply in_cell_true in Hc. congruence.
Qed.

Lemma elem_of_found_objects (o : object) :
  o ∈ found_objects img_width img_height s objs <-> o ∈ objs.
Proof.
  unfold found_objects. split.
  - intros H. apply list_elem_of_bind in H as (i & H & _).
    apply list_elem_of_bind in H as (j & H & _).
    destruct (find _ objs) as [o'|] eqn:Hf; [|inversion H].
    apply list_elem_of_singleton in H as ->.
    apply find_in_cell_Some in Hf. tauto.
  - intros Hin. rewrite Forall_forall in Hcells.
    destruct (Hcells o Hin) as [[i j] Hc].
    destruct (cell_of_inv _ _ _ _ _ _ Hc) as (x & y & w & h & cx & cy & _ & Hi & Hj).
    apply index_Ok_inv in Hi as [Hi _]. apply index_Ok_inv in Hj as [Hj _].
    apply list_elem_of_bind. exists i. split; [|apply elem_of_seq; lia].
    apply list_elem_of_bind. exists j. split; [|apply elem_of_seq; lia].
    rewrite (find_own_cell o (i, j) Hin Hc). apply list_elem_of_singleton. reflexivity.
Qed.

Lemma NoDup_found_objects : NoDup (found_objects img_width img_height s objs).
Proof.
  unfold found_objects.
  assert (Hin : forall i j o,
            o ∈ option_list (find (in_cell img_width img_height s (i, j)) objs) ->
            cell o = Ok (i, j)).
  { intros i j o H. destruct (find _ objs) as [o'|] eqn:Hf; [|inversion H].
    apply list_elem_of_singleton in H as ->.
    apply find_in_cell_Some in Hf. tauto. }
  apply NoDup_bind; [| |apply NoDup_seq].
  - intros i1 i2 o _ _ H1 H2.
    apply list_elem_of_bind in H1 as (j1 & H1 & _).
    apply list_elem_of_bind in H2 as (j2 & H2 & _).
    apply Hin in H1. apply Hin in H2. congruence.
  - intros i _. apply NoDup_bind; [| |apply NoDup_seq].
    + intros j1 j2 o _ _ H1 H2. apply Hin in H1. apply Hin in H2. congruence.
    + intros j _. destruct (find _ objs); simpl; [apply NoDup_singleton | constructor].
Qed.

(** Every object comes back, once. *)
Lemma found_objects_perm : found_objects img_width img_height s objs ≡ₚ objs.
Proof.
  apply NoDup_Permutation.
  - apply NoDup_found_objects.
  - apply (NoDup_fmap_1 cell), Hdistinct.
  - apply elem_of_found_objects.
Qed.

End OnePerCell.

(** With known names and distinct cells, and room for the class
    channels, every object claims its cell and the loop ends well. *)
Lemma preprocess_objects_Ok (img_width img_height s : Z) (d : nat)
    (objs pre : list object) (t : np.ndarray Q) :
  (30 <= d)%nat ->
  encodes img_width img_height s (Z.to_nat s) d pre t ->
  Forall (fun o => is_Ok (dict_get CLASS_NAME_TO_INDEX (name o))) objs ->
  Forall (fun o => is_Ok (cell_of img_width img_height s o)) objs ->
  NoDup (cell_of img_width img_height s <$> objs) ->
  Forall (fun o' => cell_of img_width img_height s o'
                    ∉ cell_of img_width img_height s <$> objs) pre ->
  exists t', preprocess_objects img_width img_height s t objs = Ok t'.
Proof.
  intros Hd. revert pre t.
  induction objs as [|o objs IH]; intros pre t Henc Hnames Hcells Hnd Hpre.
  - exists t. reflexivity.
  - apply Forall_cons in Hnames as [[ci Hci] Hnames].
    apply Forall_cons in Hcells as [[[i j] Hc] Hcells].
    rewrite fmap_cons in Hnd. apply NoDup_cons in Hnd as [Ho Hnd].
    destruct (cell_of_inv _ _ _ _ _ _ Hc)
      as (x & y & w & h & cx & cy & Hco & Hi & Hj).
    destruct (index_Ok_inv _ _ _ Hi) as [Hin _].
    destruct (index_Ok_inv _ _ _ Hj) as [Hjn _].
    destruct (class_index_spec _ _ Hci) as [Hrange _].
    pose proof Henc as (Hsh & Hlen & Hfound & Hdata).
    assert (Hfree : find (in_cell img_width img_height s (i, j)) pre = None).
    { destruct (find _ pre) as [o'|] eqn:Hf; [|reflexivity]. exfalso.
      apply find_in_cell_Some in Hf as [Hin' Hc'].
      rewrite Forall_forall in Hpre. apply (Hpre o' Hin').
      rewrite Hc', <- Hc, fmap_cons. apply list_elem_of_here. }
    assert (Hconf : np.data t !! off3 (Z.to_nat s) d i j 0%nat = Some 0%Q).
    { rewrite (Hdata i j 0%nat Hin Hjn) by lia. unfold expected.
      rewrite Hfree. reflexivity. }
    pose proof (preprocess_object_eval img_width img_height s d t o ci x y w h
                  cx cy i j 0%Q Hsh Hci Hco Hi Hj ltac:(lia) Hconf) as Heval.
    change (Qeq_bool 0 0) with true in Heval. cbv iota in Heval.
    destruct (decide (5 <= d)%nat) as [_|]; [|lia].
    replace (10 + ci) with (Z.of_nat (Z.to_nat (10 + ci))) in Heval by lia.
    rewrite index_of_nat in Heval by lia. rewrite bind_Ok in Heval.
    simpl preprocess_objects. rewrite Heval. bind_ok.
    apply (IH (pre ++ [o])).
    + apply (encodes_step img_width img_height s d pre t _ o Henc Heval).
    + exact Hnames.
    + exact Hcells.
    + exact Hnd.
    + apply Forall_app. split.
      * apply Forall_forall. intros o' Hin' Hmem.
        rewrite Forall_forall in Hpre. apply (Hpre o' Hin').
        rewrite fmap_cons. apply list_elem_of_further, Hmem.
      * repeat constructor. exact Ho.
Qed.

Lemma same_object_decode (o : object) : same_object o (decode_object o).
Proof.
  unfold same_object, decode_object.
  destruct (bndbox_of o) as [[[xmin xmax] ymin] ymax]. simpl.
  split; [reflexivity|].
  exists (Py.round xmin), (Py.round xmax), (Py.round ymin), (Py.round ymax).
  split; [reflexivity|]. repeat split; apply round_within_1.
Qed.



(** ** The config parser *)

Lemma split_chars_length (sep : ascii) (cur cs : list ascii) :
  length (PyStr.split_chars sep cur cs) = S (count_occ ascii_dec cs sep).
Proof.
  revert cur. induction cs as [|c cs IH]; intros cur; [reflexivity|].
  simpl. destruct (Ascii.eqb_spec c sep) as [->|Hne].
  - simpl. rewrite IH. destruct (ascii_dec sep sep); [reflexivity | congruence].
  - rewrite IH. destruct (ascii_dec c sep); [congruence | reflexivity].
Qed.

Lemma split_length (s : string) (sep : ascii) :
  length (PyStr.split s sep) = S (count_char sep s).
Proof. unfold PyStr.split. rewrite length_fmap. apply split_chars_length. Qed.

Lemma dict_get_set {V} (dct : dict V) (key : string) (v : V) :
  dict_get (dict_set dct key v) key = Ok v.
Proof.
  induction dct as [|[k v'] dct IH]; simpl.
  - rewrite String.eqb_refl. reflexivity.
  - destruct (String.eqb k key) eqn:E; simpl; rewrite E; [reflexivity | exact IH].
Qed.

Lemma parse_lines_app (st : parser_state) (l1 l2 : list string) :
  parse_lines st (l1 ++ l2) = st' ← parse_lines st l1; parse_lines st' l2.
Proof.
  revert st. induction l1 as [|line l1 IH]; intros st; [reflexivity|].
  simpl. destruct (parse_line st line) as [st'|e]; [|reflexivity].
  rewrite !bind_Ok. apply IH.
Qed.

(** What [parse_line] does with a key/value line. *)
Lemma parse_line_key_value (st : parser_state) (line : string) :
  is_key_value line = true ->
  parse_line st line
  = match PyStr.strip <$> PyStr.split (PyStr.strip line) "=" with
    | [key; values] =>
        match current_section st with
        | Some addr =>
            Ok {| cfg := cfg st;
                  heap := alter (fun dct =>
                            dict_set dct key
                              (pack_values (parse_value <$>
                                 (PyStr.strip <$> PyStr.split values ","))))
                            addr (heap st);
                  current_section := current_section st |}
        | None => Raise UnboundLocalError
        end
    | _ => Raise ValueError
    end.
Proof.
  unfold is_key_value, is_skipped, parse_line. cbv zeta. intros H.
  apply andb_true_iff in H as [H1 H2].
  apply negb_true_iff in H1. apply negb_true_iff in H2.
  rewrite H1, H2. reflexivity.
Qed.

Lemma parse_line_not_header (st st' : parser_state) (line : string) :
  is_header line = false -> parse_line st line = Ok st' ->
  current_section st' = current_section st.
Proof.
  unfold is_header, is_skipped, parse_line. cbv zeta. intros H Hok.
  destruct (String.eqb _ "" || PyStr.startswith _ "#").
  - injection Hok as <-. reflexivity.
  - simpl in H. rewrite H in Hok.
    destruct (PyStr.strip <$> _) as [|key [|values [|]]]; try discriminate.
    destruct (current_section st); [|discriminate].
    injection Hok as <-. reflexivity.
Qed.

Lemma parse_lines_no_header (st st' : parser_state) (lines : list string) :
  Forall (fun line => is_header line = false) lines ->
  parse_lines st lines = Ok st' ->
  current_section st' = current_section st.
Proof.
  intros Hall. revert st. induction Hall as [|line lines Hline _ IH]; intros st Hok.
  - injection Hok as <-. reflexivity.
  - simpl in Hok. apply bind_Ok_inv in Hok as (st1 & H1 & Hok).
    rewrite (IH _ Hok). apply (parse_line_not_header st st1 line Hline H1).
Qed.

Lemma raises_bind {A B} (m : result A) (f : A -> result B) :
  (forall a, m = Ok a -> raises (f a)) -> raises (m ≫= f).
Proof.
  destruct m as [a|e]; intros H; [apply H; reflexivity | exists e; reflexivity].
Qed.

(** C9: a key/value line without exactly one '=' makes [parse_cfg]
    raise, and so does a key/value line before the first block header;
    a run that raises returns no blocks at all. *)
Theorem parse_cfg_malformed :
  (forall (before after : list string) (line : string),
     is_key_value line = true ->
     count_char "=" (PyStr.strip line) <> 1%nat ->
     raises (parse_cfg (before ++ line :: after))) /\
  (forall (before after : list string) (line : string),
     Forall (fun l => is_header l = false) before ->
     is_key_value line = true ->
     raises (parse_cfg (before ++ line :: after))) /\
  (forall (before after : list string) (line : string),
     Forall (fun l => is_skipped l = true) before ->
     is_key_value line = true ->
     parse_cfg (before ++ line :: after)
     = Raise (if decide (count_char "=" (PyStr.strip line) = 1%nat)
              then UnboundLocalError else ValueError)) /\
  (forall lines, raises (parse_cfg lines) -> ~ is_Ok (parse_cfg lines)).
Proof.
  split; [|split; [|split]].
  - intros before after line Hkv Hcount. unfold parse_cfg.
    apply raises_bind. intros st Hst. exfalso.
    rewrite parse_lines_app in Hst. apply bind_Ok_inv in Hst as (st1 & _ & Hst).
    simpl in Hst. apply bind_Ok_inv in Hst as (st2 & Hst & _).
    rewrite (parse_line_key_value st1 line Hkv) in Hst.
    pose proof (split_length (PyStr.strip line) "=") as Hlen.
    rewrite <- (length_fmap PyStr.strip) in Hlen.
    destruct (PyStr.strip <$> _) as [|key [|values [|]]]; try discriminate.
    simpl in Hlen. lia.
  - intros before after line Hbefore Hkv. unfold parse_cfg.
    apply raises_bind. intros st Hst. exfalso.
    rewrite parse_lines_app in Hst. apply bind_Ok_inv in Hst as (st1 & H1 & Hst).
    simpl in Hst. apply bind_Ok_inv in Hst as (st2 & Hst & _).
    rewrite (parse_line_key_value st1 line Hkv) in Hst.
    rewrite (parse_lines_no_header _ _ _ Hbefore H1) in Hst. simpl in Hst.
    destruct (PyStr.strip <$> _) as [|key [|values [|]]]; discriminate.
  - intros before after line Hbefore Hkv. unfold parse_cfg.
    rewrite parse_lines_app.
    assert (Hskip : forall st, parse_lines st before = Ok st).
    { induction Hbefore as [|l before Hl _ IH]; intros st; [reflexivity|].
      simpl. unfold parse_line. cbv zeta.
      unfold is_skipped in Hl. cbv zeta in Hl. rewrite Hl. bind_ok. apply IH. }
    rewrite Hskip. bind_ok. simpl parse_lines.
    rewrite (parse_line_key_value _ line Hkv). simpl current_section.
    pose proof (split_length (PyStr.strip line) "=") as Hlen.
    rewrite <- (length_fmap PyStr.strip) in Hlen.
    destruct (PyStr.strip <$> _) as [|key [|values [|]]]; simpl in Hlen;
      destruct (decide _); try lia; reflexivity.
  - intros lines [e He] [a Ha]. congruence.
Qed.

Lemma parse_line_ok (st st' : parser_state) (line : string) :
  parser_state_ok st -> parse_line st line = Ok st' -> parser_state_ok st'.
Proof.
  intros [Hcur Hall] Hok. unfold parse_line in Hok. cbv zeta in Hok.
  destruct (String.eqb _ "" || PyStr.startswith _ "#").
  { injection Hok as <-. split; assumption. }
  destruct (PyStr.startswith _ "[").
  { injection Hok as <-. split; cbn [cfg heap current_section].
    - rewrite last_snoc. reflexivity.
    - rewrite length_app. simpl. apply Forall_app. split.
      + eapply Forall_impl; [exact Hall|]. simpl. intros; lia.
      + repeat constructor. simpl. lia. }
  destruct (PyStr.strip <$> _) as [|key [|values [|]]]; try discriminate.
  destruct (current_section st) as [addr|] eqn:E; [|discriminate].
  injection Hok as <-. split; cbn [cfg heap current_section].
  - exact Hcur.
  - rewrite length_alter. exact Hall.
Qed.

Lemma parse_lines_ok (st st' : parser_state) (lines : list string) :
  parser_state_ok st -> parse_lines st lines = Ok st' -> parser_state_ok st'.
Proof.
  revert st. induction lines as [|line lines IH]; intros st Hst Hok.
  - injection Hok as <-. exact Hst.
  - simpl in Hok. apply bind_Ok_inv in Hok as (st1 & H1 & Hok).
    apply (IH st1); [|exact Hok]. apply (parse_line_ok st st1 line Hst H1).
Qed.


(** ** The weight file *)

Lemma wrap_range (bits u : Z) :
  0 < bits -> - 2 ^ (bits - 1) <= np.wrap bits u < 2 ^ (bits - 1).
Proof.
  intros Hbits. unfold np.wrap.
  assert (H2 : 2 ^ bits = 2 * 2 ^ (bits - 1)).
  { rewrite <- Z.pow_succ_r by lia. f_equal. lia. }
  pose proof (Z.mod_pos_bound (u + 2 ^ (bits - 1)) (2 ^ bits) ltac:(lia)). lia.
Qed.

Lemma wrap_small (bits z : Z) :
  0 < bits -> - 2 ^ (bits - 1) <= z < 2 ^ (bits - 1) -> np.wrap bits z = z.
Proof.
  intros Hbits Hz. unfold np.wrap.
  assert (H2 : 2 ^ bits = 2 * 2 ^ (bits - 1)).
  { rewrite <- Z.pow_succ_r by lia. f_equal. lia. }
  rewrite Z.mod_small by lia. lia.
Qed.

(** The sum the version test computes never wraps. *)
Lemma version_sum_exact (b1 b2 : list Z) :
  let major := np.decode np.int32 b1 in
  let minor := np.decode np.int32 b2 in
  np.wrap 64 (np.wrap 64 (major * 1) + minor) = major * 1 + minor.
Proof.
  intros major minor.
  pose proof (wrap_range 32 (np.le_unsigned b1) ltac:(lia)) as H1.
  pose proof (wrap_range 32 (np.le_unsigned b2) ltac:(lia)) as H2.
  fold (np.decode np.int32 b1) in H1. fold (np.decode np.int32 b2) in H2.
  fold major in H1. fold minor in H2.
  change (2 ^ (32 - 1)) with 2147483648 in H1, H2.
  rewrite (wrap_small 64 (major * 1)) by (change (2 ^ (64 - 1)) with 9223372036854775808; lia).
  apply wrap_small; [lia|]. change (2 ^ (64 - 1)) with 9223372036854775808. lia.
Qed.

Lemma chunks_length (sz count : nat) (bytes : list Z) :
  length (np.chunks sz count bytes) = count.
Proof.
  revert bytes. induction count as [|count IH]; intros bytes; [reflexivity|].
  simpl. rewrite IH. reflexivity.
Qed.

(** A read that the file can satisfy. *)
Lemma fromfile_full (wf : np.file) (dt : np.dtype) (count : nat) :
  (np.pos wf + count * np.itemsize dt <= length (np.content wf))%nat ->
  np.fromfile wf dt count
  = (np.mk [count] (items_at (np.content wf) dt (np.pos wf) count),
     {| np.content := np.content wf;
        np.pos := np.pos wf + count * np.itemsize dt |}).
Proof.
  intros Hlen. unfold np.fromfile, items_at.
  assert (Hsz : (0 < np.itemsize dt)%nat) by (destruct dt; simpl; lia).
  assert (Hn : Nat.min count (length (drop (np.pos wf) (np.content wf)) / np.itemsize dt)
               = count).
  { apply Nat.min_l. rewrite length_drop.
    apply Nat.div_le_lower_bound; lia. }
  rewrite Hn. f_equal. f_equal. lia.
Qed.

Lemma seen_width_cases (major minor : Z) :
  seen_width major minor = 8%nat \/ seen_width major minor = 4%nat.
Proof. unfold seen_width. destruct (_ && _); auto. Qed.

(** [parse_header] on a file that holds the whole header. *)
Lemma parse_header_Ok (content : list Z) :
  let major := np.decode np.int32 (take 4 content) in
  let minor := np.decode np.int32 (take 4 (drop 4 content)) in
  (12 + seen_width major minor <= length content)%nat ->
  parse_header {| np.content := content; np.pos := 0 |}
  = Ok {| np.content := content; np.pos := 12 + seen_width major minor |}.
Proof.
  intros major minor Hlen.
  pose proof (seen_width_cases major minor) as Hw.
  unfold parse_header.
  rewrite fromfile_full by (cbn [np.pos np.content np.itemsize]; lia).
  cbn [np.pos np.content np.data np.itemsize]. unfold items_at.
  cbn [np.itemsize np.chunks fmap list_fmap drop].
  rewrite drop_0. cbn [fmap list_fmap].
  fold major. fold minor.
  pose proof (version_sum_exact (take 4 content) (take 4 (drop 4 content))) as Hsum.
  cbv zeta in Hsum. fold major minor in Hsum. rewrite Hsum.
  assert (E : (if (2 <=? major * 1 + minor) && (major <? 1000) && (minor <? 1000)
               then np.int64 else np.int32)
              = (if decide (seen_width major minor = 8%nat) then np.int64 else np.int32)).
  { unfold seen_width. destruct (_ && _); reflexivity. }
  rewrite E.
  rewrite fromfile_full.
  - cbn [np.pos np.content]. do 3 f_equal.
    destruct (decide _) as [->|]; [reflexivity|].
    destruct Hw as [ | -> ]; [contradiction | reflexivity].
  - cbn [np.pos np.content].
    destruct (decide _) as [E8|]; simpl; lia.
Qed.


(** ** Arrays of any rank: offsets, index enumeration, transposition *)

Section AnyRank.

Local Open Scope nat_scope.

Lemma offset_lt (sh idx : list nat) :
  Forall2 lt idx sh -> offset sh idx < np.size sh.
Proof.
  induction 1 as [|i n idx sh Hi _ IH]; simpl; [lia|].
  apply mix_lt; assumption.
Qed.

Lemma ravel_nat (sh idx : list nat) :
  Forall2 lt idx sh -> np.ravel sh (Z.of_nat <$> idx) = Ok (offset sh idx).
Proof.
  induction 1 as [|i n idx sh Hi _ IH]; [reflexivity|].
  rewrite fmap_cons. simpl np.ravel.
  rewrite (index_of_nat n i Hi). bind_ok. rewrite IH. reflexivity.
Qed.

Lemma item_nat {A} (a : np.ndarray A) (idx : list nat) :
  Forall2 lt idx (np.shape a) ->
  np.item a (Z.of_nat <$> idx)
  = match np.data a !! offset (np.shape a) idx with
    | Some v => Ok v
    | None => Raise IndexError
    end.
Proof. intros H. unfold np.item. rewrite (ravel_nat _ _ H). reflexivity. Qed.

Lemma ndindex_length (sh : list nat) : length (np.ndindex sh) = np.size sh.
Proof.
  induction sh as [|n sh IH]; [reflexivity|].
  simpl np.ndindex. simpl np.size.
  generalize 0 at 1. induction n as [|n IHn]; intros start; [reflexivity|].
  simpl seq. csimpl. rewrite length_app, length_fmap, IH, IHn. reflexivity.
Qed.

Lemma lookup_bind_uniform {A B} (f : A -> list B) (m : nat) (l : list A)
    (i r : nat) (x : A) :
  (forall a, length (f a) = m) -> l !! i = Some x -> r < m ->
  (l ≫= f) !! (i * m + r) = f x !! r.
Proof.
  intros Hlen. revert i. induction l as [|a l IH]; intros i Hi Hr; [inversion Hi|].
  csimpl. destruct i as [|i].
  - injection Hi as ->. simpl. apply lookup_app_l. rewrite Hlen. exact Hr.
  - simpl in Hi. rewrite lookup_app_r by (rewrite Hlen; simpl; lia).
    rewrite Hlen. replace (S i * m + r - m) with (i * m + r) by (simpl; lia).
    apply IH; assumption.
Qed.

(** The index tuples come in the order of their offsets. *)
Lemma ndindex_lookup (sh idx : list nat) :
  Forall2 lt idx sh -> np.ndindex sh !! offset sh idx = Some idx.
Proof.
  induction 1 as [|i n idx sh Hi Hrest IH]; [reflexivity|].
  simpl np.ndindex. simpl offset.
  rewrite (lookup_bind_uniform _ (np.size sh) (seq 0 n) i (offset sh idx) i).
  - rewrite list_lookup_fmap, IH. reflexivity.
  - intros a. rewrite length_fmap. apply ndindex_length.
  - apply lookup_seq. lia.
  - apply offset_lt, Hrest.
Qed.

Lemma ndindex_elem (sh idx : list nat) :
  idx ∈ np.ndindex sh -> Forall2 lt idx sh.
Proof.
  revert idx. induction sh as [|n sh IH]; intros idx Hin.
  - apply list_elem_of_singleton in Hin as ->. constructor.
  - simpl in Hin. apply list_elem_of_bind in Hin as (i & Hin & Hi).
    apply list_elem_of_fmap in Hin as (idx' & -> & Hin).
    apply elem_of_seq in Hi. constructor; [lia | apply IH, Hin].
Qed.

Lemma mapM_result_lookup {A B} (f : A -> result B) (l : list A) (d : list B)
    (o : nat) (x : A) :
  mapM f l = Ok d -> l !! o = Some x -> exists y, d !! o = Some y /\ f x = Ok y.
Proof.
  revert d o. induction l as [|a l IH]; intros d o Hm Hx; [inversion Hx|].
  simpl in Hm. apply bind_Ok_inv in Hm as (y & Hy & Hm).
  apply bind_Ok_inv in Hm as (d' & Hd' & Hm). injection Hm as <-.
  destruct o as [|o].
  - injection Hx as <-. exists y. auto.
  - simpl in Hx. simpl. apply (IH d' o Hd' Hx).
Qed.

Lemma mapM_result_Ok {A B} (f : A -> result B) (l : list A) :
  Forall (fun x => is_Ok (f x)) l ->
  exists d, mapM f l = Ok d /\ length d = length l.
Proof.
  induction 1 as [|a l [y Hy] _ (d & Hd & Hlen)].
  - exists []. auto.
  - exists (y :: d). simpl. rewrite Hy. bind_ok. rewrite Hd. bind_ok.
    split; [reflexivity | simpl; lia].
Qed.

(** [np.transpose(a, [2, 3, 1, 0])] of a rank-4 array: the element at
    [i, j, k, l] of the result is the element at [l, k, i, j] of [a]. *)
Lemma transpose_2310 {A} (a : np.ndarray A) (f c kh kw : nat) :
  np.shape a = [f; c; kh; kw] ->
  length (np.data a) = np.size [f; c; kh; kw] ->
  exists b,
    np.transpose a [2; 3; 1; 0] = Ok b /\
    np.shape b = [kh; kw; c; f] /\
    forall i j k l, i < kh -> j < kw -> k < c -> l < f ->
      np.item b [Z.of_nat i; Z.of_nat j; Z.of_nat k; Z.of_nat l]
      = np.item a [Z.of_nat l; Z.of_nat k; Z.of_nat i; Z.of_nat j].
Proof.
  intros Hsh Hlen. unfold np.transpose. rewrite Hsh.
  assert (Hperm : bool_decide ([2; 3; 1; 0] ≡ₚ seq 0 (length [f; c; kh; kw])) = true)
    by (vm_compute; reflexivity).
  rewrite Hperm.
  set (source := fun jdx : list nat =>
         (fun m => Z.of_nat (default 0 (jdx !! np.axis_position [2; 3; 1; 0] m)))
           <$> [0; 1; 2; 3]).
  change (exists b,
            (d ← mapM (fun jdx => np.item a (source jdx)) (np.ndindex [kh; kw; c; f]);
             Ok (np.mk [kh; kw; c; f] d)) = Ok b /\
            np.shape b = [kh; kw; c; f] /\
            forall i j k l, i < kh -> j < kw -> k < c -> l < f ->
              np.item b [Z.of_nat i; Z.of_nat j; Z.of_nat k; Z.of_nat l]
              = np.item a [Z.of_nat l; Z.of_nat k; Z.of_nat i; Z.of_nat j]).
  assert (Hsrc : forall i j k l,
            source [i; j; k; l] = Z.of_nat <$> [l; k; i; j]).
  { intros. reflexivity. }
  assert (Hall : Forall (fun jdx => is_Ok (np.item a (source jdx)))
                        (np.ndindex [kh; kw; c; f])).
  { apply Forall_forall. intros jdx Hin. apply ndindex_elem in Hin.
    inversion Hin as [|i0 ? ? ? Hi Hin1]; subst.
    inversion Hin1 as [|i1 ? ? ? Hj Hin2]; subst.
    inversion Hin2 as [|i2 ? ? ? Hk Hin3]; subst.
    inversion Hin3 as [|i3 ? ? ? Hl Hin4]; subst.
    inversion Hin4; subst.
    rewrite Hsrc, item_nat by (rewrite Hsh; repeat constructor; assumption).
    rewrite Hsh.
    destruct (lookup_lt_is_Some_2 (np.data a) (offset [f; c; kh; kw] [i3; i2; i0; i1]))
      as [v Hv].
    { rewrite Hlen. apply offset_lt. repeat constructor; assumption. }
    rewrite Hv. exists v. reflexivity. }
  destruct (mapM_result_Ok _ _ Hall) as (d & Hd & Hdlen).
  rewrite Hd. bind_ok. eexists. split; [reflexivity|]. split; [reflexivity|].
  intros i j k l Hi Hj Hk Hl.
  change [Z.of_nat i; Z.of_nat j; Z.of_nat k; Z.of_nat l]
    with (Z.of_nat <$> [i; j; k; l]).
  rewrite item_nat by (repeat constructor; assumption).
  cbn [np.shape np.data].
  destruct (mapM_result_lookup _ _ d (offset [kh; kw; c; f] [i; j; k; l]) [i; j; k; l] Hd)
    as (y & Hy & Hitem).
  { apply ndindex_lookup. repeat constructor; assumption. }
  rewrite Hy. rewrite Hsrc in Hitem. symmetry. exact Hitem.
Qed.

End AnyRank.

(** ** Loading one convolutional block *)

Lemma items_at_length (content : list Z) (dt : np.dtype) (pos count : nat) :
  length (items_at content dt pos count) = count.
Proof. unfold items_at. rewrite length_fmap. apply chunks_length. Qed.

Lemma layer_names_differ (block_index : nat) :
  ("conv_" +:+ pretty block_index)%string <> ("batchnorm_" +:+ pretty block_index)%string.
Proof. simpl. discriminate. Qed.

Section LoadBlock.

Variables (model : gmap string keras.layer) (wf : np.file) (block_index : nat).

Local Abbreviation conv_name := ("conv_" +:+ pretty block_index)%string.
Local Abbreviation bn_name := ("batchnorm_" +:+ pretty block_index)%string.
Local Abbreviation content := (np.content wf).
Local Abbreviation pos := (np.pos wf).

Lemma load_batchnorm_Ok (bn : keras.BatchNormalization) (filters : nat) :
  model !! bn_name = Some (keras.batchnorm bn) ->
  keras.features bn = filters ->
  (pos + 16 * filters <= length content)%nat ->
  load_batchnorm model wf block_index filters
  = Ok (<[bn_name :=
           keras.batchnorm
             {| keras.features := filters;
                keras.bn_weights :=
                  Some [vector_at content pos filters 1;
                        vector_at content pos filters 0;
                        vector_at content pos filters 2;
                        vector_at content pos filters 3] |}]> model,
        {| np.content := content; np.pos := pos + 16 * filters |}).
Proof.
  intros Hbn Hfeat Hlen. unfold load_batchnorm.
  rewrite fromfile_full by (cbn [np.itemsize]; lia).
  cbn [np.itemsize].
  rewrite fromfile_full by (cbn [np.itemsize np.pos np.content]; lia).
  cbn [np.itemsize np.pos np.content].
  rewrite fromfile_full by (cbn [np.itemsize np.pos np.content]; lia).
  cbn [np.itemsize np.pos np.content].
  rewrite fromfile_full by (cbn [np.itemsize np.pos np.content]; lia).
  cbn [np.itemsize np.pos np.content].
  unfold keras.get_layer. rewrite Hbn. bind_ok.
  unfold keras.set_weights. cbn [fmap list_fmap np.shape keras.weight_shapes].
  rewrite Hfeat. rewrite decide_True by reflexivity. bind_ok.
  unfold vector_at. repeat (try lia; f_equal).
Qed.

(** A block with batch normalisation, loaded. *)
Lemma load_convolutional_bn_Ok (section : dict value) (c : keras.Conv2D)
    (bn : keras.BatchNormalization) :
  model !! conv_name = Some (keras.conv2d c) ->
  model !! bn_name = Some (keras.batchnorm bn) ->
  batch_normalize_of section = true ->
  keras.use_bias c = false ->
  keras.features bn = keras.filters c ->
  (pos + bn_block_bytes c <= length content)%nat ->
  exists kernel,
    np.transpose (darknet_kernel_at content (pos + 16 * keras.filters c) c) [2; 3; 1; 0]%nat
    = Ok kernel /\
    load_convolutional model wf block_index section
    = Ok (<[conv_name :=
             keras.conv2d
               {| keras.filters := keras.filters c;
                  keras.kernel_size := keras.kernel_size c;
                  keras.input_channels := keras.input_channels c;
                  keras.use_bias := false;
                  keras.conv_weights := Some [kernel] |}]>
            (<[bn_name :=
                keras.batchnorm
                  {| keras.features := keras.filters c;
                     keras.bn_weights :=
                       Some [vector_at content pos (keras.filters c) 1;
                             vector_at content pos (keras.filters c) 0;
                             vector_at content pos (keras.filters c) 2;
                             vector_at content pos (keras.filters c) 3] |}]> model),
          {| np.content := content; np.pos := pos + bn_block_bytes c |}).
Proof.
  intros Hconv Hbn Hflag Hbias Hfeat Hlen. unfold bn_block_bytes in *.
  set (sh := [keras.filters c; keras.input_channels c;
              fst (keras.kernel_size c); snd (keras.kernel_size c)]) in *.
  destruct (transpose_2310 (darknet_kernel_at content (pos + 16 * keras.filters c) c)
              (keras.filters c) (keras.input_channels c)
              (fst (keras.kernel_size c)) (snd (keras.kernel_size c)))
    as (kernel & Hker & Hksh & _).
  { reflexivity. }
  { unfold darknet_kernel_at. cbn [np.data]. apply items_at_length. }
  exists kernel. split; [exact Hker|].
  unfold load_convolutional, keras.get_layer. rewrite Hconv. bind_ok.
  rewrite Hflag, Hbias.
  rewrite (load_batchnorm_Ok bn (keras.filters c) Hbn Hfeat) by lia.
  bind_ok. bind_ok. fold sh.
  rewrite fromfile_full by (cbn [np.itemsize np.pos np.content]; lia).
  cbn [np.itemsize np.pos np.content].
  unfold np.reshape. cbn [np.data].
  rewrite decide_True by (symmetry; apply items_at_length).
  bind_ok.
  change (np.mk sh (items_at content np.float32 (pos + 16 * keras.filters c) (np.size sh)))
    with (darknet_kernel_at content (pos + 16 * keras.filters c) c).
  rewrite Hker. bind_ok.
  unfold keras.set_weights. cbn [fmap list_fmap keras.weight_shapes app].
  rewrite Hksh, Hbias. rewrite decide_True by reflexivity. bind_ok.
  do 3 f_equal. lia.
Qed.

(** Without batch normalisation the layer has a bias, and reading it
    fails. *)
Lemma load_convolutional_bias (section : dict value) (c : keras.Conv2D) :
  model !! conv_name = Some (keras.conv2d c) ->
  batch_normalize_of section = false ->
  keras.use_bias c = true ->
  load_convolutional model wf block_index section = Raise AttributeError.
Proof.
  intros Hconv Hflag Hbias.
  unfold load_convolutional, keras.get_layer. rewrite Hconv. bind_ok.
  rewrite Hflag, Hbias. bind_ok. reflexivity.
Qed.

End LoadBlock.

(** C4: for a block with batch normalisation the loader reads four
    float32 vectors of length [filters], on disk in the order beta,
    gamma, running mean, running variance, and sets the weights of the
    batch-norm layer to gamma, beta, running mean, running variance; the
    values 1, 2, 3, 4 on disk with one filter are written as 2, 1, 3, 4. *)
Theorem load_convolutional_batchnorm :
  (forall (model : gmap string keras.layer) (wf : np.file) (block_index : nat)
          (section : dict value) (c : keras.Conv2D) (bn : keras.BatchNormalization),
     model !! ("conv_" +:+ pretty block_index)%string = Some (keras.conv2d c) ->
     model !! ("batchnorm_" +:+ pretty block_index)%string = Some (keras.batchnorm bn) ->
     batch_normalize_of section = true ->
     keras.use_bias c = false ->
     keras.features bn = keras.filters c ->
     (np.pos wf + bn_block_bytes c <= length (np.content wf))%nat ->
     let filters := keras.filters c in
     let bn_beta := vector_at (np.content wf) (np.pos wf) filters 0 in
     let bn_gamma := vector_at (np.content wf) (np.pos wf) filters 1 in
     let bn_running_mean := vector_at (np.content wf) (np.pos wf) filters 2 in
     let bn_running_variance := vector_at (np.content wf) (np.pos wf) filters 3 in
     exists model' wf',
       load_convolutional model wf block_index section = Ok (model', wf') /\
       model' !! ("batchnorm_" +:+ pretty block_index)%string
       = Some (keras.batchnorm
                 {| keras.features := filters;
                    keras.bn_weights :=
                      Some [bn_gamma; bn_beta; bn_running_mean; bn_running_variance] |})) /\
  (let one := 0x3F800000 in
   let two := 0x40000000 in
   let three := 0x40400000 in
   let four := 0x40800000 in
   let conv :=
     {| keras.filters := 1; keras.kernel_size := (1%nat, 1%nat);
        keras.input_channels := 1; keras.use_bias := false;
        keras.conv_weights := None |} in
   let model : gmap string keras.layer :=
     <["conv_1"%string := keras.conv2d conv]>
       (<["batchnorm_1"%string :=
            keras.batchnorm {| keras.features := 1; keras.bn_weights := None |}]> ∅) in
   let wf :=
     {| np.content := le_bytes32 one ++ le_bytes32 two ++ le_bytes32 three
                      ++ le_bytes32 four ++ le_bytes32 one;
        np.pos := 0 |} in
   float32_value one = Some 1%Q /\ float32_value two = Some 2%Q /\
   float32_value three = Some 3%Q /\ float32_value four = Some 4%Q /\
   exists model' wf',
     load_convolutional model wf 1 [("batch_normalize", Scalar (Int 1))]%string
     = Ok (model', wf') /\
     model' !! "batchnorm_1"%string
     = Some (keras.batchnorm
               {| keras.features := 1;
                  keras.bn_weights :=
                    Some [np.mk [1%nat] [two]; np.mk [1%nat] [one];
                          np.mk [1%nat] [three]; np.mk [1%nat] [four]] |})).
Proof.
  split.
  - intros model wf block_index section c bn Hconv Hbn Hflag Hbias Hfeat Hlen.
    cbv zeta.
    destruct (load_convolutional_bn_Ok model wf block_index section c bn
                Hconv Hbn Hflag Hbias Hfeat Hlen) as (kernel & _ & Hload).
    do 2 eexists. split; [exact Hload|].
    rewrite lookup_insert_ne by apply layer_names_differ.
    rewrite lookup_insert_eq. reflexivity.
  - cbv zeta. repeat split; try reflexivity.
    do 2 eexists. split; vm_compute; reflexivity.
Qed.

Lemma load_convolutional_batchnorm_witness :
  let conv :=
    {| keras.filters := 2; keras.kernel_size := (1%nat, 1%nat);
       keras.input_channels := 1; keras.use_bias := false;
       keras.conv_weights := None |} in
  let model : gmap string keras.layer :=
    <["conv_3"%string := keras.conv2d conv]>
      (<["batchnorm_3"%string :=
           keras.batchnorm {| keras.features := 2; keras.bn_weights := None |}]> ∅) in
  let wf := {| np.content := replicate 4 0 ++ mjoin (le_bytes32 <$> seqZ 1 10);
               np.pos := 4 |} in
  exists model' wf',
    load_convolutional model wf 3 [("batch_normalize", Scalar (Int 1))]%string
    = Ok (model', wf') /\
    model' !! "batchnorm_3"%string
    = Some (keras.batchnorm
              {| keras.features := 2;
                 keras.bn_weights :=
                   Some [np.mk [2%nat] [3; 4]; np.mk [2%nat] [1; 2];
                         np.mk [2%nat] [5; 6]; np.mk [2%nat] [7; 8]] |}).
Proof.
  intros conv model wf.
  exact (proj1 load_convolutional_batchnorm model wf 3%nat
           [("batch_normalize", Scalar (Int 1))]%string conv
           {| keras.features := 2; keras.bn_weights := None |}
           eq_refl eq_refl eq_refl eq_refl eq_refl
           ltac:(vm_compute; lia)).
Defined.

(** C3, where the loader gets as far as the kernel (a block with batch
    normalisation): it reads [filters * input_channels * kernel_h *
    kernel_w] float32 values as an array of shape [(filters,
    input_channels, kernel_h, kernel_w)] and writes the kernel of shape
    [(kernel_h, kernel_w, input_channels, filters)] whose element at
    [i, j, k, l] is the element at [l, k, i, j] on disk.  Where the layer
    has a bias (a block without batch normalisation) the loader raises
    before it reads the kernel. *)
Theorem load_convolutional_kernel
    (model : gmap string keras.layer) (wf : np.file) (block_index : nat)
    (section : dict value) (c : keras.Conv2D) :
  model !! ("conv_" +:+ pretty block_index)%string = Some (keras.conv2d c) ->
  let filters := keras.filters c in
  let input_channels := keras.input_channels c in
  let kernel_h := fst (keras.kernel_size c) in
  let kernel_w := snd (keras.kernel_size c) in
  (forall bn : keras.BatchNormalization,
     model !! ("batchnorm_" +:+ pretty block_index)%string = Some (keras.batchnorm bn) ->
     batch_normalize_of section = true ->
     keras.use_bias c = false ->
     keras.features bn = filters ->
     (np.pos wf + bn_block_bytes c <= length (np.content wf))%nat ->
     let disk := darknet_kernel_at (np.content wf) (np.pos wf + 16 * filters) c in
     np.shape disk = [filters; input_channels; kernel_h; kernel_w] /\
     length (np.data disk) = (filters * input_channels * kernel_h * kernel_w)%nat /\
     exists model' wf' kernel,
       load_convolutional model wf block_index section = Ok (model', wf') /\
       np.pos wf' = (np.pos wf + bn_block_bytes c)%nat /\
       model' !! ("conv_" +:+ pretty block_index)%string
       = Some (keras.conv2d
                 {| keras.filters := filters;
                    keras.kernel_size := keras.kernel_size c;
                    keras.input_channels := input_channels;
                    keras.use_bias := false;
                    keras.conv_weights := Some [kernel] |}) /\
       np.shape kernel = [kernel_h; kernel_w; input_channels; filters] /\
       forall i j k l : nat,
         (i < kernel_h)%nat -> (j < kernel_w)%nat ->
         (k < input_channels)%nat -> (l < filters)%nat ->
         np.item kernel [Z.of_nat i; Z.of_nat j; Z.of_nat k; Z.of_nat l]
         = np.item disk [Z.of_nat l; Z.of_nat k; Z.of_nat i; Z.of_nat j]) /\
  (batch_normalize_of section = false -> keras.use_bias c = true ->
   load_convolutional model wf block_index section = Raise AttributeError).
Proof.
  intros Hconv filters input_channels kernel_h kernel_w. split.
  - intros bn Hbn Hflag Hbias Hfeat Hlen disk.
    split; [reflexivity|]. split.
    { unfold disk, darknet_kernel_at. cbn [np.data]. rewrite items_at_length.
      simpl. fold filters input_channels kernel_h kernel_w. lia. }
    destruct (load_convolutional_bn_Ok model wf block_index section c bn
                Hconv Hbn Hflag Hbias Hfeat Hlen) as (kernel & Hker & Hload).
    destruct (transpose_2310 disk filters input_channels kernel_h kernel_w)
      as (kernel' & Hker' & Hksh & Hitems).
    { reflexivity. }
    { unfold disk, darknet_kernel_at. cbn [np.data]. apply items_at_length. }
    assert (E : Ok kernel' = Ok kernel) by (rewrite <- Hker, <- Hker'; reflexivity).
    injection E as ->.
    do 2 eexists. exists kernel. split; [exact Hload|].
    split; [reflexivity|]. split; [apply lookup_insert_eq|].
    split; [exact Hksh | exact Hitems].
  - intros Hflag Hbias.
    apply (load_convolutional_bias model wf block_index section c Hconv Hflag Hbias).
Qed.

Lemma load_convolutional_kernel_witness :
  let conv :=
    {| keras.filters := 2; keras.kernel_size := (1%nat, 3%nat);
       keras.input_channels := 1; keras.use_bias := false;
       keras.conv_weights := None |} in
  let model : gmap string keras.layer :=
    <["conv_1"%string := keras.conv2d conv]>
      (<["batchnorm_1"%string :=
           keras.batchnorm {| keras.features := 2; keras.bn_weights := None |}]> ∅) in
  let wf := {| np.content := mjoin (le_bytes32 <$> seqZ 1 14); np.pos := 0 |} in
  exists model' wf' kernel,
    load_convolutional model wf 1 [("batch_normalize", Scalar (Int 1))]%string
    = Ok (model', wf') /\
    np.pos wf' = 56%nat /\
    np.shape kernel = [1; 3; 1; 2]%nat /\
    np.item kernel [0; 2; 0; 1] = Ok 14.
Proof.
  intros conv model wf.
  destruct (proj1 (load_convolutional_kernel model wf 1%nat
                     [("batch_normalize", Scalar (Int 1))]%string conv eq_refl)
              {| keras.features := 2; keras.bn_weights := None |}
              eq_refl eq_refl eq_refl eq_refl ltac:(vm_compute; lia))
    as (_ & _ & model' & wf' & kernel & Hload & Hpos & _ & Hsh & Hitems).
  exists model', wf', kernel.
  split; [exact Hload|]. split; [exact Hpos|]. split; [exact Hsh|].
  refine (eq_trans (Hitems 0%nat 2%nat 0%nat 1%nat _ _ _ _) _);
    [simpl; lia .. | reflexivity].
Defined.

(** C5 fails on the code: for a block without batch normalisation the
    layer has a bias, and the loader raises [AttributeError] where it
    should read it ([np.formfile]); no bias and no kernel is written.
    So does the whole load of a config with such a block, whatever the
    weight file holds after a complete header. *)
Theorem load_convolutional_bias_raises :
  (forall (model : gmap string keras.layer) (wf : np.file) (block_index : nat)
          (section : dict value) (c : keras.Conv2D)
          (rest : list (string * dict value)),
     model !! ("conv_" +:+ pretty block_index)%string = Some (keras.conv2d c) ->
     batch_normalize_of section = false ->
     keras.use_bias c = true ->
     load_blocks model wf block_index (("convolutional"%string, section) :: rest)
     = Raise AttributeError) /\
  (let lines := ["[net]"; "channels=3"; "[convolutional]"; "filters=1"; "size=1";
                 "stride=1"; "pad=1"; "activation=leaky"]%string in
   exists cfg net section model c,
     parse_cfg lines = Ok cfg /\
     cfg = [("net"%string, net); ("convolutional"%string, section)] /\
     add_conv_or_local ∅ 1 3 true section = Ok model /\
     model !! "conv_1"%string = Some (keras.conv2d c) /\
     keras.use_bias c = true /\
     forall weights : list Z,
       (20 <= length weights)%nat ->
       load_weights cfg model weights = Raise AttributeError).
Proof.
  assert (Hgen : forall (model : gmap string keras.layer) (wf : np.file)
            (block_index : nat) (section : dict value) (c : keras.Conv2D)
            (rest : list (string * dict value)),
            model !! ("conv_" +:+ pretty block_index)%string = Some (keras.conv2d c) ->
            batch_normalize_of section = false ->
            keras.use_bias c = true ->
            load_blocks model wf block_index (("convolutional"%string, section) :: rest)
            = Raise AttributeError).
  { intros model wf block_index section c rest Hconv Hflag Hbias.
    simpl load_blocks. unfold load_block.
    change (String.eqb "convolutional" "convolutional") with true. cbv iota.
    rewrite (load_convolutional_bias model wf block_index section c Hconv Hflag Hbias).
    reflexivity. }
  split; [exact Hgen|].
  cbv zeta. do 5 eexists.
  split; [vm_compute; reflexivity|]. split; [reflexivity|].
  split; [vm_compute; reflexivity|]. split; [vm_compute; reflexivity|].
  split; [reflexivity|].
  intros weights Hlen. unfold load_weights.
  rewrite (parse_header_Ok weights)
    by (cbv zeta; destruct (seen_width_cases
                              (np.decode np.int32 (take 4 weights))
                              (np.decode np.int32 (take 4 (drop 4 weights))))
          as [-> | ->]; lia).
  bind_ok. simpl drop.
  eapply Hgen; [vm_compute; reflexivity | reflexivity | reflexivity].
Qed.

Lemma load_convolutional_bias_raises_witness :
  let conv :=
    {| keras.filters := 1; keras.kernel_size := (1%nat, 1%nat);
       keras.input_channels := 3; keras.use_bias := true;
       keras.conv_weights := None |} in
  let model : gmap string keras.layer := {["conv_2"%string := keras.conv2d conv]} in
  load_blocks model {| np.content := le_bytes32 0x3F800000 ++ replicate 12 0; np.pos := 0 |}
    2 [("convolutional", [("filters", Scalar (Int 1))]); ("maxpool", [])]%string
  = Raise AttributeError.
Proof.
  intros conv model.
  exact (proj1 load_convolutional_bias_raises model
           {| np.content := le_bytes32 0x3F800000 ++ replicate 12 0; np.pos := 0 |}
           2%nat [("filters", Scalar (Int 1))]%string conv
           [("maxpool", [])]%string
           eq_refl eq_refl eq_refl).
Defined.


Lemma parse_cfg_malformed_witness :
  raises (parse_cfg (["[net]"%string; "# a key without a value"%string]
                     ++ "batch_normalize"%string :: ["filters=64"%string])) /\
  raises (parse_cfg (["# no block yet"%string; ""%string]
                     ++ "filters=64"%string :: ["[net]"%string])).
Proof.
  split.
  - apply (proj1 parse_cfg_malformed); [reflexivity | vm_compute; lia].
  - apply (proj1 (proj2 parse_cfg_malformed)); [|reflexivity].
    repeat constructor.
Defined.


(** * Further properties *)

(** ** The grid codec on any box *)

Section GridCodecAnyBox.

Local Open Scope Q_scope.

Lemma inject_Z_nonzero (n : Z) : (n <> 0)%Z -> ~ inject_Z n == 0.
Proof. intros Hn E. apply Hn. unfold Qeq in E. simpl in E. lia. Qed.

Lemma bndbox_to_coords_eval (xmin xmax ymin ymax : Q) (img_width img_height s : Z) :
  (img_width <> 0)%Z -> (img_height <> 0)%Z ->
  let cx := grid_center xmin xmax img_width s in
  let cy := grid_center ymin ymax img_height s in
  bndbox_to_coords (xmin, xmax, ymin, ymax) img_width img_height s
  = Ok (cx - inject_Z (Py.int cx), cy - inject_Z (Py.int cy),
        grid_extent xmin xmax img_width s, grid_extent ymin ymax img_height s,
        Py.int cx, Py.int cy).
Proof.
  intros HW HH. unfold bndbox_to_coords, grid_center, grid_extent.
  repeat (rewrite ?truediv_2, ?truediv_Z by assumption; bind_ok). reflexivity.
Qed.

Lemma bndbox_to_coords_zero (box : bndbox) (img_width img_height s : Z) :
  (img_width = 0)%Z \/ (img_height = 0)%Z ->
  bndbox_to_coords box img_width img_height s = Raise ZeroDivisionError.
Proof.
  destruct box as [[[xmin xmax] ymin] ymax]. unfold bndbox_to_coords.
  rewrite !truediv_2. bind_ok.
  destruct (Z.eq_dec img_width 0%Z) as [->|HW].
  - intros _. rewrite truediv_zero. reflexivity.
  - intros [E| ->]; [contradiction|].
    rewrite !(truediv_Z _ img_width HW). bind_ok. bind_ok.
    rewrite truediv_zero. reflexivity.
Qed.

(** [int] truncates toward zero. *)
Lemma int_ceiling (x : Q) : x <= 0 -> Py.int x = Qceiling x.
Proof.
  destruct x as [n d]. unfold Qle, Py.int, Qceiling, Qfloor. simpl. intros Hn.
  rewrite <- (Z.opp_involutive n) at 1.
  rewrite Z.quot_opp_l by lia. f_equal.
  apply Z.quot_div_nonneg; lia.
Qed.

Lemma int_comp (x y : Q) : x == y -> Py.int x = Py.int y.
Proof.
  intros E. destruct (Qlt_le_dec x 0) as [Hx|Hx].
  - rewrite (int_ceiling x), (int_ceiling y) by lra.
    apply Qceiling_comp, E.
  - rewrite (int_floor x), (int_floor y) by lra. apply Qfloor_comp, E.
Qed.

Lemma int_offset (c : Q) :
  (0 <= c -> Py.int c = Qfloor c /\ 0 <= c - inject_Z (Py.int c) < 1) /\
  (c <= 0 -> Py.int c = Qceiling c /\ -1 < c - inject_Z (Py.int c) <= 0).
Proof.
  split; intros Hc.
  - rewrite (int_floor c Hc). split; [reflexivity|].
    pose proof (Qfloor_le c). pose proof (Qlt_floor c) as Hf.
    rewrite inject_Z_plus in Hf. change (inject_Z 1) with 1 in Hf. lra.
  - rewrite (int_ceiling c Hc). split; [reflexivity|].
    pose proof (Qle_ceiling c). pose proof (Qceiling_lt c) as Hf.
    unfold Z.sub in Hf. rewrite inject_Z_plus, inject_Z_opp in Hf.
    change (inject_Z 1) with 1 in Hf. lra.
Qed.

Lemma round_floor_or_succ (x : Q) :
  Py.round x = Qfloor x \/ Py.round x = (Qfloor x + 1)%Z.
Proof.
  unfold Py.round. destruct (_ ?= _); [destruct (Z.even _)|..]; auto.
Qed.

Lemma round_mono (x y : Q) : x <= y -> (Py.round x <= Py.round y)%Z.
Proof.
  intros Hxy. pose proof (Qfloor_resp_le x y Hxy) as Hf.
  destruct (Z.eq_dec (Qfloor x) (Qfloor y)) as [E|Hne].
  - unfold Py.round. rewrite E.
    destruct (x - inject_Z (Qfloor y) ?= 1 # 2) eqn:Ex;
      destruct (y - inject_Z (Qfloor y) ?= 1 # 2) eqn:Ey;
      first [apply Qeq_alt in Ex | apply Qlt_alt in Ex | apply Qgt_alt in Ex];
      first [apply Qeq_alt in Ey | apply Qlt_alt in Ey | apply Qgt_alt in Ey];
      try (destruct (Z.even (Qfloor y)); lia); try lia; exfalso; lra.
  - destruct (round_floor_or_succ x) as [-> | ->],
             (round_floor_or_succ y) as [-> | ->]; lia.
Qed.

End GridCodecAnyBox.











(** ** Annotations the label codec rejects *)

Lemma preprocess_objects_app (img_width img_height s : Z) (t : np.ndarray Q)
    (l1 l2 : list object) :
  preprocess_objects img_width img_height s t (l1 ++ l2)
  = t' ← preprocess_objects img_width img_height s t l1;
    preprocess_objects img_width img_height s t' l2.
Proof.
  revert t. induction l1 as [|o l1 IH]; intros t; [reflexivity|].
  simpl. destruct (preprocess_object _ _ _ t o) as [t1|e]; [|reflexivity].
  rewrite !bind_Ok. apply IH.
Qed.

Section Validation.

Variables (img_width img_height s : Z) (d : nat).

Local Abbreviation n := (Z.to_nat s).

(** Every object of a loop that ends well has been looked up and
    placed, whether it then claimed its cell or not. *)
Lemma preprocess_objects_valid (objs pre : list object) (t t' : np.ndarray Q) :
  encodes img_width img_height s n d pre t ->
  preprocess_objects img_width img_height s t objs = Ok t' ->
  Forall (fun o => is_Ok (dict_get CLASS_NAME_TO_INDEX (name o)) /\
                   is_Ok (cell_of img_width img_height s o)) objs.
Proof.
  revert pre t. induction objs as [|o objs IH]; intros pre t Henc H; [constructor|].
  simpl in H. apply bind_Ok_inv in H as (t1 & H1 & H).
  constructor.
  - destruct Henc as (Hsh & _).
    destruct (preprocess_object_Ok_inv img_width img_height s d t t1 o Hsh H1)
      as (ci & x & y & w & h & cx & cy & i & j & conf & Hci & Hco & Hi & Hj & _).
    split; [exists ci; exact Hci|].
    exists (i, j). apply (cell_of_Ok _ _ _ o x y w h cx cy i j Hco Hi Hj).
  - apply (IH (pre ++ [o]) t1); [|exact H].
    apply (encodes_step img_width img_height s d pre t t1 o Henc H1).
Qed.

End Validation.

Lemma dict_get_elem {V} (dct : list (string * V)) (key : string) :
  (key ∈ dct.*1 -> is_Ok (dict_get dct key)) /\
  (key ∉ dct.*1 -> dict_get dct key = Raise KeyError).
Proof.
  induction dct as [|[k v] dct [IH1 IH2]]; simpl.
  - split; [intros H; inversion H | reflexivity].
  - destruct (String.eqb_spec k key) as [->|Hne].
    + split; [intros _; exists v; reflexivity|].
      intros H. exfalso. apply H. apply list_elem_of_here.
    + split.
      * intros H. apply elem_of_cons in H as [->|H]; [congruence | auto].
      * intros H. apply IH2. intros Hin. apply H. apply list_elem_of_further, Hin.
Qed.

Lemma class_name_known (class_name : string) :
  is_Ok (dict_get CLASS_NAME_TO_INDEX class_name) <-> class_name ∈ INDEX_TO_CLASS_NAME.
Proof.
  destruct (dict_get_elem CLASS_NAME_TO_INDEX class_name) as [H1 H2].
  split; [|exact H1].
  intros [ci Hci].
  destruct (decide (class_name ∈ INDEX_TO_CLASS_NAME)) as [Hin|Hout]; [exact Hin|].
  rewrite (H2 Hout) in Hci. discriminate Hci.
Qed.

Lemma center_inside_dec (box : bndbox) (img_width img_height : Z) :
  {center_inside box img_width img_height} + {~ center_inside box img_width img_height}.
Proof.
  destruct box as [[[xmin xmax] ymin] ymax]. unfold center_inside.
  destruct (Qlt_le_dec (xmin + xmax) (2 * inject_Z img_width)) as [Hx|Hx];
    [destruct (Qlt_le_dec (ymin + ymax) (2 * inject_Z img_height)) as [Hy|Hy]|].
  - left. auto.
  - right. intros [_ H]. apply (Qlt_not_le _ _ H Hy).
  - right. intros [H _]. apply (Qlt_not_le _ _ H Hx).
Qed.

Section InImage.

Variables (img_width img_height s : Z) (d : nat).

Local Abbreviation n := (Z.to_nat s).

Hypothesis width_pos : 0 < img_width.
Hypothesis height_pos : 0 < img_height.
Hypothesis Hs : 1 <= s.
Hypothesis Hd : (30 <= d)%nat.

(** One object with a known class and a box inside the image: it is
    processed if the centre of its box is inside the grid, and indexes
    the tensor out of bounds if not. *)
Lemma preprocess_object_in_image (pre : list object) (t : np.ndarray Q) (o : object) :
  encodes img_width img_height s n d pre t ->
  is_Ok (dict_get CLASS_NAME_TO_INDEX (name o)) ->
  box_in_image (bndbox_of o) img_width img_height ->
  (center_inside (bndbox_of o) img_width img_height ->
   is_Ok (preprocess_object img_width img_height s t o)) /\
  (~ center_inside (bndbox_of o) img_width img_height ->
   preprocess_object img_width img_height s t o = Raise IndexError).
Proof.
  intros (Hsh & Hlen & Hfound & Hdata) [ci Hci] Hbox.
  destruct (class_index_spec _ _ Hci) as [Hrange _].
  destruct (bndbox_of o) as [[[xmin xmax] ymin] ymax] eqn:Ebox.
  destruct Hbox as (Hx0 & Hx1 & Hx2 & Hy0 & Hy1 & Hy2).
  pose proof (bndbox_to_coords_Ok img_width img_height s width_pos height_pos
                xmin xmax ymin ymax) as Hco.
  cbv zeta in Hco. rewrite <- Ebox in Hco.
  destruct (floor_grid_center s xmin xmax img_width width_pos Hs Hx0 Hx1 Hx2)
    as (_ & _ & _ & Hcx & Hcx').
  destruct (floor_grid_center s ymin ymax img_height height_pos Hs Hy0 Hy1 Hy2)
    as (_ & _ & _ & Hcy & Hcy').
  cbv zeta in Hcx, Hcx', Hcy, Hcy'.
  set (cx := Py.int (grid_center xmin xmax img_width s)) in *.
  set (cy := Py.int (grid_center ymin ymax img_height s)) in *.
  unfold center_inside. split.
  - intros [Hix Hiy]. apply Hcx' in Hix. apply Hcy' in Hiy.
    assert (Hi : np.index n cy = Ok (Z.to_nat cy)).
    { rewrite <- (Z2Nat.id cy) at 1 by lia. apply index_of_nat. lia. }
    assert (Hj : np.index n cx = Ok (Z.to_nat cx)).
    { rewrite <- (Z2Nat.id cx) at 1 by lia. apply index_of_nat. lia. }
    assert (Hconf := Hdata (Z.to_nat cy) (Z.to_nat cx) 0%nat
                       ltac:(lia) ltac:(lia) ltac:(lia)).
    rewrite (preprocess_object_eval img_width img_height s d t o ci _ _ _ _ cx cy
               _ _ _ Hsh Hci Hco Hi Hj ltac:(lia) Hconf).
    destruct (Qeq_bool _ 0); [|eexists; reflexivity].
    rewrite decide_True by lia.
    replace (10 + ci) with (Z.of_nat (Z.to_nat (10 + ci))) by lia.
    rewrite index_of_nat by lia. eexists. reflexivity.
  - intros Hout. unfold preprocess_object. rewrite Hci. bind_ok. rewrite Hco. bind_ok.
    unfold np.item. rewrite Hsh. simpl np.ravel.
    destruct (Z.eq_dec cy s) as [Ey|Ney].
    + rewrite (index_Raise_nonneg n cy) by lia. reflexivity.
    + assert (Hi : np.index n cy = Ok (Z.to_nat cy)).
      { rewrite <- (Z2Nat.id cy) at 1 by lia. apply index_of_nat. lia. }
      rewrite Hi. bind_ok.
      destruct (Z.eq_dec cx s) as [Ex|Nex].
      * rewrite (index_Raise_nonneg n cx) by lia. reflexivity.
      * exfalso. apply Hout. split; [apply Hcx' | apply Hcy']; lia.
Qed.

Lemma preprocess_objects_in_image (objs pre : list object) (t : np.ndarray Q) :
  encodes img_width img_height s n d pre t ->
  Forall (fun o => is_Ok (dict_get CLASS_NAME_TO_INDEX (name o))) objs ->
  Forall (fun o => box_in_image (bndbox_of o) img_width img_height) objs ->
  (Forall (fun o => center_inside (bndbox_of o) img_width img_height) objs ->
   is_Ok (preprocess_objects img_width img_height s t objs)) /\
  (Exists (fun o => ~ center_inside (bndbox_of o) img_width img_height) objs ->
   preprocess_objects img_width img_height s t objs = Raise IndexError).
Proof.
  revert pre t. induction objs as [|o objs IH]; intros pre t Henc Hnames Hboxes.
  - split; [intros _; exists t; reflexivity | intros H; inversion H].
  - apply Forall_cons in Hnames as [Hname Hnames].
    apply Forall_cons in Hboxes as [Hbox Hboxes].
    destruct (preprocess_object_in_image pre t o Henc Hname Hbox) as [Hin Hout].
    simpl preprocess_objects.
    destruct (center_inside_dec (bndbox_of o) img_width img_height) as [Hyes|Hno].
    + destruct (Hin Hyes) as [t1 H1]. rewrite H1. bind_ok.
      destruct (IH (pre ++ [o]) t1) as [IH1 IH2]; try assumption.
      { apply (encodes_step img_width img_height s d pre t t1 o Henc H1). }
      split.
      * intros Hall. apply Forall_cons in Hall as [_ Hall]. auto.
      * intros Hex. apply Exists_cons in Hex as [Hex|Hex]; [contradiction | auto].
    + rewrite (Hout Hno). split; [|reflexivity].
      intros Hall. apply Forall_cons in Hall as [Hyes _]. contradiction.
Qed.

End InImage.

Lemma preprocess_label_valid (lbl : label) (s b c : Z) (t : np.ndarray Q) :
  preprocess_label lbl s b c = Ok t ->
  Forall (fun o => is_Ok (dict_get CLASS_NAME_TO_INDEX (name o)) /\
                   is_Ok (cell_of (width (image_size_of lbl))
                            (height (image_size_of lbl)) s o))
         (objects lbl).
Proof.
  intros H. unfold preprocess_label in H.
  apply bind_Ok_inv in H as (t0 & H0 & H).
  destruct (zeros3_inv _ _ _ H0) as [Hs Hd].
  rewrite (zeros3_Ok _ _ Hs Hd) in H0. injection H0 as <-.
  apply (preprocess_objects_valid _ _ s _ (objects lbl) [] _ t
           (encodes_zeros _ _ _ _ _) H).
Qed.

Lemma mod_index (n : nat) (z : Z) (i : nat) :
  np.index n z = Ok i -> - Z.of_nat n <= z < Z.of_nat n /\ z mod Z.of_nat n = Z.of_nat i.
Proof.
  intros H. apply index_Ok_inv in H as [Hi [->|[Hneg ->]]].
  - split; [lia|]. apply Z.mod_small. lia.
  - split; [lia|].
    replace (Z.of_nat i - Z.of_nat n) with (Z.of_nat i + (-1) * Z.of_nat n) by lia.
    rewrite Z_mod_plus_full. apply Z.mod_small. lia.
Qed.

(** X7: [preprocess_label] looks up the class and the cell of every
    object, also of those it then drops because their cell is taken: if
    it returns a tensor, every object has one of the twenty class names
    and a cell inside the grid; and an object with another name, after
    objects that are processed without error, makes it raise
    [KeyError], whatever its box. *)
Theorem preprocess_label_validates (size : image_size) (s b c : Z) :
  let img_width := width size in
  let img_height := height size in
  (forall (objs : list object) (t : np.ndarray Q),
     preprocess_label {| image_size_of := size; objects := objs |} s b c = Ok t ->
     Forall (fun o => name o ∈ INDEX_TO_CLASS_NAME /\
                      is_Ok (cell_of img_width img_height s o)) objs) /\
  (forall (pre post : list object) (o : object),
     is_Ok (preprocess_label {| image_size_of := size; objects := pre |} s b c) ->
     name o ∉ INDEX_TO_CLASS_NAME ->
     preprocess_label {| image_size_of := size; objects := pre ++ o :: post |} s b c
     = Raise KeyError).
Proof.
  intros img_width img_height. split.
  - intros objs t H. eapply Forall_impl.
    + apply (preprocess_label_valid _ s b c t H).
    + intros o [Hname Hcell]. split; [apply class_name_known, Hname | exact Hcell].
  - intros pre post o [t Hpre] Hname. unfold preprocess_label in *.
    cbn [image_size_of objects] in *.
    destruct (np.zeros [s; s; b * 5 + c]) as [t0|e]; [|discriminate Hpre].
    rewrite bind_Ok in *. rewrite preprocess_objects_app.
    fold img_width img_height in Hpre |- *. rewrite Hpre. bind_ok.
    simpl preprocess_objects. unfold preprocess_object.
    destruct (dict_get_elem CLASS_NAME_TO_INDEX (name o)) as [_ Hout].
    rewrite (Hout Hname). reflexivity.
Qed.

Lemma preprocess_label_validates_witness :
  let size := {| width := 400; height := 400; depth := 3 |} in
  let cat := {| name := "cat"; bndbox_of := (100, 200, 50, 150)%Q |} in
  let fox := {| name := "fox"; bndbox_of := (110, 200, 50, 150)%Q |} in
  preprocess_label {| image_size_of := size; objects := [cat] ++ fox :: [cat] |} 7 2 20
  = Raise KeyError.
Proof.
  intros size cat fox.
  apply (proj2 (preprocess_label_validates size 7 2 20) [cat] [cat] fox).
  - eexists. vm_compute. reflexivity.
  - vm_compute. intros H. repeat (apply elem_of_cons in H as [H|H]; [discriminate H|]).
    inversion H.
Defined.



(** X9: cell indices wrap around like numpy indices.  The first object
    of an annotation that is encoded without error is written into the
    cell [(cell_y mod s, cell_x mod s)]: a box whose centre lies left of
    or above the image, by less than the image's size, is stored in a
    cell counted from the right or from the bottom edge. *)
Theorem preprocess_label_wraps (lbl : label) (s b c : Z) (t : np.ndarray Q)
    (o : object) (rest : list object) (x y w h : Q) (cell_x cell_y : Z) :
  let img_width := width (image_size_of lbl) in
  let img_height := height (image_size_of lbl) in
  preprocess_label lbl s b c = Ok t ->
  objects lbl = o :: rest ->
  bndbox_to_coords (bndbox_of o) img_width img_height s
  = Ok (x, y, w, h, cell_x, cell_y) ->
  - s <= cell_x < s /\ - s <= cell_y < s /\
  np.item t [cell_y mod s; cell_x mod s; 0] = Ok 1%Q /\
  np.getslice t [cell_y mod s; cell_x mod s] 1 (Some 5%nat) = Ok [x; y; w; h].
Proof.
  intros img_width img_height Hok Hobjs Hco.
  pose proof (preprocess_label_encodes lbl s b c t Hok) as Henc.
  pose proof (preprocess_label_valid lbl s b c t Hok) as Hvalid.
  fold img_width img_height in Henc, Hvalid.
  set (d := Z.to_nat (b * 5 + c)) in *.
  pose proof Henc as (Hsh & Hlen & Hfound & Hdata).
  rewrite Hobjs in Hvalid. apply Forall_cons in Hvalid as [[[ci Hci] [[i j] Hc]] _].
  destruct (cell_of_inv _ _ _ _ _ _ Hc)
    as (x' & y' & w' & h' & cx' & cy' & Hco' & Hi & Hj).
  rewrite Hco in Hco'. injection Hco' as <- <- <- <- <- <-.
  destruct (mod_index _ _ _ Hi) as [Hyr Hym].
  destruct (mod_index _ _ _ Hj) as [Hxr Hxm].
  destruct (index_Ok_inv _ _ _ Hi) as [Hin _].
  destruct (index_Ok_inv _ _ _ Hj) as [Hjn _].
  assert (En : Z.of_nat (Z.to_nat s) = s) by lia.
  rewrite En in Hyr, Hym, Hxr, Hxm. rewrite Hym, Hxm.
  pose proof (find_first img_width img_height s [] rest o (i, j) Hc (List.Forall_nil _)) as Hf.
  simpl app in Hf. rewrite <- Hobjs in Hf.
  destruct (Hfound _ _ Hf) as (ci' & Hci' & Hlt).
  assert (ci' = ci) as -> by congruence.
  destruct (class_index_spec _ _ Hci) as [Hrange _].
  assert (Hch : forall k, (k < d)%nat ->
            np.data t !! off3 (Z.to_nat s) d i j k
            = Some (if decide (Z.of_nat k = 10 + ci) then 1%Q
                    else match k with
                         | 0%nat => 1%Q
                         | 1%nat => x
                         | 2%nat => y
                         | 3%nat => w
                         | 4%nat => h
                         | _ => 0%Q
                         end)).
  { intros k Hk. rewrite (Hdata i j k Hin Hjn Hk). unfold expected.
    rewrite Hf. unfold channel_of. rewrite Hci, Hco. reflexivity. }
  split; [lia|]. split; [lia|]. split.
  - change 0 with (Z.of_nat 0).
    rewrite (item3_Ok (Z.to_nat s) d t Hsh _ _ _ i j 0%nat _ (index_of_nat _ i Hin)
               (index_of_nat _ j Hjn) (index_of_nat d 0 ltac:(lia)) (Hch 0%nat ltac:(lia))).
    destruct (decide _); [lia | reflexivity].
  - rewrite (getslice3_Ok (Z.to_nat s) d t Hsh _ _ i j _ 1 (Some 5%nat)
               (index_of_nat _ i Hin) (index_of_nat _ j Hjn) Hch).
    simpl default. rewrite (Nat.min_l 1 d), (Nat.min_l 5 d) by lia.
    simpl. repeat (destruct (decide _); [lia|]). reflexivity.
Qed.

Lemma preprocess_label_wraps_witness :
  let cat := {| name := "cat"; bndbox_of := (-120, -80, 50, 150)%Q |} in
  let lbl := {| image_size_of := {| width := 400; height := 400; depth := 3 |};
                objects := [cat] |} in
  exists t,
    preprocess_label lbl 7 2 20 = Ok t /\
    np.item t [1; 6; 0] = Ok 1%Q /\
    np.getslice t [1; 6] 1 (Some 5%nat)
    = Ok [-600 # 800; 600 # 800; 280 # 400; 700 # 400]%Q.
Proof.
  intros cat lbl.
  destruct (preprocess_label lbl 7 2 20) as [t|e] eqn:E;
    [|vm_compute in E; discriminate].
  exists t. split; [reflexivity|].
  destruct (preprocess_label_wraps lbl 7 2 20 t cat []
              (-600 # 800)%Q (600 # 800)%Q (280 # 400)%Q (700 # 400)%Q (-1) 1
              E eq_refl eq_refl)
    as (_ & _ & H0 & H1).
  split; assumption.
Defined.

(** X10: the class bit is written at channel [10 + class_index]
    whatever [b] is, so the number of channels [b * 5 + c] has to
    exceed it.  For an annotation whose first object has a known class
    and a cell in the grid, [preprocess_label] raises [ValueError] for a
    negative number of channels and for 1 to 4 channels (the slice
    [1:5] is too short for the four coordinates), [IndexError] for 0
    channels and for 5 to [10 + class_index] channels; it returns a
    tensor only if there are more than [10 + class_index] channels. *)
Theorem preprocess_label_depth (lbl : label) (s b c : Z)
    (o : object) (rest : list object) (class_index : Z) :
  let img_width := width (image_size_of lbl) in
  let img_height := height (image_size_of lbl) in
  let channels := b * 5 + c in
  objects lbl = o :: rest ->
  dict_get CLASS_NAME_TO_INDEX (name o) = Ok class_index ->
  is_Ok (cell_of img_width img_height s o) ->
  (channels < 0 -> preprocess_label lbl s b c = Raise ValueError) /\
  (channels = 0 -> preprocess_label lbl s b c = Raise IndexError) /\
  (1 <= channels < 5 -> preprocess_label lbl s b c = Raise ValueError) /\
  (5 <= channels <= 10 + class_index -> preprocess_label lbl s b c = Raise IndexError) /\
  (is_Ok (preprocess_label lbl s b c) -> 10 + class_index < channels).
Proof.
  intros img_width img_height channels Hobjs Hci [[i j] Hc].
  destruct (cell_of_inv _ _ _ _ _ _ Hc) as (x & y & w & h & cx & cy & Hco & Hi & Hj).
  destruct (index_Ok_inv _ _ _ Hi) as [Hin _].
  destruct (index_Ok_inv _ _ _ Hj) as [Hjn _].
  destruct (class_index_spec _ _ Hci) as [Hrange _].
  assert (Hneg : channels < 0 -> preprocess_label lbl s b c = Raise ValueError).
  { intros Hd. unfold preprocess_label, np.zeros. simpl forallb.
    fold channels. destruct (Z.leb_spec 0 channels); [lia|].
    rewrite !andb_false_r. reflexivity. }
  assert (Hstep : 0 <= channels ->
            preprocess_label lbl s b c
            = t ← (if decide (channels = 0) then Raise IndexError
                   else if decide (5 <= channels) then
                          kc ← np.index (Z.to_nat channels) (10 + class_index);
                          Ok (np.mk [Z.to_nat s; Z.to_nat s; Z.to_nat channels]
                                (claim_cell (Z.to_nat s) (Z.to_nat channels)
                                   (replicate (Z.to_nat s * Z.to_nat s * Z.to_nat channels) 0%Q)
                                   i j kc x y w h))
                        else Raise ValueError);
              preprocess_objects img_width img_height s t rest).
  { intros Hd. unfold preprocess_label. fold img_width img_height channels.
    rewrite zeros3_Ok by lia. bind_ok. rewrite Hobjs. simpl preprocess_objects.
    f_equal.
    destruct (decide (channels = 0)) as [E0|Hne].
    - unfold preprocess_object. rewrite Hci. bind_ok. rewrite Hco. bind_ok.
      unfold np.item. cbn [np.shape np.data]. simpl np.ravel.
      rewrite Hi, Hj. bind_ok. bind_ok. rewrite E0. reflexivity.
    - rewrite (preprocess_object_eval img_width img_height s (Z.to_nat channels)
                 (np.mk [Z.to_nat s; Z.to_nat s; Z.to_nat channels]
                    (replicate (Z.to_nat s * Z.to_nat s * Z.to_nat channels) 0%Q)) o
                 class_index x y w h cx cy i j 0%Q eq_refl Hci Hco Hi Hj ltac:(lia)).
      + change (Qeq_bool 0 0) with true. cbv iota.
        destruct (decide (5 <= Z.to_nat channels)%nat), (decide (5 <= channels));
          try lia; reflexivity.
      + cbn [np.data]. apply lookup_replicate_2. apply off3_lt; lia. }
  split; [exact Hneg|]. split.
  { intros Hd. rewrite Hstep by lia. rewrite decide_True by exact Hd. reflexivity. }
  split.
  { intros Hd. rewrite Hstep by lia.
    rewrite decide_False by lia. rewrite decide_False by lia. reflexivity. }
  split.
  { intros Hd. rewrite Hstep by lia.
    rewrite decide_False by lia. rewrite decide_True by lia.
    rewrite index_Raise_nonneg by lia. reflexivity. }
  intros [t Hok].
  destruct (Z.lt_ge_cases channels 0) as [Hlt|Hge].
  { rewrite (Hneg Hlt) in Hok. discriminate Hok. }
  rewrite Hstep in Hok by exact Hge.
  destruct (decide (channels = 0)); [discriminate Hok|].
  destruct (decide (5 <= channels)); [|discriminate Hok].
  destruct (Z.lt_ge_cases (10 + class_index) channels) as [|Hle]; [assumption|].
  rewrite index_Raise_nonneg in Hok by lia. discriminate Hok.
Qed.

Lemma preprocess_label_depth_witness :
  let tv := {| name := "tvmonitor"; bndbox_of := (100, 200, 50, 150)%Q |} in
  let lbl := {| image_size_of := {| width := 400; height := 400; depth := 3 |};
                objects := [tv] |} in
  preprocess_label lbl 7 1 20 = Raise IndexError.
Proof.
  intros tv lbl.
  apply (preprocess_label_depth lbl 7 1 20 tv [] 19 eq_refl eq_refl).
  - eexists. vm_compute. reflexivity.
  - lia.
Defined.

(** ** The order of the objects *)

Lemma off3_surj (n d idx : nat) :
  (idx < n * n * d)%nat ->
  exists i j k, (i < n)%nat /\ (j < n)%nat /\ (k < d)%nat /\ idx = off3 n d i j k.
Proof.
  intros Hidx.
  assert (Hd : d <> 0%nat) by (intros ->; lia).
  assert (Hn : n <> 0%nat) by (intros ->; lia).
  pose proof (Nat.div_mod_eq idx d) as E1.
  pose proof (Nat.mod_upper_bound idx d Hd) as Hk.
  pose proof (Nat.div_mod_eq (idx / d) n) as E2.
  pose proof (Nat.mod_upper_bound (idx / d) n Hn) as Hj.
  assert (Hq : (idx / d < n * n)%nat) by (apply Nat.Div0.div_lt_upper_bound; lia).
  assert (Hi : (idx / d / n < n)%nat) by (apply Nat.Div0.div_lt_upper_bound; lia).
  exists (idx / d / n)%nat, ((idx / d) mod n)%nat, (idx mod d)%nat.
  repeat split; try assumption. unfold off3. lia.
Qed.

Section Distinct.

Variables (img_width img_height s : Z) (d : nat).

Local Abbreviation n := (Z.to_nat s).
Local Abbreviation cell := (cell_of img_width img_height s).

(** Objects in pairwise distinct cells that are still free are all
    written, given room for their class channels. *)
Lemma preprocess_objects_distinct (objs pre : list object) (t : np.ndarray Q) :
  encodes img_width img_height s n d pre t ->
  Forall (fun o => exists class_index,
            dict_get CLASS_NAME_TO_INDEX (name o) = Ok class_index /\
            10 + class_index < Z.of_nat d) objs ->
  Forall (fun o => is_Ok (cell o)) objs ->
  NoDup (cell <$> objs) ->
  Forall (fun o' => cell o' ∉ cell <$> objs) pre ->
  exists t', preprocess_objects img_width img_height s t objs = Ok t'.
Proof.
  revert pre t.
  induction objs as [|o objs IH]; intros pre t Henc Hnames Hcells Hnd Hpre.
  - exists t. reflexivity.
  - apply Forall_cons in Hnames as [(ci & Hci & Hlt) Hnames].
    apply Forall_cons in Hcells as [[[i j] Hc] Hcells].
    rewrite fmap_cons in Hnd. apply NoDup_cons in Hnd as [Ho Hnd].
    destruct (cell_of_inv _ _ _ _ _ _ Hc)
      as (x & y & w & h & cx & cy & Hco & Hi & Hj).
    destruct (index_Ok_inv _ _ _ Hi) as [Hin _].
    destruct (index_Ok_inv _ _ _ Hj) as [Hjn _].
    destruct (class_index_spec _ _ Hci) as [Hrange _].
    pose proof Henc as (Hsh & Hlen & Hfound & Hdata).
    assert (Hfree : find (in_cell img_width img_height s (i, j)) pre = None).
    { destruct (find _ pre) as [o'|] eqn:Hf; [|reflexivity]. exfalso.
      apply find_in_cell_Some in Hf as [Hin' Hc'].
      rewrite Forall_forall in Hpre. apply (Hpre o' Hin').
      rewrite Hc', <- Hc, fmap_cons. apply list_elem_of_here. }
    assert (Hconf : np.data t !! off3 n d i j 0%nat = Some 0%Q).
    { rewrite (Hdata i j 0%nat Hin Hjn) by lia. unfold expected.
      rewrite Hfree. reflexivity. }
    pose proof (preprocess_object_eval img_width img_height s d t o ci x y w h
                  cx cy i j 0%Q Hsh Hci Hco Hi Hj ltac:(lia) Hconf) as Heval.
    change (Qeq_bool 0 0) with true in Heval. cbv iota in Heval.
    destruct (decide (5 <= d)%nat) as [_|]; [|lia].
    replace (10 + ci) with (Z.of_nat (Z.to_nat (10 + ci))) in Heval by lia.
    rewrite index_of_nat in Heval by lia. rewrite bind_Ok in Heval.
    simpl preprocess_objects. rewrite Heval. bind_ok.
    apply (IH (pre ++ [o])).
    + apply (encodes_step img_width img_height s d pre t _ o Henc Heval).
    + exact Hnames.
    + exact Hcells.
    + exact Hnd.
    + apply Forall_app. split.
      * apply Forall_forall. intros o' Hin' Hmem.
        rewrite Forall_forall in Hpre. apply (Hpre o' Hin').
        rewrite fmap_cons. apply list_elem_of_further, Hmem.
      * repeat constructor. exact Ho.
Qed.

(** With one object per cell, what a cell holds does not depend on the
    order of the objects. *)
Lemma expected_perm (objs objs' : list object) (c : nat * nat) (k : nat) :
  objs' ≡ₚ objs -> NoDup (cell <$> objs) ->
  expected img_width img_height s objs' c k = expected img_width img_height s objs c k.
Proof.
  intros Hperm Hnd.
  assert (Hnd' : NoDup (cell <$> objs')) by (rewrite Hperm; exact Hnd).
  unfold expected.
  destruct (find (in_cell img_width img_height s c) objs) as [o|] eqn:Hf.
  - apply find_in_cell_Some in Hf as [Hin Hc].
    rewrite (find_own_cell img_width img_height s objs' Hnd' o c); [reflexivity| |exact Hc].
    rewrite Hperm. exact Hin.
  - destruct (find (in_cell img_width img_height s c) objs') as [o'|] eqn:Hf'; [|reflexivity].
    apply find_in_cell_Some in Hf' as [Hin' Hc'].
    rewrite (find_own_cell img_width img_height s objs Hnd o' c) in Hf; [discriminate| |exact Hc'].
    rewrite <- Hperm. exact Hin'.
Qed.

Lemma encodes_unique (objs objs' : list object) (t t' : np.ndarray Q) :
  objs' ≡ₚ objs -> NoDup (cell <$> objs) ->
  encodes img_width img_height s n d objs t ->
  encodes img_width img_height s n d objs' t' ->
  t' = t.
Proof.
  intros Hperm Hnd (Hsh & Hlen & _ & Hdata) (Hsh' & Hlen' & _ & Hdata').
  destruct t as [sh dat], t' as [sh' dat']. simpl in *. subst sh sh'. f_equal.
  apply list_eq. intros idx.
  destruct (decide (idx < n * n * d)%nat) as [Hlt|Hge].
  - destruct (off3_surj n d idx Hlt) as (i & j & k & Hi & Hj & Hk & ->).
    rewrite (Hdata i j k Hi Hj Hk), (Hdata' i j k Hi Hj Hk). f_equal.
    apply expected_perm; assumption.
  - rewrite !lookup_ge_None_2 by lia. reflexivity.
Qed.

End Distinct.

(** X11: for an annotation whose objects lie in pairwise distinct cells
    the tensor does not depend on the order of the objects: if
    [preprocess_label] returns a tensor, it returns the same tensor for
    every permutation of the objects. *)
Theorem preprocess_label_permutation (lbl lbl' : label) (s b c : Z) (t : np.ndarray Q) :
  let img_width := width (image_size_of lbl) in
  let img_height := height (image_size_of lbl) in
  image_size_of lbl' = image_size_of lbl ->
  objects lbl' ≡ₚ objects lbl ->
  NoDup (cell_of img_width img_height s <$> objects lbl) ->
  preprocess_label lbl s b c = Ok t ->
  preprocess_label lbl' s b c = Ok t.
Proof.
  intros img_width img_height Hsize Hperm Hnd Hok.
  pose proof (preprocess_label_encodes lbl s b c t Hok) as Henc.
  pose proof (preprocess_label_valid lbl s b c t Hok) as Hvalid.
  fold img_width img_height in Henc, Hvalid.
  pose proof Henc as (_ & _ & Hfound & _).
  assert (Hnd' : NoDup (cell_of img_width img_height s <$> objects lbl'))
    by (rewrite Hperm; exact Hnd).
  assert (Hroom : Forall (fun o => exists class_index,
                    dict_get CLASS_NAME_TO_INDEX (name o) = Ok class_index /\
                    10 + class_index < Z.of_nat (Z.to_nat (b * 5 + c))) (objects lbl)).
  { apply Forall_forall. intros o Hin.
    rewrite Forall_forall in Hvalid. destruct (Hvalid o Hin) as [_ [cl Hc]].
    apply (Hfound cl o).
    apply (find_own_cell img_width img_height s (objects lbl) Hnd o cl Hin Hc). }
  unfold preprocess_label in Hok |- *. rewrite Hsize. fold img_width img_height in Hok |- *.
  apply bind_Ok_inv in Hok as (t0 & H0 & _).
  destruct (zeros3_inv _ _ _ H0) as [Hs Hd].
  rewrite zeros3_Ok by assumption. bind_ok.
  destruct (preprocess_objects_distinct img_width img_height s (Z.to_nat (b * 5 + c))
              (objects lbl') [] _ (encodes_zeros _ _ _ _ _)) as [t' Ht'].
  { rewrite Hperm. exact Hroom. }
  { rewrite Hperm. eapply Forall_impl; [exact Hvalid|]. intros o [_ Hc]. exact Hc. }
  { exact Hnd'. }
  { constructor. }
  rewrite Ht'. f_equal.
  apply (encodes_unique img_width img_height s (Z.to_nat (b * 5 + c))
           (objects lbl) (objects lbl') t t' Hperm Hnd Henc).
  apply (encodes_loop _ _ _ _ (objects lbl') [] _ t' (encodes_zeros _ _ _ _ _) Ht').
Qed.

Lemma preprocess_label_permutation_witness :
  let size := {| width := 400; height := 400; depth := 3 |} in
  let cat := {| name := "cat"; bndbox_of := (100, 200, 50, 150)%Q |} in
  let dog := {| name := "dog"; bndbox_of := (10, 21, 50, 150)%Q |} in
  exists t,
    preprocess_label {| image_size_of := size; objects := [cat; dog] |} 7 2 20 = Ok t /\
    preprocess_label {| image_size_of := size; objects := [dog; cat] |} 7 2 20 = Ok t.
Proof.
  intros size cat dog.
  destruct (preprocess_label {| image_size_of := size; objects := [cat; dog] |} 7 2 20)
    as [t|e] eqn:E; [|vm_compute in E; discriminate].
  exists t. split; [reflexivity|].
  apply (preprocess_label_permutation
           {| image_size_of := size; objects := [cat; dog] |}
           {| image_size_of := size; objects := [dog; cat] |} 7 2 20 t).
  - reflexivity.
  - apply Permutation_swap.
  - simpl fmap. apply NoDup_cons. split; [|apply NoDup_singleton].
    rewrite list_elem_of_singleton. vm_compute. discriminate.
  - exact E.
Defined.

(** ** Decoding any tensor *)

Section DecodeAny.

Variables (t : np.ndarray Q) (img_width img_height : Z) (s : nat).

Lemma tensor_to_label_cell_inv (i j : nat) (acc acc' : list object) :
  tensor_to_label_cell t img_width img_height s i j acc = Ok acc' ->
  if confident t (i, j)
  then exists o, decoded_from t img_width img_height s (i, j) o /\ acc' = acc ++ [o]
  else acc' = acc.
Proof.
  unfold tensor_to_label_cell, confident. cbn [fst snd]. cbv zeta.
  destruct (np.item t _) as [conf|]; [|discriminate]. rewrite bind_Ok.
  destruct (Qeq_bool conf 1); [|intros H; injection H as <-; reflexivity].
  destruct (np.getslice t _ 1 _) as [[|x [|y [|w [|h [|]]]]]|] eqn:E1; try discriminate.
  rewrite bind_Ok.
  destruct (coords_to_bndbox _ _ _ _ _ _ _ _ _) as [[[[xmin xmax] ymin] ymax]|] eqn:E2;
    [|discriminate].
  rewrite bind_Ok. cbv beta iota.
  destruct (np.getslice t _ 10 _) as [onehot|] eqn:E3; [|discriminate]. rewrite bind_Ok.
  destruct (np.argmax onehot) as [class_index|] eqn:E4; [|discriminate]. rewrite bind_Ok.
  destruct (INDEX_TO_CLASS_NAME !! class_index) as [class_name|] eqn:E5; [|discriminate].
  intros H. injection H as <-.
  eexists. split; [|reflexivity].
  exists x, y, w, h, xmin, xmax, ymin, ymax, onehot, class_index.
  cbn [fst snd name bndbox_of]. auto 10.
Qed.

(** What holds of the cells visited and the objects found so far holds
    at the end of the loops. *)
Lemma tensor_to_label_rows_invariant (I : list (nat * nat) -> list object -> Prop) :
  (forall visited i j acc acc',
     I visited acc ->
     tensor_to_label_cell t img_width img_height s i j acc = Ok acc' ->
     I (visited ++ [(i, j)]) acc') ->
  forall rows visited acc acc',
    I visited acc ->
    tensor_to_label_rows t img_width img_height s rows acc = Ok acc' ->
    I (visited ++ (i ← rows; j ← seq 0 s; [(i, j)])) acc'.
Proof.
  intros Hstep.
  assert (Hrow : forall i js visited acc acc',
            I visited acc ->
            tensor_to_label_row t img_width img_height s i js acc = Ok acc' ->
            I (visited ++ (j ← js; [(i, j)])) acc').
  { intros i js. induction js as [|j js IH]; intros visited acc acc' HI H.
    - injection H as <-. rewrite app_nil_r. exact HI.
    - simpl in H. apply bind_Ok_inv in H as (acc1 & H1 & H).
      csimpl. rewrite cons_middle, app_assoc.
      apply (IH _ acc1); [|exact H]. apply (Hstep visited i j acc); assumption. }
  intros rows. induction rows as [|i rows IH]; intros visited acc acc' HI H.
  - injection H as <-. rewrite app_nil_r. exact HI.
  - simpl in H. apply bind_Ok_inv in H as (acc1 & H1 & H).
    csimpl. rewrite app_assoc.
    apply (IH _ acc1); [|exact H]. apply (Hrow i _ visited acc); assumption.
Qed.

(** Cells that either pass the objects on or raise [e]: the loops raise
    [e] if one of the cells does, and pass the objects on if none
    does. *)
Lemma tensor_to_label_rows_pass (e : exn) (bad : nat * nat -> bool) (rows : list nat) :
  (forall i j acc, i ∈ rows -> (j < s)%nat ->
     tensor_to_label_cell t img_width img_height s i j acc
     = if bad (i, j) then Raise e else Ok acc) ->
  forall acc,
    tensor_to_label_rows t img_width img_height s rows acc
    = if existsb bad (i ← rows; j ← seq 0 s; [(i, j)]) then Raise e else Ok acc.
Proof.
  assert (Hrow : forall i js acc,
            (forall j acc, j ∈ js ->
               tensor_to_label_cell t img_width img_height s i j acc
               = if bad (i, j) then Raise e else Ok acc) ->
            tensor_to_label_row t img_width img_height s i js acc
            = if existsb bad (j ← js; [(i, j)]) then Raise e else Ok acc).
  { intros i js. induction js as [|j js IH]; intros acc Hcell; [reflexivity|].
    simpl tensor_to_label_row. csimpl.
    rewrite (Hcell j acc) by apply list_elem_of_here.
    destruct (bad (i, j)); [reflexivity|]. bind_ok. simpl orb.
    apply IH. intros j' acc' Hj'. apply Hcell. apply list_elem_of_further, Hj'. }
  induction rows as [|i rows IH]; intros Hcell acc; [reflexivity|].
  simpl tensor_to_label_rows. csimpl. rewrite existsb_app.
  rewrite (Hrow i (seq 0 s) acc).
  - destruct (existsb bad (seq 0 s ≫= _)); [reflexivity|]. bind_ok. simpl orb.
    apply IH. intros i' j acc' Hi'. apply Hcell. apply list_elem_of_further, Hi'.
  - intros j acc' Hj. apply Hcell; [apply list_elem_of_here|].
    apply elem_of_seq in Hj. lia.
Qed.

End DecodeAny.

Lemma confident_lookup (t : np.ndarray Q) (s d i j : nat) :
  np.shape t = [s; s; d] -> length (np.data t) = (s * s * d)%nat ->
  (i < s)%nat -> (j < s)%nat -> (0 < d)%nat ->
  exists conf,
    np.data t !! off3 s d i j 0%nat = Some conf /\
    np.item t [Z.of_nat i; Z.of_nat j; 0] = Ok conf /\
    confident t (i, j) = Qeq_bool conf 1.
Proof.
  intros Hsh Hlen Hi Hj Hd.
  destruct (lookup_lt_is_Some_2 (np.data t) (off3 s d i j 0%nat)) as [conf Hconf].
  { rewrite Hlen. apply off3_lt; assumption. }
  assert (Hitem : np.item t [Z.of_nat i; Z.of_nat j; 0] = Ok conf).
  { apply (item3_Ok s d t Hsh _ _ _ i j 0%nat);
      auto using index_of_nat. apply (index_of_nat d 0 Hd). }
  exists conf. split; [exact Hconf|]. split; [exact Hitem|].
  unfold confident. cbn [fst snd]. rewrite Hitem. reflexivity.
Qed.

Lemma elem_of_cells (s i j : nat) : (i, j) ∈ cells s <-> (i < s)%nat /\ (j < s)%nat.
Proof.
  unfold cells. rewrite list_elem_of_bind. split.
  - intros (i' & H & Hi). apply list_elem_of_bind in H as (j' & H & Hj).
    apply list_elem_of_singleton in H. injection H as -> ->.
    apply elem_of_seq in Hi, Hj. lia.
  - intros [Hi Hj]. exists i. split; [|apply elem_of_seq; lia].
    apply list_elem_of_bind. exists j. split; [|apply elem_of_seq; lia].
    apply list_elem_of_singleton. reflexivity.
Qed.

Lemma existsb_confident (t : np.ndarray Q) (l : list (nat * nat)) :
  (Exists (fun cell => confident t cell = true) l -> existsb (confident t) l = true) /\
  (Forall (fun cell => confident t cell = false) l -> existsb (confident t) l = false).
Proof.
  split.
  - intros H. apply Exists_exists in H as (cell & Hin & Hc).
    apply existsb_exists. exists cell. split; [apply list_elem_of_In, Hin | exact Hc].
  - induction 1 as [|cell l Hc _ IH]; [reflexivity|]. simpl. rewrite Hc, IH. reflexivity.
Qed.

(** X12: what [tensor_to_label] returns.  The image size is the one
    passed in; there is one object for every cell whose confidence is
    exactly 1 and none for any other cell, in row-major order of the
    cells; the box of an object is what [coords_to_bndbox] makes of
    channels 1 to 4 of its cell, with the column as [cell_x] and the row
    as [cell_y], so its coordinates are integers; and its name is the
    class at the first maximum of the channels from 10 on, so it is one
    of the twenty class names. *)
Theorem tensor_to_label_objects (label_tensor : np.ndarray Q)
    (img_width img_height img_depth : Z) (lbl : label) :
  tensor_to_label label_tensor img_width img_height img_depth = Ok lbl ->
  exists (s : nat) (sh : list nat),
    np.shape label_tensor = s :: sh /\
    image_size_of lbl
    = {| width := img_width; height := img_height; depth := img_depth |} /\
    Forall2 (decoded_from label_tensor img_width img_height s)
      (List.filter (confident label_tensor) (cells s)) (objects lbl) /\
    length (objects lbl) = length (List.filter (confident label_tensor) (cells s)) /\
    Forall (fun o => name o ∈ INDEX_TO_CLASS_NAME) (objects lbl).
Proof.
  unfold tensor_to_label. intros H.
  destruct (np.shape label_tensor) as [|s sh]; [discriminate H|].
  apply bind_Ok_inv in H as (objs & Hobjs & H). injection H as <-.
  exists s, sh. split; [reflexivity|]. split; [reflexivity|]. cbn [objects].
  assert (HF : Forall2 (decoded_from label_tensor img_width img_height s)
                 (List.filter (confident label_tensor) (cells s)) objs).
  { apply (tensor_to_label_rows_invariant label_tensor img_width img_height s
             (fun visited acc =>
                Forall2 (decoded_from label_tensor img_width img_height s)
                  (List.filter (confident label_tensor) visited) acc)
             ) with (rows := seq 0 s) (visited := []) (acc := []) (acc' := objs);
      [|constructor|exact Hobjs].
    intros visited i j acc acc' HI Hcell.
    apply tensor_to_label_cell_inv in Hcell.
    rewrite List.filter_app. simpl List.filter.
    destruct (confident label_tensor (i, j)).
    - destruct Hcell as (o & Ho & ->). apply Forall2_app; [exact HI|].
      repeat constructor. exact Ho.
    - subst acc'. rewrite app_nil_r. exact HI. }
  split; [exact HF|]. split; [symmetry; apply (Forall2_length _ _ _ HF)|].
  apply Forall_forall. intros o Hin.
  apply list_elem_of_lookup in Hin as [k Hk].
  destruct (Forall2_lookup_r _ _ _ _ _ HF Hk) as (cell & _ & Hdec).
  destruct Hdec as (x & y & w & h & xmin & xmax & ymin & ymax & onehot & ci
                    & _ & _ & _ & _ & Hname & _).
  apply (list_elem_of_lookup_2 _ ci), Hname.
Qed.

Lemma tensor_to_label_objects_witness :
  let t := np.mk [1; 1; 12]%nat [1; 1 # 2; 1 # 2; 1; 1; 0; 0; 0; 0; 0; 0; 1]%Q in
  exists (lbl : label) (s : nat) (sh : list nat),
    tensor_to_label t 100 100 3 = Ok lbl /\
    np.shape t = s :: sh /\
    image_size_of lbl = {| width := 100; height := 100; depth := 3 |} /\
    Forall2 (decoded_from t 100 100 s) (List.filter (confident t) (cells s)) (objects lbl) /\
    length (objects lbl) = length (List.filter (confident t) (cells s)) /\
    Forall (fun o => name o ∈ INDEX_TO_CLASS_NAME) (objects lbl).
Proof.
  intros t.
  destruct (tensor_to_label t 100 100 3) as [lbl|e] eqn:E;
    [|vm_compute in E; discriminate].
  destruct (tensor_to_label_objects t 100 100 3 lbl E) as (s & sh & H).
  exists lbl, s, sh. split; [reflexivity | exact H].
Defined.

Section Unconfident.

Variables (t : np.ndarray Q) (img_width img_height : Z) (s d : nat).

Hypothesis shape_t : np.shape t = [s; s; d].
Hypothesis length_t : length (np.data t) = (s * s * d)%nat.
Hypothesis depth_pos : (0 < d)%nat.

Lemma tensor_to_label_cell_skip (i j : nat) (acc : list object) :
  (i < s)%nat -> (j < s)%nat -> confident t (i, j) = false ->
  tensor_to_label_cell t img_width img_height s i j acc = Ok acc.
Proof.
  intros Hi Hj Hc.
  destruct (confident_lookup t s d i j shape_t length_t Hi Hj depth_pos)
    as (conf & _ & Hitem & Hconf).
  unfold tensor_to_label_cell. rewrite Hitem. bind_ok.
  rewrite <- Hconf, Hc. reflexivity.
Qed.

(** With at most ten channels a cell of confidence 1 cannot be decoded:
    with fewer than five the slice [1:5] does not hold four values, and
    with five to ten there is no class channel to take the maximum
    of. *)
Lemma tensor_to_label_cell_shallow (i j : nat) (acc : list object) :
  (d <= 10)%nat -> (i < s)%nat -> (j < s)%nat -> confident t (i, j) = true ->
  tensor_to_label_cell t img_width img_height s i j acc = Raise ValueError.
Proof.
  intros Hd Hi Hj Hc.
  destruct (confident_lookup t s d i j shape_t length_t Hi Hj depth_pos)
    as (conf & _ & Hitem & Hconf).
  unfold tensor_to_label_cell. rewrite Hitem. bind_ok.
  rewrite <- Hconf, Hc. cbv iota.
  set (f := fun k => default 0%Q (np.data t !! off3 s d i j k)).
  assert (Hf : forall k, (k < d)%nat -> np.data t !! off3 s d i j k = Some (f k)).
  { intros k Hk. unfold f.
    destruct (lookup_lt_is_Some_2 (np.data t) (off3 s d i j k)) as [v ->]; [|reflexivity].
    rewrite length_t. apply off3_lt; assumption. }
  rewrite (getslice3_Ok s d t shape_t _ _ i j f 1 (Some 5%nat)
             (index_of_nat s i Hi) (index_of_nat s j Hj) Hf).
  bind_ok. simpl default.
  destruct (decide (5 <= d)%nat) as [Hd5|Hd5].
  - rewrite (Nat.min_l 1 d), (Nat.min_l 5 d) by lia. simpl fmap. cbv iota.
    rewrite (coords_to_bndbox_Ok img_width img_height (Z.of_nat s)) by lia.
    cbv zeta. bind_ok.
    rewrite (getslice3_Ok s d t shape_t _ _ i j f 10 None
               (index_of_nat s i Hi) (index_of_nat s j Hj) Hf).
    simpl default. rewrite (Nat.min_r 10 d), Nat.min_id, Nat.sub_diag by lia.
    reflexivity.
  - assert (Hlen : (length (f <$> seq (Nat.min 1 d) (Nat.min 5 d - Nat.min 1 d)) < 4)%nat).
    { rewrite length_fmap, length_seq. lia. }
    destruct (f <$> seq _ _) as [|x [|y [|w [|h [|]]]]]; simpl in Hlen; try lia; reflexivity.
Qed.

End Unconfident.

(** X13: [tensor_to_label] reads nothing but the confidence of a cell
    whose confidence is not exactly 1.  A tensor of shape [(s, s, d)],
    [d >= 1], none of whose confidences is exactly 1 (the all-zero
    tensor, or a prediction with confidences below 1) decodes to an
    annotation without objects, and no error is raised even if [d] is
    too small for a box and a class. *)
Theorem tensor_to_label_unconfident (label_tensor : np.ndarray Q)
    (img_width img_height img_depth : Z) (s d : nat) :
  np.shape label_tensor = [s; s; d] ->
  length (np.data label_tensor) = (s * s * d)%nat ->
  (0 < d)%nat ->
  Forall (fun cell => confident label_tensor cell = false) (cells s) ->
  tensor_to_label label_tensor img_width img_height img_depth
  = Ok {| image_size_of :=
            {| width := img_width; height := img_height; depth := img_depth |};
          objects := [] |}.
Proof.
  intros Hsh Hlen Hd Hall. unfold tensor_to_label. rewrite Hsh.
  rewrite (tensor_to_label_rows_pass label_tensor img_width img_height s ValueError
             (confident label_tensor)).
  - fold (cells s). rewrite (proj2 (existsb_confident label_tensor (cells s)) Hall).
    reflexivity.
  - intros i j acc Hi Hj. apply elem_of_seq in Hi.
    rewrite Forall_forall in Hall.
    rewrite (Hall (i, j)) by (apply elem_of_cells; lia).
    apply (tensor_to_label_cell_skip label_tensor img_width img_height s d Hsh Hlen Hd);
      [lia | exact Hj |].
    apply Hall, elem_of_cells. lia.
Qed.

Lemma tensor_to_label_unconfident_witness :
  tensor_to_label (np.mk [2; 2; 1]%nat [0; 1 # 2; 9 # 10; 2]%Q) 100 80 3
  = Ok {| image_size_of := {| width := 100; height := 80; depth := 3 |};
          objects := [] |}.
Proof.
  apply (tensor_to_label_unconfident _ 100 80 3 2 1); try reflexivity; [lia|].
  repeat constructor.
Defined.

(** X14: a tensor with at most ten channels cannot hold an object: if
    one of its cells has confidence exactly 1, [tensor_to_label] raises
    [ValueError]. *)
Theorem tensor_to_label_shallow (label_tensor : np.ndarray Q)
    (img_width img_height img_depth : Z) (s d : nat) :
  np.shape label_tensor = [s; s; d] ->
  length (np.data label_tensor) = (s * s * d)%nat ->
  (0 < d <= 10)%nat ->
  Exists (fun cell => confident label_tensor cell = true) (cells s) ->
  tensor_to_label label_tensor img_width img_height img_depth = Raise ValueError.
Proof.
  intros Hsh Hlen Hd Hex. unfold tensor_to_label. rewrite Hsh.
  rewrite (tensor_to_label_rows_pass label_tensor img_width img_height s ValueError
             (confident label_tensor)).
  - fold (cells s). rewrite (proj1 (existsb_confident label_tensor (cells s)) Hex).
    reflexivity.
  - intros i j acc Hi Hj. apply elem_of_seq in Hi.
    destruct (confident label_tensor (i, j)) eqn:Hc.
    + apply (tensor_to_label_cell_shallow label_tensor img_width img_height s d
               Hsh Hlen); try lia. exact Hc.
    + apply (tensor_to_label_cell_skip label_tensor img_width img_height s d Hsh Hlen);
        try lia. exact Hc.
Qed.

Lemma tensor_to_label_shallow_witness :
  tensor_to_label
    (np.mk [1; 1; 10]%nat [1; 1 # 2; 1 # 2; 1; 1; 0; 0; 0; 0; 0]%Q) 100 100 3
  = Raise ValueError.
Proof.
  apply (tensor_to_label_shallow _ 100 100 3 1 10); try reflexivity; [lia|].
  repeat constructor.
Defined.

Lemma confident_zeros (s d : nat) (cell : nat * nat) :
  confident (np.mk [s; s; d] (replicate (s * s * d) 0%Q)) cell = false.
Proof.
  unfold confident.
  destruct (np.item _ _) as [conf|] eqn:E; [|reflexivity].
  apply (item3_inv s d (np.mk [s; s; d] (replicate (s * s * d) 0%Q)) eq_refl) in E as (i & j & k & _ & _ & _ & E).
  cbn [np.data] in E. apply lookup_replicate in E as [-> _]. reflexivity.
Qed.

(** X15: the annotation without objects.  [preprocess_label] raises
    [ValueError] for a negative grid size or number of channels, and
    otherwise returns the all-zero tensor of shape
    [(s, s, b * 5 + c)]; [tensor_to_label] turns that tensor back into
    the annotation without objects, except that for a grid with cells
    and no channels at all it raises [IndexError]. *)
Theorem label_roundtrip_empty (size : image_size) (s b c : Z) :
  let lbl := {| image_size_of := size; objects := [] |} in
  let zero := np.mk [Z.to_nat s; Z.to_nat s; Z.to_nat (b * 5 + c)]
                (replicate (Z.to_nat s * Z.to_nat s * Z.to_nat (b * 5 + c)) 0%Q) in
  (s < 0 \/ b * 5 + c < 0 -> preprocess_label lbl s b c = Raise ValueError) /\
  (0 <= s /\ 0 <= b * 5 + c -> preprocess_label lbl s b c = Ok zero) /\
  (s <= 0 \/ 0 < b * 5 + c ->
   tensor_to_label zero (width size) (height size) (depth size) = Ok lbl) /\
  (0 < s /\ b * 5 + c <= 0 ->
   tensor_to_label zero (width size) (height size) (depth size) = Raise IndexError).
Proof.
  intros lbl zero. split; [|split; [|split]].
  - intros Hneg. unfold preprocess_label, np.zeros. simpl forallb.
    destruct (Z.leb_spec 0 s), (Z.leb_spec 0 (b * 5 + c)); try lia; reflexivity.
  - intros [Hs Hd]. unfold preprocess_label. rewrite zeros3_Ok by assumption.
    reflexivity.
  - intros Hcase. unfold tensor_to_label, zero. cbn [np.shape].
    rewrite (tensor_to_label_rows_pass _ (width size) (height size) (Z.to_nat s)
               ValueError (fun _ => false)).
    + replace (existsb _ _) with false
        by (symmetry; apply not_true_is_false; intros H;
            apply existsb_exists in H as (? & _ & ?); discriminate).
      bind_ok. destruct size. reflexivity.
    + intros i j acc Hi Hj. apply elem_of_seq in Hi.
      apply (tensor_to_label_cell_skip zero (width size) (height size) (Z.to_nat s)
               (Z.to_nat (b * 5 + c)) eq_refl); try lia.
      * cbn [np.data]. apply length_replicate.
      * apply confident_zeros.
  - intros [Hs Hd]. unfold tensor_to_label, zero. cbn [np.shape].
    destruct (Z.to_nat s) as [|n] eqn:En; [lia|].
    replace (Z.to_nat (b * 5 + c)) with 0%nat by lia.
    rewrite <- cons_seq. simpl tensor_to_label_rows. reflexivity.
Qed.



(** ** The config parser, line by line *)

Lemma is_Ok_bind {A B} (m : result A) (f : A -> result B) :
  is_Ok (m ≫= f) <-> exists a, m = Ok a /\ is_Ok (f a).
Proof.
  split.
  - intros [b H]. apply bind_Ok_inv in H as (a & Ha & H). exists a. split; [exact Ha|].
    exists b. exact H.
  - intros (a & -> & H). exact H.
Qed.

Lemma line_kinds (line : string) :
  is_skipped line = true \/
  (is_skipped line = false /\ is_header line = true) \/
  (is_skipped line = false /\ is_header line = false /\ is_key_value line = true).
Proof.
  unfold is_header, is_key_value.
  destruct (is_skipped line); [auto|].
  destruct (PyStr.startswith _ "["); simpl; auto.
Qed.

Lemma parse_line_skipped (st : parser_state) (line : string) :
  is_skipped line = true -> parse_line st line = Ok st.
Proof.
  unfold is_skipped, parse_line. cbv zeta. intros ->. reflexivity.
Qed.

Lemma parse_line_header (st : parser_state) (line : string) :
  is_header line = true ->
  parse_line st line
  = Ok {| cfg := cfg st ++ [(PyStr.slice_1_m1 (PyStr.strip line), length (heap st))];
          heap := heap st ++ [[]];
          current_section := Some (length (heap st)) |}.
Proof.
  unfold is_header, is_skipped, parse_line. cbv zeta. intros H.
  apply andb_true_iff in H as [H1 H2]. apply negb_true_iff in H1.
  rewrite H1, H2. reflexivity.
Qed.

Lemma split_two (line : string) :
  (exists key values, PyStr.strip <$> PyStr.split line "=" = [key; values])
  <-> count_char "=" line = 1%nat.
Proof.
  pose proof (split_length line "=") as Hlen.
  rewrite <- (length_fmap PyStr.strip) in Hlen.
  split.
  - intros (key & values & E). rewrite E in Hlen. simpl in Hlen. lia.
  - intros E. rewrite E in Hlen.
    destruct (PyStr.strip <$> PyStr.split line "=") as [|key [|values [|]]];
      try discriminate. eauto.
Qed.

Lemma parse_lines_well_formed (lines : list string) (st : parser_state) :
  is_Ok (parse_lines st lines)
  <-> well_formed (bool_decide (is_Some (current_section st))) lines = true.
Proof.
  revert st. induction lines as [|line lines IH]; intros st.
  - simpl. split; [reflexivity | intros _; eexists; reflexivity].
  - simpl parse_lines. simpl well_formed.
    destruct (line_kinds line) as [Hs|[[Hs Hh]|(Hs & Hh & Hkv)]]; rewrite Hs.
    + rewrite (parse_line_skipped st line Hs). rewrite bind_Ok. apply IH.
    + rewrite Hh, (parse_line_header st line Hh). rewrite bind_Ok.
      rewrite IH. cbn [current_section].
      rewrite bool_decide_eq_true_2 by (eexists; reflexivity). reflexivity.
    + rewrite Hh, (parse_line_key_value st line Hkv).
      pose proof (split_two (PyStr.strip line)) as Htwo.
      destruct (Nat.eqb_spec (count_char "=" (PyStr.strip line)) 1) as [E|Hne].
      * destruct (proj2 Htwo E) as (key & values & ->).
        destruct (current_section st) as [addr|] eqn:Ecur.
        -- rewrite bind_Ok. rewrite IH. cbn [current_section].
           rewrite bool_decide_eq_true_2 by (eexists; reflexivity). reflexivity.
        -- rewrite bind_Raise.
           rewrite bool_decide_eq_false_2 by (intros [? ?]; discriminate).
           simpl. split; [intros [? ?]; discriminate | discriminate].
      * rewrite andb_false_r. simpl.
        split; [|discriminate]. intros [st' H]. exfalso. apply Hne, Htwo.
        destruct (PyStr.strip <$> _) as [|key [|values [|]]]; try discriminate H.
        eauto.
Qed.

(** X17: [parse_cfg] returns the blocks of a config exactly when every
    key/value line of it holds exactly one '=' and comes after a block
    header; blank lines and comments are allowed everywhere, a header
    needs no closing bracket, and a config without any block is
    accepted. *)
Theorem parse_cfg_well_formed (lines : list string) :
  is_Ok (parse_cfg lines) <-> well_formed false lines = true.
Proof.
  unfold parse_cfg. rewrite is_Ok_bind.
  rewrite <- (parse_lines_well_formed lines
                {| cfg := []; heap := []; current_section := None |}).
  split.
  - intros (st & H & _). exists st. exact H.
  - intros [st H]. exists st. split; [exact H|]. eexists. reflexivity.
Qed.

Lemma parse_lines_filter (lines : list string) (st : parser_state) :
  parse_lines st (List.filter (fun line => negb (is_skipped line)) lines)
  = parse_lines st lines.
Proof.
  revert st. induction lines as [|line lines IH]; intros st; [reflexivity|].
  simpl. destruct (is_skipped line) eqn:Hs; simpl.
  - rewrite (parse_line_skipped st line Hs). rewrite bind_Ok. apply IH.
  - destruct (parse_line st line) as [st'|e]; [|reflexivity].
    rewrite !bind_Ok. apply IH.
Qed.

(** X18: blank lines and comment lines, wherever they stand, do not
    change what [parse_cfg] returns or raises. *)
Theorem parse_cfg_skips (lines : list string) :
  parse_cfg (List.filter (fun line => negb (is_skipped line)) lines) = parse_cfg lines.
Proof. unfold parse_cfg. rewrite parse_lines_filter. reflexivity. Qed.

Lemma parse_line_names (st st' : parser_state) (line : string) :
  parse_line st line = Ok st' ->
  fst <$> cfg st' = (fst <$> cfg st) ++ block_names [line].
Proof.
  intros H. unfold block_names. simpl List.filter.
  destruct (line_kinds line) as [Hs|[[Hs Hh]|(Hs & Hh & Hkv)]].
  - rewrite (parse_line_skipped st line Hs) in H. injection H as <-.
    unfold is_header. rewrite Hs. simpl. rewrite app_nil_r. reflexivity.
  - rewrite (parse_line_header st line Hh) in H. injection H as <-.
    rewrite Hh. cbn [cfg]. rewrite fmap_app. reflexivity.
  - rewrite (parse_line_key_value st line Hkv) in H. rewrite Hh.
    destruct (PyStr.strip <$> _) as [|key [|values [|]]]; try discriminate H.
    destruct (current_section st); [|discriminate H].
    injection H as <-. simpl. rewrite app_nil_r. reflexivity.
Qed.

Lemma block_names_cons (line : string) (lines : list string) :
  block_names (line :: lines) = block_names [line] ++ block_names lines.
Proof.
  unfold block_names. simpl. destruct (is_header line); reflexivity.
Qed.

Lemma parse_lines_names (lines : list string) (st st' : parser_state) :
  parse_lines st lines = Ok st' ->
  fst <$> cfg st' = (fst <$> cfg st) ++ block_names lines.
Proof.
  revert st. induction lines as [|line lines IH]; intros st H.
  - injection H as <-. unfold block_names. simpl. rewrite app_nil_r. reflexivity.
  - simpl in H. apply bind_Ok_inv in H as (st1 & H1 & H).
    rewrite (IH _ H), (parse_line_names _ _ _ H1), (block_names_cons line lines), app_assoc.
    reflexivity.
Qed.

(** X19: [parse_cfg] returns one block per header line, in the order of
    the file, each named by its header line stripped of surrounding
    white space and of its first and last character; blocks of the same
    name are kept apart. *)
Theorem parse_cfg_block_names (lines : list string)
    (blocks : list (string * dict value)) :
  parse_cfg lines = Ok blocks ->
  fst <$> blocks = block_names lines /\
  length blocks = length (List.filter is_header lines).
Proof.
  unfold parse_cfg. intros H. apply bind_Ok_inv in H as (st & Hst & H).
  injection H as <-.
  assert (E : fst <$> ((fun '(section_name, addr) =>
                          (section_name, default [] (heap st !! addr))) <$> cfg st)
              = block_names lines).
  { transitivity (fst <$> cfg st).
    - rewrite <- list_fmap_compose. apply list_fmap_ext.
      intros _ [section_name addr] _. reflexivity.
    - rewrite (parse_lines_names _ _ _ Hst). reflexivity. }
  split; [exact E|].
  unfold block_names in E. apply (f_equal length) in E.
  rewrite !length_fmap in E. rewrite length_fmap. exact E.
Qed.

Lemma parse_cfg_block_names_witness :
  fst <$> [("net", [("width", Scalar (Int 416))]); ("convolutional", []);
           ("convolutional", [])]%string
  = block_names ["[net]"; "width=416"; " [convolutional] "; "# c"; "[convolutional]"]%string /\
  length [("net", [("width", Scalar (Int 416))]); ("convolutional", []);
          ("convolutional", [])]%string
  = length (List.filter is_header
              ["[net]"; "width=416"; " [convolutional] "; "# c"; "[convolutional]"]%string).
Proof.
  apply (parse_cfg_block_names
           ["[net]"; "width=416"; " [convolutional] "; "# c"; "[convolutional]"]%string).
  vm_compute. reflexivity.
Defined.

Lemma parse_line_fresh (st st' : parser_state) (line : string) :
  parser_state_fresh st -> parse_line st line = Ok st' -> parser_state_fresh st'.
Proof.
  unfold parser_state_fresh. intros Hst H.
  destruct (line_kinds line) as [Hs|[[Hs Hh]|(Hs & Hh & Hkv)]].
  - rewrite (parse_line_skipped st line Hs) in H. injection H as <-. exact Hst.
  - rewrite (parse_line_header st line Hh) in H. injection H as <-.
    cbn [cfg heap]. rewrite fmap_app, length_app, Hst. simpl.
    rewrite Nat.add_1_r, seq_S. reflexivity.
  - rewrite (parse_line_key_value st line Hkv) in H.
    destruct (PyStr.strip <$> _) as [|key [|values [|]]]; try discriminate H.
    destruct (current_section st); [|discriminate H].
    injection H as <-. cbn [cfg heap]. rewrite length_alter. exact Hst.
Qed.

Lemma parse_lines_fresh (lines : list string) (st st' : parser_state) :
  parser_state_fresh st -> parse_lines st lines = Ok st' -> parser_state_fresh st'.
Proof.
  revert st. induction lines as [|line lines IH]; intros st Hst H.
  - injection H as <-. exact Hst.
  - simpl in H. apply bind_Ok_inv in H as (st1 & H1 & H).
    apply (IH st1); [|exact H]. apply (parse_line_fresh st st1 line Hst H1).
Qed.

Lemma dict_get_set_ne {V} (dct : dict V) (key key' : string) (v : V) :
  key' <> key -> dict_get (dict_set dct key v) key' = dict_get dct key'.
Proof.
  intros Hne. induction dct as [|[k v'] dct IH]; simpl.
  - destruct (String.eqb_spec key key'); [congruence | reflexivity].
  - destruct (String.eqb_spec k key) as [->|Hk]; simpl.
    + destruct (String.eqb_spec key key'); [congruence | reflexivity].
    + destruct (String.eqb k key'); [reflexivity | exact IH].
Qed.

Lemma dict_set_keys {V} (dct : dict V) (key : string) (v : V) :
  fst <$> dict_set dct key v
  = if decide (key ∈ fst <$> dct) then fst <$> dct else (fst <$> dct) ++ [key].
Proof.
  induction dct as [|[k v'] dct IH].
  - destruct (decide (key ∈ fst <$> [])) as [H|_]; [inversion H | reflexivity].
  - cbn [dict_set]. destruct (String.eqb_spec k key) as [->|Hk].
    + destruct (decide (key ∈ fst <$> (key, v') :: dct)) as [_|Hout]; [reflexivity|].
      exfalso. apply Hout. apply list_elem_of_here.
    + rewrite fmap_cons, IH. cbn [fst].
      destruct (decide (key ∈ fst <$> dct)) as [Hin|Hout];
        destruct (decide (key ∈ fst <$> (k, v') :: dct)) as [Hin'|Hout'];
        try reflexivity.
      * exfalso. apply Hout'. apply list_elem_of_further, Hin.
      * exfalso. rewrite fmap_cons in Hin'. cbn [fst] in Hin'.
        apply elem_of_cons in Hin' as [E|H]; [symmetry in E; contradiction | contradiction].
Qed.

(** X20: a key/value line changes one entry of one block.  The blocks
    before the last are what they were before the line, and so are the
    name of the last block and every other key of it; the key of the
    line holds the value of the line, in the place of the earlier value
    if the block had the key already and as the last key if not. *)
Theorem parse_cfg_key_value_frame (before : list string) (line : string)
    (blocks blocks' : list (string * dict value)) :
  is_key_value line = true ->
  parse_cfg before = Ok blocks ->
  parse_cfg (before ++ [line]) = Ok blocks' ->
  exists init section_name section key values,
    PyStr.strip <$> PyStr.split (PyStr.strip line) "=" = [key; values] /\
    let v := pack_values (parse_value <$> (PyStr.strip <$> PyStr.split values ",")) in
    blocks = init ++ [(section_name, section)] /\
    blocks' = init ++ [(section_name, dict_set section key v)] /\
    dict_get (dict_set section key v) key = Ok v /\
    (forall key', key' <> key ->
       dict_get (dict_set section key v) key' = dict_get section key') /\
    fst <$> dict_set section key v
    = if decide (key ∈ fst <$> section) then fst <$> section
      else (fst <$> section) ++ [key].
Proof.
  intros Hkv H1 H2. unfold parse_cfg in H1, H2.
  apply bind_Ok_inv in H1 as (st1 & Hst1 & H1). injection H1 as <-.
  apply bind_Ok_inv in H2 as (st2 & Hst2 & H2). injection H2 as <-.
  rewrite parse_lines_app, Hst1, bind_Ok in Hst2. simpl in Hst2.
  apply bind_Ok_inv in Hst2 as (st2' & Hst2 & E). injection E as ->.
  set (st0 := {| cfg := []; heap := []; current_section := None |}) in *.
  assert (Hok : parser_state_ok st1).
  { apply (parse_lines_ok st0 st1 before); [|exact Hst1]. split; constructor. }
  assert (Hfresh : parser_state_fresh st1).
  { apply (parse_lines_fresh before st0 st1); [reflexivity | exact Hst1]. }
  destruct Hok as [Hcur _]. unfold parser_state_fresh in Hfresh.
  rewrite (parse_line_key_value st1 line Hkv) in Hst2.
  destruct (PyStr.strip <$> PyStr.split (PyStr.strip line) "=")
    as [|key [|values [|]]]; try discriminate Hst2.
  destruct (current_section st1) as [addr|] eqn:Ecur; [|discriminate Hst2].
  injection Hst2 as <-. cbn [cfg heap].
  destruct (last (cfg st1)) as [[section_name addr']|] eqn:Elast; [|discriminate Hcur].
  injection Hcur as ->.
  apply last_Some in Elast as [cfg0 Ecfg]. rewrite Ecfg in Hfresh |- *.
  rewrite fmap_app in Hfresh. simpl in Hfresh.
  assert (Hlen : length (heap st1) = S (length cfg0)).
  { apply (f_equal length) in Hfresh.
    rewrite length_app, length_fmap, length_seq in Hfresh. simpl in Hfresh. lia. }
  rewrite Hlen, seq_S in Hfresh. simpl in Hfresh.
  apply app_inj_tail in Hfresh as [Hcfg0 ->].
  destruct (lookup_lt_is_Some_2 (heap st1) (length cfg0)) as [section Hsection]; [lia|].
  exists ((fun '(section_name, addr) => (section_name, default [] (heap st1 !! addr)))
            <$> cfg0), section_name, section, key, values.
  split; [reflexivity|]. cbv zeta.
  unfold dict in *.
  split; [rewrite fmap_app; simpl; rewrite Hsection; reflexivity|].
  split.
  { rewrite fmap_app. simpl. rewrite list_lookup_alter_eq, Hsection. simpl.
    f_equal. apply list_fmap_ext. intros i [name a] Hi.
    assert (Ha : a = i).
    { assert (Hs : (snd <$> cfg0) !! i = Some a)
        by (rewrite list_lookup_fmap, Hi; reflexivity).
      rewrite Hcfg0 in Hs. apply lookup_seq in Hs. lia. }
    subst a. apply lookup_lt_Some in Hi.
    rewrite list_lookup_alter_ne by lia. reflexivity. }
  split; [apply dict_get_set|].
  split; [intros key' Hne; apply dict_get_set_ne, Hne | apply dict_set_keys].
Qed.

Lemma parse_cfg_key_value_frame_witness :
  exists init section_name section key values,
    PyStr.strip <$> PyStr.split (PyStr.strip "size = 5") "=" = [key; values] /\
    let v := pack_values (parse_value <$> (PyStr.strip <$> PyStr.split values ",")) in
    [("net", [("width", Scalar (Int 416))]);
     ("convolutional", [("size", Scalar (Int 3)); ("stride", Scalar (Int 1))])]%string
    = init ++ [(section_name, section)] /\
    [("net", [("width", Scalar (Int 416))]);
     ("convolutional", [("size", Scalar (Int 5)); ("stride", Scalar (Int 1))])]%string
    = init ++ [(section_name, dict_set section key v)] /\
    dict_get (dict_set section key v) key = Ok v /\
    (forall key', key' <> key ->
       dict_get (dict_set section key v) key' = dict_get section key') /\
    fst <$> dict_set section key v
    = if decide (key ∈ fst <$> section) then fst <$> section
      else (fst <$> section) ++ [key].
Proof.
  apply (parse_cfg_key_value_frame
           ["[net]"; "width=416"; "[convolutional]"; "size=3"; "stride=1"]%string
           "size = 5"%string); reflexivity.
Defined.

(** X21: a header line opens a new, empty block after the blocks there
    are and leaves these as they are, also when a block of that name
    exists already. *)
Theorem parse_cfg_header_appends (before : list string) (line : string)
    (blocks : list (string * dict value)) :
  is_header line = true ->
  parse_cfg before = Ok blocks ->
  parse_cfg (before ++ [line])
  = Ok (blocks ++ [(PyStr.slice_1_m1 (PyStr.strip line), [])]).
Proof.
  intros Hh H. unfold parse_cfg in H |- *.
  apply bind_Ok_inv in H as (st1 & Hst1 & H). injection H as <-.
  rewrite parse_lines_app, Hst1. bind_ok. simpl parse_lines.
  rewrite (parse_line_header st1 line Hh). bind_ok. bind_ok. cbn [cfg heap].
  assert (Hok : parser_state_ok st1).
  { apply (parse_lines_ok {| cfg := []; heap := []; current_section := None |}
             st1 before); [|exact Hst1]. split; constructor. }
  destruct Hok as [_ Hall]. unfold dict in *.
  rewrite fmap_app. simpl. rewrite lookup_app_r by lia.
  rewrite Nat.sub_diag. simpl. do 2 f_equal.
  apply list_fmap_ext. intros i [section_name addr] Hi.
  rewrite Forall_forall in Hall.
  pose proof (Hall _ (list_elem_of_lookup_2 _ _ _ Hi)) as Hlt. simpl in Hlt.
  rewrite lookup_app_l by exact Hlt. reflexivity.
Qed.

Lemma parse_cfg_header_appends_witness :
  parse_cfg (["[net]"; "width=416"; "[convolutional]"; "size=3"]%string
             ++ [" [convolutional] "%string])
  = Ok ([("net", [("width", Scalar (Int 416))]);
         ("convolutional", [("size", Scalar (Int 3))])]%string
        ++ [(PyStr.slice_1_m1 (PyStr.strip " [convolutional] "), [])]).
Proof.
  apply (parse_cfg_header_appends
           ["[net]"; "width=416"; "[convolutional]"; "size=3"]%string
           " [convolutional] "%string); reflexivity.
Defined.

(** ** Integers in decimal *)

Lemma digit_char (x : N) :
  (x < 10)%N ->
  PyStr.is_digit (pretty_N_char x) = true /\
  PyStr.digit_value (pretty_N_char x) = Z.of_N x.
Proof.
  intros Hx.
  assert (x = 0 \/ x = 1 \/ x = 2 \/ x = 3 \/ x = 4 \/ x = 5 \/ x = 6 \/ x = 7
          \/ x = 8 \/ x = 9)%N as H by lia.
  repeat (destruct H as [->|H]; [split; reflexivity|]). subst x. split; reflexivity.
Qed.

Lemma digit_not_sign (c : ascii) :
  PyStr.is_digit c = true ->
  PyStr.is_space c = false /\ Ascii.eqb c "-" = false /\ Ascii.eqb c "+" = false.
Proof.
  destruct c as [[] [] [] [] [] [] [] []]; vm_compute; intros H;
    try discriminate H; repeat split.
Qed.

(** The decimal digits of a positive number, read back. *)
Lemma digits_from_pretty (x : N) :
  (0 < x)%N ->
  forall s : string,
  exists (d : ascii) (rest : list ascii) (k : nat),
    list_ascii_of_string (pretty_N_go x s) = d :: rest /\
    PyStr.is_digit d = true /\
    (forall c, c ∈ d :: rest ->
       PyStr.is_digit c = true \/ c ∈ list_ascii_of_string s) /\
    forall acc n,
      PyStr.digits_from acc n (d :: rest)
      = PyStr.digits_from (acc * 10 ^ Z.of_nat k + Z.of_N x) (n + k)
          (list_ascii_of_string s).
Proof.
  induction (N.lt_wf_0 x) as [x _ IH]. intros Hx s.
  rewrite pretty_N_go_step by exact Hx.
  destruct (digit_char (x mod 10)%N) as [Hdig Hval]; [apply N.mod_lt; lia|].
  set (c := pretty_N_char (x mod 10)%N) in *.
  destruct (N.eq_dec (x / 10)%N 0%N) as [E0|Hne].
  - rewrite E0, pretty_N_go_0. exists c, (list_ascii_of_string s), 1%nat.
    split; [reflexivity|]. split; [exact Hdig|]. split.
    + intros c' Hc'. apply elem_of_cons in Hc' as [->|Hc']; auto.
    + intros acc n. cbn [PyStr.digits_from]. rewrite Hdig, Hval.
      pose proof (N.div_mod x 10%N ltac:(lia)) as Hdm. rewrite E0 in Hdm.
      f_equal; [|lia]. change (10 ^ Z.of_nat 1) with 10. lia.
  - destruct (IH (x / 10)%N) with (s := String c s) as (d & rest & k & Hd & Hdd & Hall & Hk).
    { apply N.div_lt; lia. }
    { apply N.neq_0_lt_0, Hne. }
    exists d, rest, (S k). split; [exact Hd|]. split; [exact Hdd|]. split.
    + intros c' Hc'. destruct (Hall c' Hc') as [H|H]; [left; exact H|].
      simpl in H. apply elem_of_cons in H as [->|H]; auto.
    + intros acc n. rewrite Hk. cbn [list_ascii_of_string PyStr.digits_from].
      rewrite Hdig, Hval.
      pose proof (N.div_mod x 10%N ltac:(lia)) as Hdm.
      f_equal; [|lia].
      rewrite Nat2Z.inj_succ, Z.pow_succ_r by lia. lia.
Qed.

Lemma lstrip_digit (c : ascii) (cs : list ascii) :
  PyStr.is_space c = false -> PyStr.lstrip (c :: cs) = c :: cs.
Proof. intros H. simpl. rewrite H. reflexivity. Qed.

Lemma strip_chars_id (cs : list ascii) :
  (forall c, head cs = Some c -> PyStr.is_space c = false) ->
  (forall c, last cs = Some c -> PyStr.is_space c = false) ->
  PyStr.strip_chars cs = cs.
Proof.
  intros Hhead Hlast. unfold PyStr.strip_chars.
  destruct cs as [|c cs]; [reflexivity|].
  rewrite lstrip_digit by (apply Hhead; reflexivity).
  destruct (exists_last (l := c :: cs) ltac:(discriminate)) as (init & l & E).
  rewrite E in Hlast |- *. rewrite rev_app_distr. simpl rev at 2. simpl app at 1.
  rewrite lstrip_digit by (apply Hlast, last_snoc).
  simpl rev. rewrite rev_involutive. reflexivity.
Qed.

Lemma int_pretty_N (x : N) :
  (0 < x)%N ->
  exists d rest,
    list_ascii_of_string (pretty_N_go x "") = d :: rest /\
    PyStr.is_digit d = true /\
    (forall c, c ∈ d :: rest -> PyStr.is_digit c = true) /\
    exists k, PyStr.digitpart (d :: rest) = Some (Z.of_N x, k, []).
Proof.
  intros Hx. destruct (digits_from_pretty x Hx "") as (d & rest & k & Hd & Hdd & Hall & Hk).
  exists d, rest. split; [exact Hd|]. split; [exact Hdd|]. split.
  - intros c Hc. destruct (Hall c Hc) as [H|H]; [exact H | inversion H].
  - exists (0 + k)%nat. unfold PyStr.digitpart. rewrite Hdd.
    specialize (Hk 0 0%nat). cbn [PyStr.digits_from] in Hk. rewrite Hdd in Hk.
    replace (10 * 0 + PyStr.digit_value d) with (PyStr.digit_value d) in Hk by lia.
    rewrite Hk. simpl. do 3 f_equal.
Qed.

Lemma last_digit (d : ascii) (rest : list ascii) (c : ascii) :
  (forall c', c' ∈ d :: rest -> PyStr.is_digit c' = true) ->
  last (d :: rest) = Some c -> PyStr.is_space c = false.
Proof.
  intros Hall Hc. apply digit_not_sign, Hall.
  rewrite last_lookup in Hc. apply (list_elem_of_lookup_2 _ _ _ Hc).
Qed.


(** ** The weight loader, block after block *)

Lemma conv_name_inj (i j : nat) :
  ("conv_" +:+ pretty i)%string = ("conv_" +:+ pretty j)%string -> i = j.
Proof. simpl. intros H. injection H as H. apply (inj pretty), H. Qed.

Lemma batchnorm_name_inj (i j : nat) :
  ("batchnorm_" +:+ pretty i)%string = ("batchnorm_" +:+ pretty j)%string -> i = j.
Proof. simpl. intros H. injection H as H. apply (inj pretty), H. Qed.

Lemma conv_batchnorm_names (i j : nat) :
  ("conv_" +:+ pretty i)%string <> ("batchnorm_" +:+ pretty j)%string.
Proof. simpl. discriminate. Qed.

Lemma fromfile_file (wf : np.file) (dt : np.dtype) (count : nat) :
  let wf' := snd (np.fromfile wf dt count) in
  np.content wf' = np.content wf /\
  ((np.pos wf <= length (np.content wf))%nat ->
   (np.pos wf <= np.pos wf' <= length (np.content wf))%nat).
Proof. unfold np.fromfile. cbn [snd np.content np.pos]. split; [reflexivity | lia]. Qed.

Lemma fromfile_length (wf : np.file) (dt : np.dtype) (count : nat) :
  let a := fst (np.fromfile wf dt count) in
  np.shape a = [length (np.data a)] /\
  length (np.data a)
  = Nat.min count ((length (np.content wf) - np.pos wf) / np.itemsize dt).
Proof.
  unfold np.fromfile. cbn [fst np.shape np.data].
  rewrite length_fmap, chunks_length, length_drop. split; reflexivity.
Qed.

Lemma set_weights_config (l l' : keras.layer) (ws : list (np.ndarray Z)) :
  keras.set_weights l ws = Ok l' -> layer_config l' = layer_config l.
Proof.
  unfold keras.set_weights. destruct (decide _); [|discriminate].
  intros H. injection H as <-. destruct l; reflexivity.
Qed.

Section Preserved.

Variables (block_index : nat).

Local Abbreviation conv_name := ("conv_" +:+ pretty block_index)%string.
Local Abbreviation bn_name := ("batchnorm_" +:+ pretty block_index)%string.

Lemma insert_preserves (model : gmap string keras.layer) (layer_name : string)
    (l l' : keras.layer) :
  model !! layer_name = Some l -> layer_config l' = layer_config l ->
  (forall other,
     layer_config <$> <[layer_name := l']> model !! other
     = layer_config <$> model !! other) /\
  (forall other, other <> layer_name ->
     <[layer_name := l']> model !! other = model !! other).
Proof.
  intros Hl Hc. split.
  - intros other. destruct (decide (other = layer_name)) as [->|Hne].
    + rewrite lookup_insert_eq, Hl. simpl. f_equal. exact Hc.
    + rewrite lookup_insert_ne by congruence. reflexivity.
  - intros other Hne. apply lookup_insert_ne. congruence.
Qed.

Lemma load_batchnorm_preserves (model model' : gmap string keras.layer)
    (wf wf' : np.file) (filters : nat) :
  load_batchnorm model wf block_index filters = Ok (model', wf') ->
  step_preserves [bn_name] model wf model' wf'.
Proof.
  unfold load_batchnorm, np.fromfile. cbn [np.content np.pos]. intros H.
  apply bind_Ok_inv in H as (l & Hl & H).
  apply bind_Ok_inv in H as (l' & Hl' & H). injection H as <- <-.
  unfold keras.get_layer in Hl.
  destruct (model !! bn_name) as [l0|] eqn:E; [|discriminate Hl]. injection Hl as ->.
  destruct (insert_preserves model bn_name l l' E (set_weights_config _ _ _ Hl'))
    as [Hconfig Hframe].
  split; [reflexivity|]. split; [cbn [np.content np.pos]; lia|].
  split; [exact Hconfig|].
  intros other Hother. apply Hframe. intros ->. apply Hother, list_elem_of_here.
Qed.

Lemma step_preserves_trans (names1 names2 : list string)
    (m1 m2 m3 : gmap string keras.layer) (w1 w2 w3 : np.file) :
  step_preserves names1 m1 w1 m2 w2 -> step_preserves names2 m2 w2 m3 w3 ->
  step_preserves (names1 ++ names2) m1 w1 m3 w3.
Proof.
  intros (Hc1 & Hp1 & Hk1 & Hf1) (Hc2 & Hp2 & Hk2 & Hf2).
  split; [congruence|]. split.
  { intros Hpos. rewrite Hc1 in Hp2. specialize (Hp1 Hpos). lia. }
  split.
  { intros layer_name. rewrite Hk2. apply Hk1. }
  intros layer_name Hout. rewrite Hf2, Hf1; [reflexivity| |];
    intros Hin; apply Hout, elem_of_app; auto.
Qed.

Lemma step_preserves_refl (model : gmap string keras.layer) (wf : np.file) :
  step_preserves [] model wf model wf.
Proof. repeat split; auto; lia. Qed.

Lemma load_convolutional_preserves (model model' : gmap string keras.layer)
    (wf wf' : np.file) (section : dict value) :
  load_convolutional model wf block_index section = Ok (model', wf') ->
  step_preserves [bn_name; conv_name] model wf model' wf'.
Proof.
  unfold load_convolutional. intros H.
  apply bind_Ok_inv in H as (l & Hl & H).
  destruct l as [c|b]; [|discriminate H].
  apply bind_Ok_inv in H as ([model1 wf1] & H1 & H).
  assert (P1 : step_preserves [bn_name] model wf model1 wf1).
  { destruct (batch_normalize_of section).
    - apply (load_batchnorm_preserves _ _ _ _ _ H1).
    - injection H1 as <- <-. destruct (step_preserves_refl model wf) as (?&?&?&?).
      repeat split; auto. }
  apply bind_Ok_inv in H as (bias & _ & H).
  unfold np.fromfile in H. cbn [np.content np.pos] in H.
  apply bind_Ok_inv in H as (dk & _ & H).
  apply bind_Ok_inv in H as (kernel & _ & H).
  apply bind_Ok_inv in H as (l' & Hl' & H). injection H as <- <-.
  apply (step_preserves_trans [bn_name] [conv_name] model model1 _ wf wf1 _ P1).
  destruct P1 as (_ & _ & Hk1 & _).
  unfold keras.get_layer in Hl.
  destruct (model !! conv_name) as [l0|] eqn:E; [|discriminate Hl]. injection Hl as ->.
  assert (E1 : exists l1, model1 !! conv_name = Some l1 /\
                          layer_config l1 = layer_config (keras.conv2d c)).
  { specialize (Hk1 conv_name). rewrite E in Hk1.
    destruct (model1 !! conv_name) as [l1|]; [|discriminate Hk1].
    injection Hk1 as Hk1. eauto. }
  destruct E1 as (l1 & E1 & Hc1).
  destruct (insert_preserves model1 conv_name l1 l' E1) as [Hconfig Hframe].
  { rewrite (set_weights_config _ _ _ Hl'). symmetry. exact Hc1. }
  split; [reflexivity|]. split; [cbn [np.content np.pos]; lia|].
  split; [exact Hconfig|].
  intros other Hother. apply Hframe. intros ->. apply Hother, list_elem_of_here.
Qed.

End Preserved.

Lemma parse_header_eval (wf : np.file) :
  let major := np.decode np.int32 (take 4 (drop (np.pos wf) (np.content wf))) in
  let minor := np.decode np.int32 (take 4 (drop (np.pos wf + 4) (np.content wf))) in
  (length (np.content wf) < np.pos wf + 12 ->
   parse_header wf = Raise ValueError)%nat /\
  (np.pos wf + 12 <= length (np.content wf) ->
   parse_header wf
   = Ok {| np.content := np.content wf;
           np.pos := Nat.min (np.pos wf + 12 + seen_width major minor)
                       (length (np.content wf)) |})%nat.
Proof.
  intros major minor. split.
  - intros Hlen. unfold parse_header.
    pose proof (fromfile_length wf np.int32 3) as [_ Hl].
    destruct (np.fromfile wf np.int32 3) as [header wf1]. cbn [fst] in Hl.
    cbn [np.itemsize] in Hl.
    assert (Hdiv : ((length (np.content wf) - np.pos wf) / 4 < 3)%nat)
      by (apply Nat.Div0.div_lt_upper_bound; lia).
    destruct (np.data header) as [|a [|b [|c [|]]]]; cbn [length] in Hl; try lia;
      reflexivity.
  - intros Hlen. unfold parse_header.
    rewrite fromfile_full by (cbn [np.itemsize]; lia).
    cbn [np.data np.itemsize]. unfold items_at.
    cbn [np.itemsize np.chunks fmap list_fmap].
    rewrite drop_drop. fold major minor.
    pose proof (version_sum_exact (take 4 (drop (np.pos wf) (np.content wf)))
                  (take 4 (drop (np.pos wf + 4) (np.content wf)))) as Hsum.
    cbv zeta in Hsum. fold major minor in Hsum. rewrite Hsum.
    unfold np.fromfile, seen_width. cbn [np.content np.pos].
    destruct (_ && _); cbn [np.itemsize]; do 2 f_equal; lia.
Qed.

Lemma parse_header_inv (wf wf' : np.file) :
  parse_header wf = Ok wf' ->
  np.content wf' = np.content wf /\
  (np.pos wf + 12 <= np.pos wf' <= length (np.content wf))%nat.
Proof.
  intros H. destruct (parse_header_eval wf) as [Hshort Hfull]. cbv zeta in Hfull.
  destruct (Nat.lt_ge_cases (length (np.content wf)) (np.pos wf + 12)) as [Hlt|Hge].
  - rewrite (Hshort Hlt) in H. discriminate H.
  - rewrite (Hfull Hge) in H. injection H as <-. cbn [np.content np.pos].
    split; [reflexivity|].
    unfold seen_width. destruct (_ && _); lia.
Qed.

Lemma load_blocks_preserves (blocks : list (string * dict value))
    (model model' : gmap string keras.layer) (wf wf' : np.file) (block_index : nat) :
  load_blocks model wf block_index blocks = Ok (model', wf') ->
  step_preserves (loaded_layers block_index blocks) model wf model' wf'.
Proof.
  revert model wf block_index.
  induction blocks as [|[block_name section] blocks IH]; intros model wf block_index H.
  - injection H as <- <-. apply step_preserves_refl.
  - simpl in H. apply bind_Ok_inv in H as ([model1 wf1] & H1 & H).
    simpl loaded_layers.
    apply (step_preserves_trans _ _ model model1 model' wf wf1 wf'); [|apply IH, H].
    destruct (String.eqb block_name "convolutional").
    + apply (load_convolutional_preserves _ _ _ _ _ _ H1).
    + injection H1 as <- <-. apply step_preserves_refl.
Qed.

Lemma elem_of_loaded_layers (blocks : list (string * dict value))
    (block_index : nat) (layer_name : string) :
  layer_name ∈ loaded_layers block_index blocks ->
  exists k section,
    blocks !! k = Some ("convolutional"%string, section) /\
    (layer_name = ("conv_" +:+ pretty (block_index + k)%nat)%string \/
     layer_name = ("batchnorm_" +:+ pretty (block_index + k)%nat)%string).
Proof.
  revert block_index.
  induction blocks as [|[block_name section] blocks IH]; intros block_index H.
  - inversion H.
  - simpl in H. apply elem_of_app in H as [H|H].
    + destruct (String.eqb_spec block_name "convolutional") as [->|]; [|inversion H].
      exists 0%nat, section. rewrite Nat.add_0_r. split; [reflexivity|].
      apply elem_of_cons in H as [->|H]; [right; reflexivity|].
      apply list_elem_of_singleton in H as ->. left. reflexivity.
    + destruct (IH _ H) as (k & section' & Hk & Hname).
      exists (S k), section'. split; [exact Hk|].
      replace (block_index + S k)%nat with (S block_index + k)%nat by lia. exact Hname.
Qed.

(** X24: the loader writes only into the layers [conv_<i>] and
    [batchnorm_<i>] of the convolutional blocks [i >= 1] of the config.
    Every other layer is after the load what it was before: the layers
    of local and connected blocks, whose weights are in the file but
    are never read, and the layers of block 0, which the loop skips. *)
Theorem load_weights_frame (cfg : list (string * dict value))
    (model model' : gmap string keras.layer) (weights : list Z) (wf' : np.file)
    (layer_name : string) :
  load_weights cfg model weights = Ok (model', wf') ->
  (forall (block_index : nat) (section : dict value),
     (1 <= block_index)%nat ->
     cfg !! block_index = Some ("convolutional"%string, section) ->
     layer_name <> ("conv_" +:+ pretty block_index)%string /\
     layer_name <> ("batchnorm_" +:+ pretty block_index)%string) ->
  model' !! layer_name = model !! layer_name.
Proof.
  unfold load_weights. intros H Hname.
  apply bind_Ok_inv in H as (wf & _ & H).
  destruct (load_blocks_preserves _ _ _ _ _ _ H) as (_ & _ & _ & Hframe).
  apply Hframe. intros Hin.
  apply elem_of_loaded_layers in Hin as (k & section & Hk & Hl).
  rewrite lookup_drop in Hk.
  destruct (Hname (1 + k)%nat section ltac:(lia) Hk) as [H1 H2].
  destruct Hl; contradiction.
Qed.

Lemma load_weights_frame_witness :
  let conv := {| keras.filters := 2; keras.kernel_size := (1%nat, 3%nat);
                 keras.input_channels := 1; keras.use_bias := false;
                 keras.conv_weights := None |} in
  let model : gmap string keras.layer :=
    <["conv_0"%string := keras.conv2d conv]> (<["conv_1"%string := keras.conv2d conv]>
      (<["batchnorm_1"%string :=
           keras.batchnorm {| keras.features := 2; keras.bn_weights := None |}]> ∅)) in
  let cfg := [("convolutional", []);
              ("convolutional", [("batch_normalize", Scalar (Int 1))]);
              ("connected", [])]%string in
  exists model' wf',
    load_weights cfg model (replicate 16 0 ++ mjoin (le_bytes32 <$> seqZ 1 14))
    = Ok (model', wf') /\
    model' !! "conv_0"%string = model !! "conv_0"%string.
Proof.
  intros conv model cfg.
  destruct (load_weights cfg model (replicate 16 0 ++ mjoin (le_bytes32 <$> seqZ 1 14)))
    as [[model' wf']|e] eqn:E; [|vm_compute in E; discriminate].
  exists model', wf'. split; [reflexivity|].
  apply (load_weights_frame cfg model model' _ wf' "conv_0"%string E).
  intros [|[|[|k]]] section Hk Hblock; try lia; try discriminate Hblock.
  split; vm_compute; discriminate.
Defined.

(** X25: loading weights changes weights only.  After a load that ends
    well the model has the layers it had, each with the filters, kernel
    size, input channels, bias flag or features it had; the content of
    the file is untouched, and the cursor has moved forward and not
    past the end of the file. *)
Theorem load_weights_config (cfg : list (string * dict value))
    (model model' : gmap string keras.layer) (weights : list Z) (wf' : np.file) :
  load_weights cfg model weights = Ok (model', wf') ->
  (forall layer_name,
     layer_config <$> model' !! layer_name = layer_config <$> model !! layer_name) /\
  dom model' = dom model /\
  np.content wf' = weights /\
  (12 <= np.pos wf' <= length weights)%nat.
Proof.
  unfold load_weights. intros H.
  apply bind_Ok_inv in H as (wf & Hhdr & H).
  destruct (load_blocks_preserves _ _ _ _ _ _ H) as (Hcontent & Hpos & Hconfig & _).
  assert (Hwf : np.content wf = weights /\ (12 <= np.pos wf <= length weights)%nat).
  { apply parse_header_inv in Hhdr. cbn [np.content np.pos] in Hhdr.
    destruct Hhdr as [-> ?]. split; [reflexivity | lia]. }
  destruct Hwf as [Hc Hp].
  split; [exact Hconfig|]. split.
  { apply set_eq. intros layer_name. rewrite !elem_of_dom.
    specialize (Hconfig layer_name).
    destruct (model' !! layer_name), (model !! layer_name); try discriminate Hconfig;
      split; intros [? ?]; try discriminate; eauto. }
  split; [congruence|].
  rewrite Hc in Hpos. specialize (Hpos ltac:(lia)). lia.
Qed.

Lemma load_weights_config_witness :
  let conv := {| keras.filters := 2; keras.kernel_size := (1%nat, 3%nat);
                 keras.input_channels := 1; keras.use_bias := false;
                 keras.conv_weights := None |} in
  let model : gmap string keras.layer :=
    <["conv_1"%string := keras.conv2d conv]>
      (<["batchnorm_1"%string :=
           keras.batchnorm {| keras.features := 2; keras.bn_weights := None |}]> ∅) in
  let cfg := [("net", []); ("convolutional", [("batch_normalize", Scalar (Int 1))])]%string in
  let weights := replicate 16 0 ++ mjoin (le_bytes32 <$> seqZ 1 14) in
  exists model' wf',
    load_weights cfg model weights = Ok (model', wf') /\
    (forall layer_name,
       layer_config <$> model' !! layer_name = layer_config <$> model !! layer_name) /\
    dom model' = dom model /\
    np.content wf' = weights /\
    (12 <= np.pos wf' <= length weights)%nat.
Proof.
  intros conv model cfg weights.
  destruct (load_weights cfg model weights) as [[model' wf']|e] eqn:E;
    [|vm_compute in E; discriminate].
  exists model', wf'. split; [reflexivity|].
  apply (load_weights_config cfg model model' weights wf' E).
Defined.

(** X23: the header of the weight file.  A file of fewer than 12 bytes
    makes the loader raise [ValueError] (the three version numbers
    cannot be unpacked).  A file of 12 bytes or more passes the header,
    also when it ends inside the seen counter: the counter is read short
    without an error and the cursor is at the end of the file. *)
Theorem load_weights_header (cfg : list (string * dict value))
    (model : gmap string keras.layer) (weights : list Z) :
  let major := np.decode np.int32 (take 4 weights) in
  let minor := np.decode np.int32 (take 4 (drop 4 weights)) in
  let after := Nat.min (12 + seen_width major minor) (length weights) in
  ((length weights < 12)%nat -> load_weights cfg model weights = Raise ValueError) /\
  ((12 <= length weights)%nat ->
   parse_header {| np.content := weights; np.pos := 0 |}
   = Ok {| np.content := weights; np.pos := after |} /\
   load_weights cfg model weights
   = load_blocks model {| np.content := weights; np.pos := after |} 1 (drop 1 cfg)).
Proof.
  intros major minor after.
  destruct (parse_header_eval {| np.content := weights; np.pos := 0 |}) as [Hshort Hfull].
  cbn [np.content np.pos] in Hshort, Hfull. rewrite drop_0 in Hfull.
  split.
  - intros Hlen. unfold load_weights. rewrite Hshort by lia. reflexivity.
  - intros Hlen. unfold load_weights. rewrite Hfull by lia. split; reflexivity.
Qed.

Section Truncated.

Variables (model : gmap string keras.layer) (wf : np.file) (block_index : nat).
Variables (section : dict value) (c : keras.Conv2D) (bn : keras.BatchNormalization).

Local Abbreviation conv_name := ("conv_" +:+ pretty block_index)%string.
Local Abbreviation bn_name := ("batchnorm_" +:+ pretty block_index)%string.
Local Abbreviation content := (np.content wf).
Local Abbreviation pos := (np.pos wf).

Hypothesis Hconv : model !! conv_name = Some (keras.conv2d c).
Hypothesis Hbn : model !! bn_name = Some (keras.batchnorm bn).
Hypothesis Hflag : batch_normalize_of section = true.
Hypothesis Hbias : keras.use_bias c = false.
Hypothesis Hfeat : keras.features bn = keras.filters c.

(** The file ends inside the four batch-norm vectors: the last of them
    comes out short, and Keras refuses it. *)
Lemma load_batchnorm_truncated :
  (pos <= length content < pos + 16 * keras.filters c)%nat ->
  load_batchnorm model wf block_index (keras.filters c) = Raise ValueError.
Proof.
  intros Hlen. unfold load_batchnorm, np.fromfile. cbn [np.content np.pos np.itemsize].
  unfold keras.get_layer. rewrite Hbn. bind_ok.
  unfold keras.set_weights. cbn [fmap list_fmap np.shape keras.weight_shapes].
  rewrite Hfeat. rewrite decide_False; [reflexivity|].
  intros E. injection E as _ _ _ E.
  match type of E with
  | context [fst (Nat.divmod ?a 3 0 3)] =>
      change (fst (Nat.divmod a 3 0 3)) with (a / 4)%nat in E
  end.
  rewrite length_drop in E.
  set (f := keras.filters c) in *.
  assert (Hdiv : ((length content
                   - Nat.min (Nat.min (Nat.min (pos + f * 4) (length content) + f * 4)
                                (length content) + f * 4) (length content)) / 4 < f)%nat).
  { apply Nat.Div0.div_lt_upper_bound. lia. }
  lia.
Qed.

Lemma load_convolutional_truncated_eval :
  (pos <= length content < pos + bn_block_bytes c)%nat ->
  load_convolutional model wf block_index section = Raise ValueError.
Proof.
  intros Hlen. unfold load_convolutional, keras.get_layer. rewrite Hconv. bind_ok.
  rewrite Hflag, Hbias.
  destruct (Nat.lt_ge_cases (length content) (pos + 16 * keras.filters c)) as [Hlt|Hge].
  - rewrite load_batchnorm_truncated by lia. reflexivity.
  - rewrite (load_batchnorm_Ok model wf block_index bn (keras.filters c) Hbn Hfeat Hge).
    bind_ok. bind_ok.
    unfold bn_block_bytes in Hlen.
    set (sh := [keras.filters c; keras.input_channels c;
                fst (keras.kernel_size c); snd (keras.kernel_size c)]) in *.
    unfold np.fromfile. cbn [np.content np.pos np.itemsize].
    unfold np.reshape. cbn [np.data].
    rewrite decide_False; [reflexivity|].
    rewrite length_fmap, chunks_length, length_drop.
    assert (Hdiv : ((length content - (pos + 16 * keras.filters c)) / 4 < np.size sh)%nat).
    { apply Nat.Div0.div_lt_upper_bound. lia. }
    lia.
Qed.

End Truncated.

(** X26: a weight file that ends inside a convolutional block with
    batch normalisation is refused: if fewer bytes are left than the
    four vectors and the kernel of the block take, the loader raises
    [ValueError], from [set_weights] on a short vector or from
    [reshape] on a short kernel. *)
Theorem load_convolutional_truncated
    (model : gmap string keras.layer) (wf : np.file) (block_index : nat)
    (section : dict value) (c : keras.Conv2D) (bn : keras.BatchNormalization)
    (rest : list (string * dict value)) :
  model !! ("conv_" +:+ pretty block_index)%string = Some (keras.conv2d c) ->
  model !! ("batchnorm_" +:+ pretty block_index)%string = Some (keras.batchnorm bn) ->
  batch_normalize_of section = true ->
  keras.use_bias c = false ->
  keras.features bn = keras.filters c ->
  (np.pos wf <= length (np.content wf) < np.pos wf + bn_block_bytes c)%nat ->
  load_convolutional model wf block_index section = Raise ValueError /\
  load_blocks model wf block_index (("convolutional"%string, section) :: rest)
  = Raise ValueError.
Proof.
  intros Hconv Hbn Hflag Hbias Hfeat Hlen.
  pose proof (load_convolutional_truncated_eval model wf block_index section c bn
                Hconv Hbn Hflag Hbias Hfeat Hlen) as H.
  split; [exact H|].
  simpl load_blocks. unfold load_block.
  change (String.eqb "convolutional" "convolutional") with true. cbv iota.
  rewrite H. reflexivity.
Qed.

Lemma load_convolutional_truncated_witness :
  let conv := {| keras.filters := 2; keras.kernel_size := (1%nat, 3%nat);
                 keras.input_channels := 1; keras.use_bias := false;
                 keras.conv_weights := None |} in
  let model : gmap string keras.layer :=
    <["conv_1"%string := keras.conv2d conv]>
      (<["batchnorm_1"%string :=
           keras.batchnorm {| keras.features := 2; keras.bn_weights := None |}]> ∅) in
  let wf := {| np.content := mjoin (le_bytes32 <$> seqZ 1 13); np.pos := 0 |} in
  load_convolutional model wf 1 [("batch_normalize", Scalar (Int 1))]%string
  = Raise ValueError /\
  load_blocks model wf 1
    [("convolutional", [("batch_normalize", Scalar (Int 1))]); ("connected", [])]%string
  = Raise ValueError.
Proof.
  intros conv model wf.
  apply (load_convolutional_truncated model wf 1%nat
           [("batch_normalize", Scalar (Int 1))]%string conv
           {| keras.features := 2; keras.bn_weights := None |}
           [("connected", [])]%string
           eq_refl eq_refl eq_refl eq_refl eq_refl).
  vm_compute. lia.
Defined.

Lemma weights_bytes_ext (blocks : list (string * dict value))
    (model model' : gmap string keras.layer) (block_index : nat) :
  (forall j, (block_index <= j)%nat ->
     model' !! ("conv_" +:+ pretty j)%string = model !! ("conv_" +:+ pretty j)%string) ->
  weights_bytes model' block_index blocks = weights_bytes model block_index blocks.
Proof.
  revert block_index.
  induction blocks as [|[block_name section] blocks IH]; intros block_index H;
    [reflexivity|].
  simpl. rewrite (H block_index) by lia. f_equal. apply IH. intros j Hj. apply H. lia.
Qed.

Lemma not_loaded_before (blocks : list (string * dict value)) (block_index i : nat) :
  (i < block_index)%nat ->
  (("conv_" +:+ pretty i)%string ∉ loaded_layers block_index blocks) /\
  (("batchnorm_" +:+ pretty i)%string ∉ loaded_layers block_index blocks).
Proof.
  intros Hi. split; intros Hin;
    apply elem_of_loaded_layers in Hin as (k & section & _ & [E|E]).
  - apply conv_name_inj in E. lia.
  - exact (conv_batchnorm_names _ _ E).
  - symmetry in E. exact (conv_batchnorm_names _ _ E).
  - apply batchnorm_name_inj in E. lia.
Qed.

(** Loading a run of blocks whose convolutional blocks all have batch
    normalisation. *)
Lemma load_blocks_batchnorm_Ok (blocks : list (string * dict value))
    (model : gmap string keras.layer) (wf : np.file) (block_index : nat) :
  (forall k section,
     blocks !! k = Some ("convolutional"%string, section) ->
     batchnorm_block model (block_index + k) section) ->
  (np.pos wf + weights_bytes model block_index blocks <= length (np.content wf))%nat ->
  exists model' wf',
    load_blocks model wf block_index blocks = Ok (model', wf') /\
    np.content wf' = np.content wf /\
    np.pos wf' = (np.pos wf + weights_bytes model block_index blocks)%nat /\
    forall k section,
      blocks !! k = Some ("convolutional"%string, section) ->
      exists (c : keras.Conv2D) (kernel : np.ndarray Z) (start : nat),
        start = (np.pos wf + weights_bytes model block_index (take k blocks))%nat /\
        model !! ("conv_" +:+ pretty (block_index + k)%nat)%string
        = Some (keras.conv2d c) /\
        np.transpose
          (darknet_kernel_at (np.content wf) (start + 16 * keras.filters c) c)
          [2; 3; 1; 0]%nat
        = Ok kernel /\
        model' !! ("conv_" +:+ pretty (block_index + k)%nat)%string
        = Some (keras.conv2d
                  {| keras.filters := keras.filters c;
                     keras.kernel_size := keras.kernel_size c;
                     keras.input_channels := keras.input_channels c;
                     keras.use_bias := false;
                     keras.conv_weights := Some [kernel] |}) /\
        model' !! ("batchnorm_" +:+ pretty (block_index + k)%nat)%string
        = Some (keras.batchnorm
                  {| keras.features := keras.filters c;
                     keras.bn_weights :=
                       Some [vector_at (np.content wf) start (keras.filters c) 1;
                             vector_at (np.content wf) start (keras.filters c) 0;
                             vector_at (np.content wf) start (keras.filters c) 2;
                             vector_at (np.content wf) start (keras.filters c) 3] |}).
Proof.
  revert model wf block_index.
  induction blocks as [|[block_name section] blocks IH];
    intros model wf block_index Hblocks Hlen.
  - exists model, wf. simpl. rewrite Nat.add_0_r.
    repeat split. intros k section' H. discriminate H.
  - simpl weights_bytes in Hlen |- *. simpl load_blocks. unfold load_block.
    destruct (String.eqb_spec block_name "convolutional") as [->|Hname].
    + destruct (Hblocks 0%nat section eq_refl) as (Hflag & c & bn & Hconv & Hbias & Hbn & Hfeat).
      rewrite Nat.add_0_r in Hconv, Hbn. rewrite Hconv in Hlen |- *.
      destruct (load_convolutional_bn_Ok model wf block_index section c bn
                  Hconv Hbn Hflag Hbias Hfeat ltac:(lia)) as (kernel & Hker & Hload).
      rewrite Hload. bind_ok.
      set (model1 := <[("conv_" +:+ pretty block_index)%string := _]> _) in *.
      set (wf1 := {| np.content := np.content wf;
                     np.pos := (np.pos wf + bn_block_bytes c)%nat |}) in *.
      assert (Hsame : forall j, (S block_index <= j)%nat ->
                model1 !! ("conv_" +:+ pretty j)%string
                = model !! ("conv_" +:+ pretty j)%string /\
                model1 !! ("batchnorm_" +:+ pretty j)%string
                = model !! ("batchnorm_" +:+ pretty j)%string).
      { intros j Hj. unfold model1. split.
        - rewrite lookup_insert_ne by (intros E; apply conv_name_inj in E; lia).
          rewrite lookup_insert_ne by (intros E; symmetry in E;
                                       exact (conv_batchnorm_names _ _ E)).
          reflexivity.
        - rewrite lookup_insert_ne by (intros E; exact (conv_batchnorm_names _ _ E)).
          rewrite lookup_insert_ne by (intros E; apply batchnorm_name_inj in E; lia).
          reflexivity. }
      assert (Hbytes : forall l, weights_bytes model1 (S block_index) l
                                 = weights_bytes model (S block_index) l).
      { intros l. apply weights_bytes_ext. intros j Hj. apply Hsame, Hj. }
      destruct (IH model1 wf1 (S block_index)) as (model' & wf' & Hrest & Hc & Hp & Hall).
      { intros k section' Hk.
        destruct (Hblocks (S k) section' Hk) as (Hflag' & c' & bn' & H1 & H2 & H3 & H4).
        replace (block_index + S k)%nat with (S block_index + k)%nat in * by lia.
        destruct (Hsame (S block_index + k)%nat ltac:(lia)) as [E1 E2].
        split; [exact Hflag'|]. exists c', bn'. rewrite E1, E2. auto. }
      { rewrite Hbytes. unfold wf1. cbn [np.content np.pos]. lia. }
      exists model', wf'. split; [exact Hrest|].
      split; [exact Hc|].
      split; [rewrite Hp, Hbytes; unfold wf1; cbn [np.pos]; lia|].
      destruct (load_blocks_preserves _ _ _ _ _ _ Hrest) as (_ & _ & _ & Hframe).
      destruct (not_loaded_before blocks (S block_index) block_index ltac:(lia))
        as [Hnc Hnb].
      intros [|k] section' Hk.
      * replace (block_index + 0)%nat with block_index by lia.
        exists c, kernel, (np.pos wf).
        split; [simpl; lia|]. split; [exact Hconv|]. split; [exact Hker|].
        rewrite (Hframe _ Hnc), (Hframe _ Hnb). unfold model1.
        rewrite lookup_insert_eq.
        rewrite lookup_insert_ne by (intros E; exact (conv_batchnorm_names _ _ E)).
        rewrite lookup_insert_eq. split; reflexivity.
      * destruct (Hall k section' Hk) as (c' & kernel' & start & Hstart & H1 & H2 & H3 & H4).
        replace (block_index + S k)%nat with (S block_index + k)%nat by lia.
        destruct (Hsame (S block_index + k)%nat ltac:(lia)) as [E1 _].
        exists c', kernel', start.
        split.
        { rewrite Hstart, Hbytes. unfold wf1. cbn [np.pos take]. simpl weights_bytes.
          rewrite Hconv. lia. }
        split; [rewrite <- E1; exact H1|]. auto.
    + destruct (IH model wf (S block_index)) as (model' & wf' & Hrest & Hc & Hp & Hall).
      { intros k section' Hk.
        replace (S block_index + k)%nat with (block_index + S k)%nat by lia.
        apply Hblocks. exact Hk. }
      { lia. }
      bind_ok.
      exists model', wf'. split; [exact Hrest|]. split; [exact Hc|].
      split; [rewrite Hp; lia|].
      intros [|k] section' Hk.
      * injection Hk as E _. contradiction.
      * destruct (Hall k section' Hk) as (c' & kernel' & start & Hstart & H).
        replace (block_index + S k)%nat with (S block_index + k)%nat by lia.
        exists c', kernel', start. split; [|exact H].
        rewrite Hstart. cbn [take]. simpl weights_bytes.
        destruct (String.eqb_spec block_name "convolutional"); [contradiction|]. lia.
Qed.

(** X27: loading a whole file.  For a config whose convolutional blocks
    from block 1 on all have batch normalisation, with layers as
    [create_model_from_cfg] makes them, and a weight file that holds
    the header and the weights of these blocks, the load ends well;
    the cursor ends after the weights of the last convolutional block
    (what follows in the file is not read), and for every convolutional
    block [i] the batch-norm layer holds the four vectors and the
    convolution the transposed kernel that start where the weights of
    the convolutional blocks before [i] end. *)
Theorem load_weights_batchnorm (cfg : list (string * dict value))
    (model : gmap string keras.layer) (weights : list Z) :
  let major := np.decode np.int32 (take 4 weights) in
  let minor := np.decode np.int32 (take 4 (drop 4 weights)) in
  let header := (12 + seen_width major minor)%nat in
  (forall i section,
     (1 <= i)%nat -> cfg !! i = Some ("convolutional"%string, section) ->
     batchnorm_block model i section) ->
  (header + weights_bytes model 1 (drop 1 cfg) <= length weights)%nat ->
  exists model' wf',
    load_weights cfg model weights = Ok (model', wf') /\
    np.pos wf' = (header + weights_bytes model 1 (drop 1 cfg))%nat /\
    forall i section,
      (1 <= i)%nat -> cfg !! i = Some ("convolutional"%string, section) ->
      exists (c : keras.Conv2D) (kernel : np.ndarray Z) (start : nat),
        start = (header + weights_bytes model 1 (take (i - 1) (drop 1 cfg)))%nat /\
        model !! ("conv_" +:+ pretty i)%string = Some (keras.conv2d c) /\
        np.transpose (darknet_kernel_at weights (start + 16 * keras.filters c) c)
          [2; 3; 1; 0]%nat
        = Ok kernel /\
        model' !! ("conv_" +:+ pretty i)%string
        = Some (keras.conv2d
                  {| keras.filters := keras.filters c;
                     keras.kernel_size := keras.kernel_size c;
                     keras.input_channels := keras.input_channels c;
                     keras.use_bias := false;
                     keras.conv_weights := Some [kernel] |}) /\
        model' !! ("batchnorm_" +:+ pretty i)%string
        = Some (keras.batchnorm
                  {| keras.features := keras.filters c;
                     keras.bn_weights :=
                       Some [vector_at weights start (keras.filters c) 1;
                             vector_at weights start (keras.filters c) 0;
                             vector_at weights start (keras.filters c) 2;
                             vector_at weights start (keras.filters c) 3] |}).
Proof.
  intros major minor header Hblocks Hlen. unfold load_weights.
  rewrite (parse_header_Ok weights) by (fold major minor header; lia).
  fold major minor header. bind_ok.
  destruct (load_blocks_batchnorm_Ok (drop 1 cfg) model
              {| np.content := weights; np.pos := header |} 1)
    as (model' & wf' & Hload & _ & Hpos & Hall).
  { intros k section Hk. rewrite lookup_drop in Hk. apply Hblocks; [lia | exact Hk]. }
  { exact Hlen. }
  exists model', wf'. split; [exact Hload|]. split; [exact Hpos|].
  intros i section Hi Hblock.
  destruct (Hall (i - 1)%nat section) as (c & kernel & start & H).
  { rewrite lookup_drop. replace (1 + (i - 1))%nat with i by lia. exact Hblock. }
  replace (1 + (i - 1))%nat with i in H by lia.
  exists c, kernel, start. exact H.
Qed.

Lemma load_weights_batchnorm_witness :
  let conv := {| keras.filters := 2; keras.kernel_size := (1%nat, 3%nat);
                 keras.input_channels := 1; keras.use_bias := false;
                 keras.conv_weights := None |} in
  let model : gmap string keras.layer :=
    <["conv_1"%string := keras.conv2d conv]>
      (<["batchnorm_1"%string :=
           keras.batchnorm {| keras.features := 2; keras.bn_weights := None |}]> ∅) in
  let cfg := [("net", []); ("convolutional", [("batch_normalize", Scalar (Int 1))]);
              ("connected", [])]%string in
  let weights := replicate 16 0 ++ mjoin (le_bytes32 <$> seqZ 1 16) in
  exists model' wf',
    load_weights cfg model weights = Ok (model', wf') /\
    np.pos wf' = 72%nat /\
    model' !! "batchnorm_1"%string
    = Some (keras.batchnorm
              {| keras.features := 2;
                 keras.bn_weights :=
                   Some [np.mk [2%nat] [3; 4]; np.mk [2%nat] [1; 2];
                         np.mk [2%nat] [5; 6]; np.mk [2%nat] [7; 8]] |}).
Proof.
  intros conv model cfg weights.
  destruct (load_weights_batchnorm cfg model weights) as (model' & wf' & Hload & Hpos & Hall).
  - intros [|[|[|i]]] section Hi Hblock; try lia; try discriminate Hblock.
    injection Hblock as <-. split; [reflexivity|].
    exists conv, {| keras.features := 2; keras.bn_weights := None |}.
    repeat split; reflexivity.
  - vm_compute. lia.
  - exists model', wf'. split; [exact Hload|]. split; [exact Hpos|].
    destruct (Hall 1%nat [("batch_normalize", Scalar (Int 1))]%string ltac:(lia) eq_refl)
      as (c & kernel & start & -> & Hc & _ & _ & Hbn).
    injection Hc as <-. exact Hbn.
Defined.


